(** * create-tsrouter-app: the scaffolding engine of [src/index.ts]

    A shallow embedding of the command-line program that materialises a new
    TanStack application directory: JavaScript strings and plain objects,
    the package manifest merger ([sortObject], [createPackageJSON]), the
    file composers ([createCopyFiles], [createTemplateFile],
    [copyFilesRecursively]) and the orchestrator ([createApp], the
    [program.action] callback), followed by the properties proved of them.

    JavaScript strings are sequences of UTF-16 code units; a Rocq [string]
    stands for a string whose code units are below 256, compared unit by
    unit as [Array.prototype.sort] and [String.prototype.endsWith] do. *)

From Stdlib Require Import String Ascii List NArith ZArith Bool Lia.
From Stdlib Require Import DecimalString Permutation Sorted.
From Stdlib Require OrderedTypeEx.
Import ListNotations.
Open Scope list_scope.
Open Scope string_scope.

(** ** JavaScript strings *)

Module JsString.

Fixpoint drop (n : nat) (s : string) : string :=
  match n, s with
  | S n', String _ s' => drop n' s'
  | _, _ => s
  end.

(** [s.replace(pat, rep)] with a string pattern: the first occurrence of
    [pat] in [s] is replaced, the rest of [s] is kept.  The program only
    replaces by the empty string, so the [$]-patterns of a replacement
    string never come into play. *)
Fixpoint replace (pat rep s : string) : string :=
  if prefix pat s then rep ++ drop (String.length pat) s
  else match s with
       | EmptyString => EmptyString
       | String c s' => String c (replace pat rep s')
       end.

(** [s.endsWith(suf)] *)
Definition endsWith (s suf : string) : bool :=
  (String.length suf <=? String.length s)%nat
  && (substring (String.length s - String.length suf) (String.length suf) s
      =? suf).

(** [pat] occurs somewhere in [s] ([s.includes(pat)]). *)
Fixpoint includes (s pat : string) : bool :=
  if prefix pat s then true
  else match s with
       | EmptyString => false
       | String _ s' => includes s' pat
       end.

(** [l.join(sep)] *)
Fixpoint join (sep : string) (l : list string) : string :=
  match l with
  | [] => ""
  | [x] => x
  | x :: l' => x ++ sep ++ join sep l'
  end.

(** The default order of [Array.prototype.sort] on strings: code units
    compared left to right, a proper prefix first.  The sort is stable;
    equal strings being identical, the sorted array is determined by the
    order alone, and an insertion sort computes it. *)
Fixpoint insert_sorted (k : string) (l : list string) : list string :=
  match l with
  | [] => [k]
  | h :: t => if (k <=? h) then k :: l else h :: insert_sorted k t
  end.

Definition sort (l : list string) : list string :=
  fold_right insert_sorted [] l.

End JsString.

(** ** Errors and results *)

(** What the program, Node and the libraries it calls can throw. *)
Inductive error :=
| InvalidArgumentError (message : string)       (* commander *)
| TypeError (message : string)                  (* the language itself *)
| SystemError (code : string) (path : string)   (* node:fs, e.g. ENOENT *)
| ExternalError (origin : string) (message : string).
                                   (* ejs, prettier, JSON.parse, execa *)

Inductive result (A : Type) :=
| Ok (a : A)
| Err (e : error).
Arguments Ok {A} a.
Arguments Err {A} e.

(** ** JavaScript values and plain objects *)

Module JsObject.

(** The values [JSON.parse] produces, and [undefined] for what a property
    read gives when the property is missing. *)
#[warnings="-register-all"] Inductive value :=
| VUndefined
| VNull
| VBool (b : bool)
| VNum (n : Z)
| VStr (s : string)
| VArr (l : list value)
| VObj (o : list (string * value)).

(** A plain object: its own enumerable properties, listed in the order
    in which [Object.keys], the spread syntax and [JSON.stringify]
    enumerate them. *)
Definition obj := list (string * value).

Definition digit (c : ascii) : option N :=
  let n := N_of_ascii c in
  if ((48 <=? n) && (n <=? 57))%N then Some (n - 48)%N else None.

Fixpoint digits_value (acc : N) (s : string) : option N :=
  match s with
  | EmptyString => Some acc
  | String c s' =>
      match digit c with
      | Some d => digits_value (10 * acc + d)%N s'
      | None => None
      end
  end.

(** A property key is an array index when it is the canonical decimal
    form of an integer below 2^32 - 1 ("0", "7", "42"; not "07", "-1"
    or "1.5"). *)
Definition array_index (k : string) : option N :=
  match k with
  | EmptyString => None
  | String c k' =>
      if (c =? "0")%char && negb (k' =? "") then None
      else match digits_value 0 k with
           | Some n => if (n <? 4294967295)%N then Some n else None
           | None => None
           end
  end.

Fixpoint lookup (o : obj) (k : string) : option value :=
  match o with
  | [] => None
  | (k', v) :: o' => if k' =? k then Some v else lookup o' k
  end.

Definition has (o : obj) (k : string) : bool :=
  match lookup o k with Some _ => true | None => false end.

(** [o.k] and [o[k]].  The program reads the properties [name],
    [dependencies], [devDependencies], [scripts] and the object's own
    keys, none of which [Object.prototype] provides, so a property that
    is not an own property reads as [undefined]. *)
Definition prop (o : obj) (k : string) : value :=
  match lookup o k with Some v => v | None => VUndefined end.

(** [Object.keys(o)] *)
Definition keys (o : obj) : list string := map fst o.

Fixpoint update (o : obj) (k : string) (v : value) : obj :=
  match o with
  | [] => []
  | (k', v') :: o' =>
      if k' =? k then (k', v) :: o' else (k', v') :: update o' k v
  end.

(** Own property keys are enumerated with the array indices first, in
    ascending numeric order, then the other strings in the order in
    which the properties were created (OrdinaryOwnPropertyKeys).
    [precedes k k'] tells that a new key [k] is listed before the
    existing key [k']. *)
Definition precedes (k k' : string) : bool :=
  match array_index k, array_index k' with
  | Some n, Some m => (n <? m)%N
  | Some _, None => true
  | None, _ => false
  end.

Fixpoint insert_new (o : obj) (k : string) (v : value) : obj :=
  match o with
  | [] => [(k, v)]
  | (k', v') :: o' =>
      if precedes k k' then (k, v) :: (k', v') :: o'
      else (k', v') :: insert_new o' k v
  end.

(** CreateDataProperty: what an object literal, the spread syntax and
    [JSON.parse] do for each property.  An existing property keeps its
    place and takes the new value. *)
Definition define (o : obj) (k : string) (v : value) : obj :=
  if has o k then update o k v else insert_new o k v.

(** The assignment [o[k] = v] on an object whose prototype is
    [Object.prototype].  For the key [__proto__], unless the object has
    an own property of that name, the assignment reaches the accessor of
    [Object.prototype]: it creates no own property (it changes the
    prototype when [v] is an object or [null] and does nothing
    otherwise). *)
Definition assign (o : obj) (k : string) (v : value) : obj :=
  if (k =? "__proto__") && negb (has o k) then o else define o k v.

Definition index_key (i : nat) : string :=
  NilEmpty.string_of_uint (Nat.to_uint i).

Fixpoint indexed {A : Type} (f : A -> value) (i : nat) (l : list A) : obj :=
  match l with
  | [] => []
  | a :: l' => (index_key i, f a) :: indexed f (S i) l'
  end.

(** The own enumerable properties of any value: those of an object, the
    elements of an array and the code units of a string under their
    indices, none for the other values. *)
Definition own (v : value) : obj :=
  match v with
  | VObj o => o
  | VArr l => indexed (fun x => x) 0 l
  | VStr s => indexed (fun c => VStr (String c "")) 0 (list_ascii_of_string s)
  | _ => []
  end.

(** [{ ...t, ...v }] continues the object under construction [t] with
    the own properties of [v], in order (CopyDataProperties). *)
Definition spread (t : obj) (v : value) : obj :=
  fold_left (fun t kv => define t (fst kv) (snd kv)) (own v) t.

(** [{ ...a, ...b }] *)
Definition merged (a b : value) : value :=
  VObj (spread (spread [] a) b).

End JsObject.
Import JsObject.

(** ** Paths ([node:path], POSIX flavour) *)

Module Path.

Definition slash : ascii := "/"%char.

(** [s.split("/")] *)
Fixpoint split (s : string) : list string :=
  match s with
  | EmptyString => [""]
  | String c s' =>
      if (c =? slash)%char then "" :: split s'
      else match split s' with
           | [] => [String c ""]
           | seg :: segs => String c seg :: segs
           end
  end.

(** The segments of a path with the empty and [.] segments dropped and
    each [..] cancelling the segment before it; above the root [..] has
    no effect. *)
Fixpoint normalize (stack segs : list string) : list string :=
  match segs with
  | [] => rev stack
  | seg :: segs' =>
      if (seg =? "") || (seg =? ".") then normalize stack segs'
      else if seg =? ".." then normalize (tl stack) segs'
      else normalize (seg :: stack) segs'
  end.

(** [path.resolve] walks its arguments from the right and stops at the
    first absolute one; when none is, the working directory is put in
    front.  [joined] takes the arguments last one first. *)
Fixpoint joined (cwd : string) (args : list string) : string :=
  match args with
  | [] => cwd ++ "/"
  | a :: rest =>
      if a =? "" then joined cwd rest
      else if prefix "/" a then a ++ "/"
      else joined cwd rest ++ a ++ "/"
  end.

(** [path.resolve(...args)] in a process whose working directory is the
    absolute path [cwd]. *)
Definition resolve (cwd : string) (args : list string) : string :=
  "/" ++ JsString.join "/" (normalize [] (split (joined cwd (rev args)))).

(** The scan of [path.dirname], on the characters after the first one,
    last character first: trailing slashes are passed over, then the last
    segment; what is left of the slash that ends the scan is kept. *)
Fixpoint scan (matchedSlash : bool) (rev_chars : list ascii)
  : option (list ascii) :=
  match rev_chars with
  | [] => None
  | c :: rest =>
      if (c =? slash)%char
      then if matchedSlash then scan true rest else Some rest
      else scan false rest
  end.

(** [path.dirname(p)] *)
Definition dirname (p : string) : string :=
  match p with
  | EmptyString => "."
  | String c rest =>
      let hasRoot := (c =? slash)%char in
      match scan true (rev (list_ascii_of_string rest)) with
      | None => if hasRoot then "/" else "."
      | Some kept =>
          if hasRoot && match kept with [] => true | _ => false end
          then "//"
          else String c (string_of_list_ascii (rev kept))
      end
  end.

End Path.

(** ** The process and its file system *)

Inductive entry :=
| File (content : string)
| Dir.

(** A choice offered by the add-on prompt. *)
Record SelectOption := mkSelectOption {
  option_value : string;
  option_label : string;
  option_hint : string
}.

(** What the prompt resolves to: the values of the options the user
    ticked, or the cancel symbol when the user left the prompt. *)
Inductive Answer :=
| Selected (values : list string)
| Cancelled.

(** What the run shows on the terminal and the child processes it starts,
    oldest first. *)
Inductive event :=
| LogError (message : string)
| LogWarn (message : string)
| Intro (message : string)
| Outro (message : string)
| SpinnerStart (message : string)
| SpinnerStop (message : string)
| Prompt (message : string) (options : list SelectOption)
| Exec (command : string) (args : list string) (cwd : string).

(** The file system maps canonical absolute paths to entries, in the
    order in which a directory listing returns them; the root directory
    always exists and has no entry of its own.  File contents are text. *)
Record world := mkWorld {
  fs : list (string * entry);
  trace : list event
}.

(** A computation of the program: it runs from a world to a value or a
    thrown error, and to the world it leaves; what was written before an
    error stays written. *)
Definition M (A : Type) : Type := world -> result A * world.

Definition ret {A : Type} (a : A) : M A := fun w => (Ok a, w).

Definition throw {A : Type} (e : error) : M A := fun w => (Err e, w).

Definition bind {A B : Type} (m : M A) (k : A -> M B) : M B :=
  fun w =>
    match m w with
    | (Ok a, w') => k a w'
    | (Err e, w') => (Err e, w')
    end.

Declare Scope js_scope.
Delimit Scope js_scope with js.
Notation "x <- m ;; k" := (bind m (fun x => k))
  (at level 100, m at next level, right associativity) : js_scope.
Notation "m ;; k" := (bind m (fun _ => k))
  (at level 100, right associativity) : js_scope.
Open Scope js_scope.

(** [for (const x of l) { await body(x) }] *)
Fixpoint forEach {A : Type} (l : list A) (body : A -> M unit) : M unit :=
  match l with
  | [] => ret tt
  | x :: l' => body x ;; forEach l' body
  end.

Definition lift {A : Type} (r : result A) : M A :=
  match r with Ok a => ret a | Err e => throw e end.

Definition emit (e : event) : M unit :=
  fun w => (Ok tt, mkWorld (fs w) (trace w ++ [e])%list).

Definition get_fs : M (list (string * entry)) := fun w => (Ok (fs w), w).

Definition put_fs (f : list (string * entry)) : M unit :=
  fun w => (Ok tt, mkWorld f (trace w)).

(** *** [node:fs] *)

Module Fs.

Definition t := list (string * entry).

(** The spelling under which a path is stored.  The program hands
    absolute paths only to [node:fs]. *)
Definition canon (p : string) : string := Path.resolve "/" [p].

Fixpoint find (f : t) (p : string) : option entry :=
  match f with
  | [] => None
  | (q, e) :: f' => if q =? p then Some e else find f' p
  end.

(** The entry at a canonical path. *)
Definition entry_at (f : t) (p : string) : option entry :=
  if p =? "/" then Some Dir else find f p.

Definition stat (f : t) (p : string) : option entry := entry_at f (canon p).

Fixpoint set (f : t) (p : string) (e : entry) : t :=
  match f with
  | [] => [(p, e)]
  | (q, e') :: f' => if q =? p then (q, e) :: f' else (q, e') :: set f' p e
  end.

(** The name of [p] inside the directory [d], when [p] is directly in it. *)
Definition child_name (d p : string) : option string :=
  let pre := if d =? "/" then "/" else d ++ "/" in
  if prefix pre p
  then let name := JsString.drop (String.length pre) p in
       if (name =? "") || JsString.includes name "/" then None else Some name
  else None.

Fixpoint children (f : t) (d : string) : list string :=
  match f with
  | [] => []
  | (q, _) :: f' =>
      match child_name d q with
      | Some name => name :: children f' d
      | None => children f' d
      end
  end.

(** The directories from the root down to [p], [p] included. *)
Fixpoint chain (dir : string) (segs : list string) : list string :=
  match segs with
  | [] => []
  | seg :: segs' =>
      let d := (if dir =? "/" then "/" ++ seg else dir ++ "/" ++ seg) in
      d :: chain d segs'
  end.

Definition ancestors (p : string) : list string :=
  chain "/" (Path.normalize [] (Path.split p)).

Fixpoint make_dirs (f : t) (dirs : list string) : result t :=
  match dirs with
  | [] => Ok f
  | d :: dirs' =>
      match find f d with
      | Some Dir => make_dirs f dirs'
      | Some (File _) =>
          Err (SystemError
                 (match dirs' with [] => "EEXIST" | _ => "ENOTDIR" end) d)
      | None => make_dirs (set f d Dir) dirs'
      end
  end.

(** The code with which the lookup of a path that has no entry fails.
    The path is walked from the root: a regular file on the way, where a
    directory is needed, gives [ENOTDIR]; a name that is missing gives
    [ENOENT]. *)
Fixpoint walk (f : t) (dirs : list string) : string :=
  match dirs with
  | [] => "ENOENT"
  | d :: dirs' =>
      match find f d with
      | Some Dir => walk f dirs'
      | Some (File _) => "ENOTDIR"
      | None => "ENOENT"
      end
  end.

Definition missing (f : t) (p : string) : error :=
  SystemError (walk f (ancestors p)) (canon p).

(** Writing the file [p]: its directory must exist, and [p] must not be a
    directory. *)
Definition put_file (f : t) (p : string) (content : string) : result t :=
  let p := canon p in
  match entry_at f p with
  | Some Dir => Err (SystemError "EISDIR" p)
  | _ =>
      match stat f (Path.dirname p) with
      | Some Dir => Ok (set f p (File content))
      | Some (File _) => Err (SystemError "ENOTDIR" p)
      | None => Err (SystemError (walk f (ancestors (Path.dirname p))) p)
      end
  end.

Definition get_file (f : t) (p : string) : result string :=
  match stat f p with
  | Some (File c) => Ok c
  | Some Dir => Err (SystemError "EISDIR" (canon p))
  | None => Err (missing f p)
  end.

End Fs.

(** [existsSync(p)] *)
Definition existsSync (p : string) : M bool :=
  f <- get_fs ;;
  ret (match Fs.stat f p with Some _ => true | None => false end).

(** [statSync(p)], of which the program asks [isDirectory()] only:
    [is_directory]. *)
Definition statSync (p : string) : M entry :=
  f <- get_fs ;;
  match Fs.stat f p with
  | Some e => ret e
  | None => throw (Fs.missing f p)
  end.

Definition is_directory (e : entry) : bool :=
  match e with Dir => true | File _ => false end.

(** [isDirectory(path)] *)
Definition isDirectory (path : string) : M bool :=
  s <- statSync path ;;
  ret (is_directory s).

(** [readdirSync(p)] *)
Definition readdirSync (p : string) : M (list string) :=
  f <- get_fs ;;
  match Fs.stat f p with
  | Some Dir => ret (Fs.children f (Fs.canon p))
  | Some (File _) => throw (SystemError "ENOTDIR" (Fs.canon p))
  | None => throw (Fs.missing f p)
  end.

(** [mkdir(p, { recursive: true })]: the missing directories on the way
    to [p] are created; a directory that exists is no error. *)
Definition mkdir (p : string) : M unit :=
  f <- get_fs ;;
  f' <- lift (Fs.make_dirs f (Fs.ancestors p)) ;;
  put_fs f'.

(** [readFile(p, "utf-8")] *)
Definition readFile (p : string) : M string :=
  f <- get_fs ;;
  lift (Fs.get_file f p).

(** [writeFile(p, content)]: the file is created, or replaced. *)
Definition writeFile (p content : string) : M unit :=
  f <- get_fs ;;
  f' <- lift (Fs.put_file f p content) ;;
  put_fs f'.

(** [appendFile(p, content)]: the content is added at the end of the
    file; a file that does not exist yet is created with it. *)
Definition appendFile (p content : string) : M unit :=
  f <- get_fs ;;
  let old := match Fs.stat f p with Some (File c) => c | _ => "" end in
  f' <- lift (Fs.put_file f p (old ++ content)) ;;
  put_fs f'.

(** [copyFile(src, dest)]: [dest] is created, or replaced. *)
Definition copyFile (src dest : string) : M unit :=
  content <- readFile src ;;
  writeFile dest content.

(** ** The data of the program *)

Record Command := mkCommand {
  command_name : string;
  command_args : option (list string)
}.

(** An add-on of the catalog.  [main], [layout] and [userUi] are only
    handed to the templates.  [packageAdditions] is what [JSON.parse] gave
    for the add-on's [package.json], or the empty object. *)
Record AddOn := mkAddOn {
  id : string;
  name : string;
  description : string;
  link : string;
  main : value;
  layout : value;
  routes : value;
  userUi : value;
  directory : string;
  packageAdditions : value;
  command : option Command;
  readme : option string;
  phase : string;
  shadcnComponents : option (list string);
  warning : option string
}.

Inductive Mode :=
| CODE_ROUTER
| FILE_ROUTER.

Definition Mode_name (m : Mode) : string :=
  match m with
  | CODE_ROUTER => "code-router"
  | FILE_ROUTER => "file-router"
  end.

Definition is_FILE_ROUTER (m : Mode) : bool :=
  match m with FILE_ROUTER => true | CODE_ROUTER => false end.

Record Options := mkOptions {
  typescript : bool;
  tailwind : bool;
  packageManager : string;
  mode : Mode;
  addOns : bool;
  chosenAddOns : list AddOn
}.

(** [options.chosenAddOns = chosen] *)
Definition set_chosenAddOns (options : Options) (chosen : list AddOn)
  : Options :=
  mkOptions (typescript options) (tailwind options) (packageManager options)
    (mode options) (addOns options) chosen.

(** The values a template is rendered with. *)
Record TemplateValues := mkTemplateValues {
  tv_packageManager : string;
  tv_projectName : string;
  tv_typescript : bool;
  tv_tailwind : bool;
  tv_js : string;
  tv_jsx : string;
  tv_fileRouter : bool;
  tv_codeRouter : bool;
  tv_addOnEnabled : obj;
  tv_addOns : list AddOn
}.

(** The options given to prettier. *)
Record FormatOptions := mkFormatOptions {
  semi : bool;
  singleQuote : bool;
  trailingComma : string;
  parser : string
}.

(** The collaborators of the program: the process it runs in, the JSON
    codec of the language, ejs, prettier, the prompt, the child processes
    and the event loop.  A child process may change the file system; its
    failure is an error of the run.  The event loop decides when the
    calls that are not awaited go on: [turns n] lists the jobs that
    complete a step while the [n]-th awaited operation of [createApp] is
    pending, a job being named by its rank among the jobs started. *)
Class Externals := {
  cwd : string;
  templates : string;
  JSON_parse : string -> result value;
  JSON_stringify : value -> string;
  render : string -> TemplateValues -> result string;
  format : string -> FormatOptions -> result string;
  multiselect : string -> list SelectOption -> result Answer;
  execa : string -> list string -> string -> Fs.t -> result Fs.t;
  stack_depth : nat;
  turns : nat -> list nat
}.

(** ** The manifest merger *)

(** [sortObject(obj)].  [Object.keys] of [undefined] or [null] throws. *)
Definition sortObject (o : value) : result value :=
  match o with
  | VUndefined | VNull =>
      Err (TypeError "Cannot convert undefined or null to object")
  | _ =>
      Ok (VObj (fold_left (fun acc key => assign acc key (prop (own o) key))
                  (JsString.sort (keys (own o))) []))
  end.

(** [{ ...packageJSON, devDependencies: { ...packageJSON.devDependencies,
       ...fragment.devDependencies } }], and likewise for [dependencies]. *)
Definition merge_section (section : string) (packageJSON fragment : obj)
  : obj :=
  define (spread [] (VObj packageJSON)) section
    (merged (prop packageJSON section) (prop fragment section)).

(** The body of the loop over the add-ons: the three sections of the new
    object are all computed from the object of before. *)
Definition merge_addOn (packageJSON addOn : obj) : obj :=
  define
    (define
       (define (spread [] (VObj packageJSON)) "dependencies"
          (merged (prop packageJSON "dependencies")
             (prop addOn "dependencies")))
       "devDependencies"
       (merged (prop packageJSON "devDependencies")
          (prop addOn "devDependencies")))
    "scripts"
    (merged (prop packageJSON "scripts") (prop addOn "scripts")).

(** The object [createPackageJSON] serialises, from the parsed manifest
    files: [base] is [package.json], [ts], [tw] and [fr] are
    [package.ts.json], [package.tw.json] and [package.fr.json], each
    looked at only when its option is on. *)
Definition mergePackageJSON (projectName : string) (options : Options)
  (base ts tw fr : obj) (addOns : list obj) : result obj :=
  let packageJSON := assign base "name" (VStr projectName) in
  let packageJSON :=
    if typescript options
    then merge_section "devDependencies" packageJSON ts
    else packageJSON in
  let packageJSON :=
    if tailwind options
    then merge_section "dependencies" packageJSON tw
    else packageJSON in
  let packageJSON :=
    if is_FILE_ROUTER (mode options)
    then merge_section "dependencies" packageJSON fr
    else packageJSON in
  let packageJSON := fold_left merge_addOn addOns packageJSON in
  match sortObject (prop packageJSON "dependencies") with
  | Err e => Err e
  | Ok dependencies =>
      let packageJSON := assign packageJSON "dependencies" dependencies in
      match sortObject (prop packageJSON "devDependencies") with
      | Err e => Err e
      | Ok devDependencies =>
          Ok (assign packageJSON "devDependencies" devDependencies)
      end
  end.

(** A parsed manifest seen as the object whose properties are read: a
    property read on [null] throws, on any other value it finds the own
    properties at most. *)
Definition fragment_of (v : value) : result obj :=
  match v with
  | VUndefined | VNull =>
      Err (TypeError "Cannot read properties of null")
  | _ => Ok (own v)
  end.

(** The parsed base manifest seen as the object that is assigned to and
    spread: assigning a property to [null] or to a primitive value throws
    (the module is strict code). *)
Definition manifest_of (v : value) : result obj :=
  match v with
  | VObj _ | VArr _ => Ok (own v)
  | _ => Err (TypeError "Cannot set properties")
  end.

Fixpoint mapM {A B : Type} (f : A -> result B) (l : list A)
  : result (list B) :=
  match l with
  | [] => Ok []
  | a :: l' =>
      match f a with
      | Err e => Err e
      | Ok b => match mapM f l' with
                | Err e => Err e
                | Ok bs => Ok (b :: bs)
                end
      end
  end.

(** ** The file composers and the orchestrator *)

Section Program.

Context {E : Externals}.

Definition resolve (args : list string) : string := Path.resolve cwd args.

Definition dirname : string -> string := Path.dirname.

Definition dquote : string := String (ascii_of_nat 34) "".

Definition newline : string := String (ascii_of_nat 10) "".

(** A child process: it is started with its arguments and working
    directory, changes the files as it will, and its failure is thrown. *)
Definition exec (file : string) (args : list string) (dir : string)
  : M unit :=
  emit (Exec file args dir) ;;
  f <- get_fs ;;
  f' <- lift (execa file args dir f) ;;
  put_fs f'.

(** [JSON.parse(await readFile(p, "utf8"))] *)
Definition readJSON (p : string) : M value :=
  text <- readFile p ;;
  lift (JSON_parse text).

(** [createCopyFiles(targetDir)] *)
Definition createCopyFiles (targetDir : string)
  : string -> list string -> M unit :=
  fun templateDir files =>
    forEach files (fun file =>
      let targetFileName := JsString.replace ".tw" "" file in
      copyFile (resolve [templateDir; file])
               (resolve [targetDir; targetFileName])).

Definition templateValues (projectName : string) (options : Options)
  : TemplateValues :=
  mkTemplateValues
    (packageManager options)
    projectName
    (typescript options)
    (tailwind options)
    (if typescript options then "ts" else "js")
    (if typescript options then "tsx" else "jsx")
    (is_FILE_ROUTER (mode options))
    (negb (is_FILE_ROUTER (mode options)))
    (fold_left (fun acc addOn => assign acc (id addOn) (VBool true))
       (chosenAddOns options) [])
    (chosenAddOns options).

Definition prettierOptions : FormatOptions :=
  mkFormatOptions false true "all" "typescript".

(** [createTemplateFile(projectName, options, targetDir)].  The closure
    keeps the [options] object itself and reads it at each call;
    [createApp] stores the chosen add-ons into that object before the
    first call, so the closure is built here from the options as they are
    at the calls. *)
Definition createTemplateFile (projectName : string) (options : Options)
  (targetDir : string) : string -> string -> option string -> M unit :=
  fun templateDir file targetFileName =>
    template <- readFile (resolve [templateDir; file]) ;;
    content <- lift (render template (templateValues projectName options)) ;;
    let target :=
      match targetFileName with
      | Some t => t
      | None => JsString.replace ".ejs" "" file
      end in
    content <-
      (if JsString.endsWith target ".ts" || JsString.endsWith target ".tsx"
       then lift (format content prettierOptions)
       else ret content) ;;
    mkdir (dirname (resolve [targetDir; target])) ;;
    writeFile (resolve [targetDir; target]) content.

(** [createPackageJSON(projectName, options, templateDir, routerDir,
    targetDir, addOns)] *)
Definition createPackageJSON (projectName : string) (options : Options)
  (templateDir routerDir targetDir : string) (addOns : list value)
  : M unit :=
  base <- readJSON (resolve [templateDir; "package.json"]) ;;
  base <- lift (manifest_of base) ;;
  ts <- (if typescript options
         then v <- readJSON (resolve [templateDir; "package.ts.json"]) ;;
              lift (fragment_of v)
         else ret []) ;;
  tw <- (if tailwind options
         then v <- readJSON (resolve [templateDir; "package.tw.json"]) ;;
              lift (fragment_of v)
         else ret []) ;;
  fr <- (if is_FILE_ROUTER (mode options)
         then v <- readJSON (resolve [routerDir; "package.fr.json"]) ;;
              lift (fragment_of v)
         else ret []) ;;
  addOns <- lift (mapM fragment_of addOns) ;;
  packageJSON <-
    lift (mergePackageJSON projectName options base ts tw fr addOns) ;;
  writeFile (resolve [targetDir; "package.json"])
    (JSON_stringify (VObj packageJSON)).

(** [copyFilesRecursively(source, target, copyFile, templateFile)].  The
    traversal follows the directories as it finds them at each visit;
    [depth] is the nesting the call stack allows. *)
Fixpoint copyFilesRecursively (depth : nat) (source target : string)
  (copyFile : string -> string -> M unit)
  (templateFile : string -> option string -> M unit) : M unit :=
  match depth with
  | O => throw (ExternalError "RangeError" "Maximum call stack size exceeded")
  | S depth' =>
      sourceStat <- statSync source ;;
      if is_directory sourceStat then
        files <- readdirSync source ;;
        forEach files (fun file =>
          let sourceChild := resolve [source; file] in
          let targetChild := resolve [target; file] in
          copyFilesRecursively depth' sourceChild targetChild
            copyFile templateFile)
      else if JsString.endsWith source ".ejs" then
        let targetPath := JsString.replace ".ejs" "" target in
        mkdir (dirname targetPath) ;;
        templateFile source (Some targetPath)
      else
        mkdir (dirname target) ;;
        if JsString.endsWith source ".append" then
          content <- readFile source ;;
          appendFile (JsString.replace ".append" "" target) content
        else
          copyFile source target
  end.

(** *** The add-on catalog *)

Definition as_string (v : value) : string :=
  match v with VStr s => s | _ => "" end.

Definition as_text (v : value) : option string :=
  match v with VStr s => Some s | _ => None end.

Definition as_strings (v : value) : option (list string) :=
  match v with VArr l => Some (map as_string l) | _ => None end.

Definition as_command (v : value) : option Command :=
  match v with
  | VObj o => Some (mkCommand (as_string (prop o "command"))
                      (as_strings (prop o "args")))
  | _ => None
  end.

(** The object [{ id: dir, ...info, directory, packageAdditions, readme }]
    under the type the program gives it.  The descriptor is taken to have
    the declared shape: a field of another shape is read as absent. *)
Definition describe (dir : string) (info : value) (directory : string)
  (packageAdditions : value) (readme : option string) : AddOn :=
  let o := spread (define [] "id" (VStr dir)) info in
  mkAddOn (as_string (prop o "id")) (as_string (prop o "name"))
    (as_string (prop o "description")) (as_string (prop o "link"))
    (prop o "main") (prop o "layout") (prop o "routes") (prop o "userUi")
    directory packageAdditions (as_command (prop o "command")) readme
    (as_string (prop o "phase")) (as_strings (prop o "shadcnComponents"))
    (as_text (prop o "warning")).

(** [l.filter(p)] for a predicate that reads the file system. *)
Fixpoint filterM {A : Type} (p : A -> M bool) (l : list A) : M (list A) :=
  match l with
  | [] => ret []
  | a :: l' =>
      b <- p a ;;
      rest <- filterM p l' ;;
      ret (if b then a :: rest else rest)
  end.

Fixpoint mapA {A B : Type} (f : A -> M B) (l : list A) : M (list B) :=
  match l with
  | [] => ret []
  | a :: l' =>
      b <- f a ;;
      rest <- mapA f l' ;;
      ret (b :: rest)
  end.

(** [getAllAddOns()] *)
Definition getAllAddOns : M (list AddOn) :=
  let addOnsBase := templates ++ "/add-ons" in
  entries <- readdirSync addOnsBase ;;
  dirs <- filterM (fun file => isDirectory (resolve [addOnsBase; file]))
            entries ;;
  mapA (fun dir =>
          let filePath := resolve [addOnsBase; dir; "info.json"] in
          fileContent <- readFile filePath ;;
          hasPackage <-
            existsSync (resolve [addOnsBase; dir; "package.json"]) ;;
          packageAdditions <-
            (if hasPackage
             then readJSON (resolve [addOnsBase; dir; "package.json"])
             else ret (VObj [])) ;;
          hasReadme <- existsSync (resolve [addOnsBase; dir; "README.md"]) ;;
          readme <-
            (if hasReadme
             then text <- readFile (resolve [addOnsBase; dir; "README.md"]) ;;
                  ret (Some text)
             else ret None) ;;
          info <- lift (JSON_parse fileContent) ;;
          ret (describe dir info (resolve [addOnsBase; dir])
                 packageAdditions readme))
       dirs.

(** [pickAddOns(addOns)].  The prompt is drawn on the terminal and its
    answer awaited.  The answer is only used inside the callback of
    [filter], which runs once per add-on: the cancel symbol has no
    [includes] method, and the first call throws. *)
Definition pickAddOns (addOns : list AddOn) : M (list AddOn) :=
  let options :=
    map (fun addOn =>
           mkSelectOption (id addOn) (name addOn) (description addOn))
      addOns in
  emit (Prompt "Select add-ons:" options) ;;
  additionalTools <- lift (multiselect "Select add-ons:" options) ;;
  match additionalTools with
  | Selected additionalTools =>
      ret (filter (fun addOn =>
                     existsb (fun tool => tool =? id addOn) additionalTools)
             addOns)
  | Cancelled =>
      match addOns with
      | [] => ret []
      | _ :: _ =>
          throw (TypeError "additionalTools.includes is not a function")
      end
  end.

(** *** [createApp] *)

(** The asset tree of an add-on, when it has one, is composed into the
    target directory. *)
Definition composeAssets (targetDir : string)
  (templateFile : string -> string -> option string -> M unit)
  (addOn : AddOn) : M unit :=
  let addOnDir := resolve [directory addOn; "assets"] in
  present <- existsSync addOnDir ;;
  if present
  then copyFilesRecursively stack_depth addOnDir targetDir copyFile
         (fun file targetFileName => templateFile addOnDir file targetFileName)
  else ret tt.

(** The command of an add-on, when it has one, runs in the target
    directory. *)
Definition postCommand (targetDir : string) (addOn : AddOn) : M unit :=
  match command addOn with
  | Some c =>
      exec (command_name c)
        (match command_args c with Some a => a | None => [] end)
        targetDir
  | None => ret tt
  end.

(** The body of the loop over the add-ons of a phase. *)
Definition setUpAddOn (targetDir : string)
  (templateFile : string -> string -> option string -> M unit)
  (addOn : AddOn) : M unit :=
  emit (SpinnerStart ("Setting up " ++ name addOn ++ "...")) ;;
  composeAssets targetDir templateFile addOn ;;
  postCommand targetDir addOn ;;
  emit (SpinnerStop (name addOn ++ " setup complete")).

(** The loop that composes the asset trees of the chosen add-ons and runs
    their commands, phase by phase. *)
Definition composeAddOns (targetDir : string) (chosen : list AddOn)
  (templateFile : string -> string -> option string -> M unit) : M unit :=
  forEach ["setup"; "add-on"] (fun phase' =>
    forEach (filter (fun addOn => phase addOn =? phase') chosen)
      (setUpAddOn targetDir templateFile)).

(** [if (options.addOns) options.chosenAddOns = await pickAddOns(await
    getAllAddOns())]: the options as they are after the statement. *)
Definition chooseAddOns (options : Options) : M Options :=
  if addOns options
  then all <- getAllAddOns ;;
       chosen <- pickAddOns all ;;
       ret (set_chosenAddOns options chosen)
  else ret options.

(** The elements of a [Set] filled with the strings of [l], in the order
    of their first occurrence. *)
Fixpoint distinct (seen l : list string) : list string :=
  match l with
  | [] => []
  | x :: l' =>
      if existsb (fun y => y =? x) seen then distinct seen l'
      else x :: distinct (x :: seen) l'
  end.

(** *** Calls that are not awaited *)

(** A statement of an [async] function: an operation that is awaited, a
    call that returns at once, or an [async] call whose promise is
    dropped, the steps of which run on their own from then on. *)
Inductive statement :=
| Await (operation : M unit)
| Call (operation : M unit)
| Start (job : list (M unit)).

(** The job [i] completes its next step, when it has one left. *)
Fixpoint advance (jobs : list (list (M unit))) (i : nat)
  : M (list (list (M unit))) :=
  match jobs with
  | [] => ret []
  | job :: jobs' =>
      match i with
      | O =>
          match job with
          | [] => ret (job :: jobs')
          | step :: steps => step ;; ret (steps :: jobs')
          end
      | S i' =>
          jobs' <- advance jobs' i' ;;
          ret (job :: jobs')
      end
  end.

Fixpoint settle (jobs : list (list (M unit))) (order : list nat)
  : M (list (list (M unit))) :=
  match order with
  | [] => ret jobs
  | i :: order' =>
      jobs <- advance jobs i ;;
      settle jobs order'
  end.

(** The statements run in order.  While an awaited operation is pending,
    the jobs that were started complete the steps the event loop gives
    them, which [turns] tells for the [n]-th awaited operation; the model
    lets them complete once the operation has.  A step that throws is a
    rejection that nothing handles: it ends the process, and with it the
    run.  When the statements are through, the process stays until the
    jobs are. *)
Fixpoint run (n : nat) (jobs : list (list (M unit)))
  (statements : list statement) : M unit :=
  match statements with
  | [] =>
      jobs <- settle jobs (turns n) ;;
      forEach jobs (fun job => forEach job (fun step => step))
  | Await operation :: statements' =>
      operation ;;
      jobs <- settle jobs (turns n) ;;
      run (S n) jobs statements'
  | Call operation :: statements' =>
      operation ;;
      run n jobs statements'
  | Start job :: statements' =>
      run n (jobs ++ [job]) statements'
  end.

(** The steps of [copyFiles(templateDir, files)], one copy each. *)
Definition copies (targetDir templateDir : string) (files : list string)
  : list (M unit) :=
  map (fun file =>
         copyFile (resolve [templateDir; file])
           (resolve [targetDir; JsString.replace ".tw" "" file]))
    files.

(** What [createApp] does once the target directory is known to be free.
    The two calls of [copyFiles] that the source does not await are
    started and left to run on their own. *)
Definition scaffold (projectName : string) (options : Options)
  (templateDirBase templateDirRouter targetDir : string) : M unit :=
  let copyFiles := createCopyFiles targetDir in
  options <- chooseAddOns options ;;
  let templateFile := createTemplateFile projectName options targetDir in
  let isAddOnEnabled := fun i =>
    existsb (fun a => id a =? i) (chosenAddOns options) in
  let shadcn :=
    distinct []
      (flat_map (fun addOn =>
                   match shadcnComponents addOn with
                   | Some l => l
                   | None => []
                   end) (chosenAddOns options)) in
  let warnings :=
    flat_map (fun addOn =>
                match warning addOn with
                | Some text => if text =? "" then [] else [text]
                | None => []
                end) (chosenAddOns options) in
  run 0 []
    ([Call (emit (Intro ("Creating a new TanStack app in " ++ targetDir
                         ++ "...")));
      Await (mkdir targetDir);
      Await (mkdir (resolve [targetDir; ".vscode"]));
      Await (copyFile (resolve [templateDirBase; ".vscode/settings.json"])
               (resolve [targetDir; ".vscode/settings.json"]));
      Await (mkdir (resolve [targetDir; "public"]));
      Start (copies targetDir templateDirBase
               ["./public/robots.txt"; "./public/favicon.ico";
                "./public/manifest.json"; "./public/logo192.png";
                "./public/logo512.png"]);
      Await (mkdir (resolve [targetDir; "src"]))]
     ++ (if is_FILE_ROUTER (mode options)
         then [Await (mkdir (resolve [targetDir; "src/routes"]));
               Await (mkdir (resolve [targetDir; "src/components"]))]
         else [])
     ++ (if negb (tailwind options)
         then [Await (copyFiles templateDirBase ["./src/App.css"])]
         else [])
     ++ [Await (templateFile templateDirBase "./vite.config.js.ejs" None);
         Await (templateFile templateDirBase "./src/styles.css.ejs" None);
         Start (copies targetDir templateDirBase ["./src/logo.svg"])]
     ++ (if is_FILE_ROUTER (mode options)
         then [Await (templateFile templateDirRouter
                        "./src/components/Header.tsx.ejs"
                        (Some "./src/components/Header.tsx"));
               Await (templateFile templateDirRouter
                        "./src/routes/__root.tsx.ejs"
                        (Some "./src/routes/__root.tsx"));
               Await (templateFile templateDirBase "./src/App.tsx.ejs"
                        (Some "./src/routes/index.tsx"))]
         else [Await (templateFile templateDirBase "./src/App.tsx.ejs"
                        (if typescript options then None
                         else Some "./src/App.jsx"));
               Await (templateFile templateDirBase "./src/App.test.tsx.ejs"
                        (if typescript options then None
                         else Some "./src/App.test.jsx"))])
     ++ (if negb (isAddOnEnabled "start")
         then [Await (templateFile templateDirRouter "./src/main.tsx.ejs"
                        (if typescript options then None
                         else Some "./src/main.jsx"));
               Await (templateFile templateDirBase
                        "./src/reportWebVitals.ts.ejs"
                        (if typescript options then None
                         else Some "./src/reportWebVitals.js"));
               Await (templateFile templateDirBase "./index.html.ejs" None)]
         else [])
     ++ (if typescript options
         then [Await (templateFile templateDirBase "./tsconfig.json.ejs"
                        (Some "./tsconfig.json"))]
         else [])
     ++ [Await (createPackageJSON projectName options templateDirBase
                  templateDirRouter targetDir
                  (map packageAdditions (chosenAddOns options)));
         Await (composeAddOns targetDir (chosenAddOns options) templateFile)]
     ++ (if isAddOnEnabled "shadcn"
         then match shadcn with
              | [] => []
              | _ :: _ =>
                  [Call (emit (SpinnerStart
                                 ("Installing shadcn components ("
                                  ++ JsString.join ", " shadcn ++ ")...")));
                   Await (exec "npx" ("shadcn@canary" :: "add" :: shadcn)
                            targetDir);
                   Call (emit (SpinnerStop "Installed shadcn components"))]
              end
         else [])
     ++ [Await (copyFile (resolve [templateDirBase; "gitignore"])
                  (resolve [targetDir; ".gitignore"]));
         Await (templateFile templateDirBase "README.md.ejs" None);
         Call (emit (SpinnerStart ("Installing dependencies via "
                                   ++ packageManager options ++ "...")));
         Await (exec (packageManager options) ["install"] targetDir);
         Call (emit (SpinnerStop "Installed dependencies"))]
     ++ (match warnings with
         | [] => []
         | _ :: _ => [Call (emit (LogWarn (JsString.join newline warnings)))]
         end)
     ++ [Call (emit
                 (Outro ("Created your new TanStack app in " ++ targetDir
                         ++ "." ++ newline ++ newline
                         ++ "Use the following commands to start your app:"
                         ++ newline ++ newline
                         ++ "% cd " ++ projectName ++ newline
                         ++ "% " ++ packageManager options ++ " "
                         ++ (if isAddOnEnabled "start" then "dev"
                             else "start")
                         ++ newline ++ newline
                         ++ "Please read README.md for more information "
                         ++ "on testing, styling, adding routes, "
                         ++ "react-query, etc."
                         ++ newline)))])%list.

(** [createApp(projectName, options)] *)
Definition createApp (projectName : string) (options : Options) : M unit :=
  let templateDirBase := templates ++ "/base" in
  let templateDirRouter := templates ++ "/" ++ Mode_name (mode options) in
  let targetDir := resolve [cwd; projectName] in
  taken <- existsSync targetDir ;;
  if taken
  then emit (LogError ("Directory " ++ dquote ++ projectName ++ dquote
                       ++ " already exists"))
  else scaffold projectName options templateDirBase templateDirRouter
         targetDir.

(** *** The command line *)

Inductive Template :=
| template_typescript
| template_javascript
| template_file_router.

Definition is_file_router (t : Template) : bool :=
  match t with template_file_router => true | _ => false end.

(** The options commander hands to the action callback. *)
Record CliOptions := mkCliOptions {
  cli_template : Template;
  cli_tailwind : bool;
  cli_packageManager : string;
  cli_addOns : bool
}.

(** The options object the action callback builds for [createApp], or the
    error it throws before. *)
Definition action_options (options : CliOptions) : result Options :=
  match
    (if cli_addOns options
     then if negb (is_file_router (cli_template options))
          then Err (InvalidArgumentError
                      "Add-ons are only available for the file-router template")
          else Ok (mkCliOptions (cli_template options) true
                     (cli_packageManager options) (cli_addOns options))
     else Ok options)
  with
  | Err e => Err e
  | Ok options =>
      let typescript :=
        match cli_template options with
        | template_typescript | template_file_router => true
        | template_javascript => false
        end in
      Ok (mkOptions typescript (cli_tailwind options)
            (cli_packageManager options)
            (if is_file_router (cli_template options)
             then FILE_ROUTER else CODE_ROUTER)
            (cli_addOns options) [])
  end.

(** The action callback of the program. *)
Definition action (projectName : string) (options : CliOptions) : M unit :=
  options <- lift (action_options options) ;;
  createApp projectName options.

End Program.

(** * Vocabulary of the properties *)

(** ** Manifests *)

(** A later binding, when there is one, hides the earlier one. *)
Definition override (later earlier : option value) : option value :=
  match later with Some x => Some x | None => earlier end.

(** The list stands for an object: no key is bound twice. *)
Definition well_formed (v : value) : Prop := NoDup (keys (own v)).

(** The binding of [k] in the section [s] of a manifest. *)
Definition section (packageJSON : obj) (s k : string) : option value :=
  lookup (own (prop packageJSON s)) k.

(** The binding of [k] after the [writers] have been merged in order upon
    [found]: that of the last writer that binds [k]. *)
Definition last_writer_from (found : option value) (k : string)
  (writers : list value) : option value :=
  fold_left (fun found w => override (lookup (own w) k) found) writers found.

Definition last_writer (k : string) (writers : list value) : option value :=
  last_writer_from None k writers.

(** The fragments that write each section of the manifest, in merge
    order, as [createPackageJSON] has them. *)
Definition dependencies_writers (options : Options) (base tw fr : obj)
  (addOns : list obj) : list value :=
  (prop base "dependencies"
   :: (if tailwind options then [prop tw "dependencies"] else [])
   ++ (if is_FILE_ROUTER (mode options) then [prop fr "dependencies"] else [])
   ++ map (fun addOn => prop addOn "dependencies") addOns)%list.

Definition devDependencies_writers (options : Options) (base ts : obj)
  (addOns : list obj) : list value :=
  (prop base "devDependencies"
   :: (if typescript options then [prop ts "devDependencies"] else [])
   ++ map (fun addOn => prop addOn "devDependencies") addOns)%list.

Definition scripts_writers (base : obj) (addOns : list obj) : list value :=
  prop base "scripts" :: map (fun addOn => prop addOn "scripts") addOns.

(** The fragments in the merge order of the specification, every one of
    them writing the section [s]. *)
Definition stated_writers (s : string) (options : Options)
  (base ts tw fr : obj) (addOns : list obj) : list value :=
  (prop base s
   :: (if typescript options then [prop ts s] else [])
   ++ (if tailwind options then [prop tw s] else [])
   ++ (if is_FILE_ROUTER (mode options) then [prop fr s] else [])
   ++ map (fun addOn => prop addOn s) addOns)%list.

(** Last-writer-wins as the specification states it: in each of the
    three sections, every key ends with the value of the last fragment
    of the merge order that has it. *)
Definition last_writer_wins_as_stated (projectName : string)
  (options : Options) (base ts tw fr : obj) (addOns : list obj) : Prop :=
  forall final,
    mergePackageJSON projectName options base ts tw fr addOns = Ok final ->
    forall s, In s ["dependencies"; "devDependencies"; "scripts"] ->
    forall k,
      section final s k
      = last_writer k (stated_writers s options base ts tw fr addOns).

(** The keys of the [writers] in the order in which the merge meets them
    first. *)
Definition insertion_order (writers : list value) : list string :=
  distinct [] (flat_map (fun w => keys (own w)) writers).

(** The keys are in strictly ascending order of their code units. *)
Fixpoint lexicographic (l : list string) : bool :=
  match l with
  | [] => true
  | k :: l' =>
      match l' with
      | [] => true
      | k' :: _ => (k <? k') && lexicographic l'
      end
  end.

(** A record of strings, as a manifest section is. *)
Definition strings (l : list (string * string)) : value :=
  VObj (map (fun kv => (fst kv, VStr (snd kv))) l).

Definition sections : list string :=
  ["dependencies"; "devDependencies"; "scripts"].

(** A manifest under construction: an object whose three sections are
    objects too. *)
Definition manifest_ok (packageJSON : obj) : Prop :=
  NoDup (keys packageJSON)
  /\ forall s, In s sections -> well_formed (prop packageJSON s).

(** The manifest of [createPackageJSON] as it stands after the loop over
    the add-ons, before its dependencies are sorted. *)
Definition unsorted_manifest (projectName : string) (options : Options)
  (base ts tw fr : obj) (addOns : list obj) : obj :=
  let packageJSON := assign base "name" (VStr projectName) in
  let packageJSON :=
    if typescript options
    then merge_section "devDependencies" packageJSON ts
    else packageJSON in
  let packageJSON :=
    if tailwind options
    then merge_section "dependencies" packageJSON tw
    else packageJSON in
  let packageJSON :=
    if is_FILE_ROUTER (mode options)
    then merge_section "dependencies" packageJSON fr
    else packageJSON in
  fold_left merge_addOn addOns packageJSON.

(** Neither [undefined] nor [null]. *)
Definition defined (v : value) : bool :=
  match v with VUndefined | VNull => false | _ => true end.

(** No string occurs twice. *)
Fixpoint distinctb (l : list string) : bool :=
  match l with
  | [] => true
  | x :: l' => negb (existsb (String.eqb x) l') && distinctb l'
  end.

(** ** Composition order *)

Definition in_phase (p : string) (addOn : AddOn) : bool := phase addOn =? p.

(** The add-ons in the order in which the loop of [createApp] takes them:
    those of the setup phase, then those of the add-on phase. *)
Definition schedule (chosen : list AddOn) : list AddOn :=
  (filter (in_phase "setup") chosen ++ filter (in_phase "add-on") chosen)%list.

(** [a] comes before [b] in [l]. *)
Definition before {A : Type} (a b : A) (l : list A) : Prop :=
  exists l1 l2 l3, l = (l1 ++ a :: l2 ++ b :: l3)%list.

(** ** The file composers *)

(** The targets that are formatted. *)
Definition formatted_target (target : string) : bool :=
  JsString.endsWith target ".ts" || JsString.endsWith target ".tsx".

(** The error says [text] somewhere. *)
Definition mentions (e : error) (text : string) : bool :=
  match e with
  | InvalidArgumentError m | TypeError m => JsString.includes m text
  | SystemError c p => JsString.includes c text || JsString.includes p text
  | ExternalError o m => JsString.includes o text || JsString.includes m text
  end.

Definition last_char (s : string) : option ascii :=
  match rev (list_ascii_of_string s) with
  | [] => None
  | c :: _ => Some c
  end.

Section Stated.

Context {E : Externals}.

(** The render error of the specification: a run of the template
    function that fails names the file, the template or its target. *)
Definition render_error_names_file (projectName : string)
  (options : Options) (targetDir templateDir file : string)
  (targetFileName : option string) (w : world) : Prop :=
  forall e w',
    createTemplateFile projectName options targetDir templateDir file
      targetFileName w = (Err e, w') ->
    let target := match targetFileName with
                  | Some t => t
                  | None => JsString.replace ".ejs" "" file
                  end in
    mentions e file = true \/ mentions e target = true
    \/ mentions e (resolve [templateDir; file]) = true
    \/ mentions e (resolve [targetDir; target]) = true.

(** The append rule of the specification: composing an append-rule file
    whose target is missing raises an error and leaves the target
    missing. *)
Definition missing_append_target_rejected (depth : nat)
  (source target : string) (w : world) : Prop :=
  exists e w',
    copyFilesRecursively depth source target copyFile
      (fun _ _ => ret tt) w = (Err e, w')
    /\ Fs.stat (fs w') (JsString.replace ".append" "" target) = None.

(** The manifest file a variant contributes when its option is on, as
    the object whose sections are merged. *)
Definition loaded (enabled : bool) (path : string) (fragment : obj)
  (w : world) : Prop :=
  if enabled
  then exists v, readJSON path w = (Ok v, w) /\ fragment_of v = Ok fragment
  else fragment = [].

End Stated.

(** ** Sample inputs *)

Module Sample.

Definition options : Options :=
  mkOptions true true "npm" FILE_ROUTER true [].

Definition base : obj :=
  [("name", VStr "template");
   ("version", VStr "0.0.0");
   ("scripts", strings [("dev", "vite"); ("build", "vite build")]);
   ("dependencies", strings [("react", "^19.0.0"); ("react-dom", "^19.0.0")]);
   ("devDependencies", strings [("vite", "^6.1.0")])].

Definition ts : obj :=
  [("dependencies", strings [("react", "^18.0.0")]);
   ("devDependencies",
    strings [("typescript", "^5.7.2"); ("vite", "^6.0.0")])].

Definition tw : obj :=
  [("dependencies", strings [("tailwindcss", "^4.0.6")])].

Definition fr : obj :=
  [("dependencies", strings [("@tanstack/router-plugin", "^1.114.3")])].

Definition addOn : obj :=
  [("dependencies", strings [("react", "^19.1.0"); ("zod", "^3.24.2")]);
   ("scripts", strings [("dev", "vinxi dev")])].

(** A typed code-router run without add-ons. *)
Definition plain : Options :=
  mkOptions true false "npm" CODE_ROUTER false [].

(** A manifest whose dependencies are named by numbers. *)
Definition numbered : obj :=
  [("name", VStr "template");
   ("scripts", strings [("build", "vite build")]);
   ("dependencies", strings [("9", "1.0.0"); ("10", "1.0.0")]);
   ("devDependencies", strings [])].

Definition numbered_addOn : obj :=
  [("scripts", strings [("1", "echo one")])].

(** A manifest with a dependency named [__proto__]. *)
Definition proto : obj :=
  [("name", VStr "template");
   ("dependencies", strings [("__proto__", "1.0.0")]);
   ("devDependencies", strings [])].

(** Collaborators that do nothing remarkable: the templates render as
    themselves, the formatter marks what it formats, the prompt picks no
    add-on and the child processes leave the files alone. *)
Definition externals : Externals := {|
  cwd := "/home/user";
  templates := "/pkg/templates";
  JSON_parse := fun _ => Ok (VObj base);
  JSON_stringify := fun _ => "{}";
  render := fun template _ => Ok template;
  format := fun content _ => Ok ("formatted " ++ content);
  multiselect := fun _ _ => Ok (Selected []);
  execa := fun _ _ _ f => Ok f;
  stack_depth := 64;
  turns := fun _ => []
|}.

(** The same, with a formatter that rejects what it is given. *)
Definition strict : Externals := {|
  cwd := "/home/user";
  templates := "/pkg/templates";
  JSON_parse := fun _ => Ok (VObj base);
  JSON_stringify := fun _ => "{}";
  render := fun template _ => Ok template;
  format := fun _ _ =>
    Err (ExternalError "prettier" "SyntaxError: Unexpected token (1:7)");
  multiselect := fun _ _ => Ok (Selected []);
  execa := fun _ _ _ f => Ok f;
  stack_depth := 64;
  turns := fun _ => []
|}.

(** A machine with the template of the application component, the
    asset tree of an add-on and an empty project directory. *)
Definition machine : world :=
  mkWorld
    [("/pkg", Dir); ("/pkg/templates", Dir); ("/pkg/templates/base", Dir);
     ("/pkg/templates/base/src", Dir);
     ("/pkg/templates/base/src/App.tsx.ejs", File "const a = ;");
     ("/pkg/templates/base/README.md.ejs", File "# Welcome");
     ("/pkg/templates/add-ons", Dir);
     ("/pkg/templates/add-ons/start", Dir);
     ("/pkg/templates/add-ons/start/assets", Dir);
     ("/pkg/templates/add-ons/start/assets/README.md.append",
      File "## Start");
     ("/home", Dir); ("/home/user", Dir); ("/home/user/demo", Dir)]
    [].

Definition cli : CliOptions :=
  mkCliOptions template_typescript false "npm" true.

Definition setup_addOn : AddOn :=
  mkAddOn "start" "Start" "" "" VUndefined VUndefined (VArr []) VUndefined
    "/pkg/templates/add-ons/start" (VObj []) None None "setup" None None.

Definition feature_addOn : AddOn :=
  mkAddOn "form" "Form" "" "" VUndefined VUndefined (VArr []) VUndefined
    "/pkg/templates/add-ons/form" (VObj []) None None "add-on" None None.

End Sample.

(** ** Effects *)

(** The computation leaves the world as it finds it, whether it returns
    or throws. *)
Definition read_only {A : Type} (m : M A) : Prop :=
  forall w, snd (m w) = w.

(** The computation removes no entry and turns no directory into a file
    nor a file into a directory. *)
Definition keeps_entries {A : Type} (m : M A) : Prop :=
  forall w p e,
    Fs.entry_at (fs w) p = Some e ->
    exists e',
      Fs.entry_at (fs (snd (m w))) p = Some e'
      /\ is_directory e' = is_directory e.

(** The computation changes no entry but that of the path [p], and shows
    nothing. *)
Definition touches_only {A : Type} (p : string) (m : M A) : Prop :=
  forall w,
    trace (snd (m w)) = trace w
    /\ forall q, q <> p ->
         Fs.entry_at (fs (snd (m w))) q = Fs.entry_at (fs w) q.

(** The phases the loop of [createApp] knows. *)
Definition known_phase (addOn : AddOn) : bool :=
  in_phase "setup" addOn || in_phase "add-on" addOn.

(** At least one element. *)
Definition nonempty {A : Type} (l : list A) : bool :=
  match l with [] => false | _ => true end.

(** ** More sample inputs *)

Module Bench.

(** A machine with the manifests of the base template, a catalog of two
    add-ons and a home directory. *)
Definition machine : world :=
  mkWorld
    [("/pkg", Dir); ("/pkg/templates", Dir); ("/pkg/templates/base", Dir);
     ("/pkg/templates/base/package.json", File "{ base }");
     ("/pkg/templates/base/package.ts.json", File "{ typed }");
     ("/pkg/templates/base/logo.tw.svg", File "<svg/>");
     ("/pkg/templates/add-ons", Dir);
     ("/pkg/templates/add-ons/form", Dir);
     ("/pkg/templates/add-ons/form/info.json", File "{ form }");
     ("/pkg/templates/add-ons/start", Dir);
     ("/pkg/templates/add-ons/start/info.json", File "{ start }");
     ("/pkg/templates/add-ons/start/assets", Dir);
     ("/pkg/templates/add-ons/start/assets/README.md.append",
      File "## Start");
     ("/pkg/templates/add-ons/start/assets/app.config.ts",
      File "export default {}");
     ("/pkg/templates/add-ons/start/assets/empty", Dir);
     ("/pkg/templates/add-ons/README.md", File "catalog");
     ("/home", Dir); ("/home/user", Dir); ("/home/user/demo", Dir);
     ("/home/user/demo/README.md", File "# Demo")]
    [].

(** Collaborators whose JSON codec reads the three texts of the machine
    and whose prompt picks the add-ons [start] and [form], in that
    order. *)
Definition externals : Externals := {|
  cwd := "/home/user";
  templates := "/pkg/templates";
  JSON_parse := fun text =>
    if text =? "{ base }" then Ok (VObj Sample.base)
    else if text =? "{ typed }" then Ok (VObj Sample.ts)
    else if text =? "{ form }"
         then Ok (VObj [("name", VStr "Form"); ("phase", VStr "add-on")])
    else if text =? "{ start }"
         then Ok (VObj [("id", VStr "tanstack-start");
                        ("name", VStr "Start"); ("phase", VStr "setup")])
    else Err (ExternalError "JSON.parse" "SyntaxError");
  JSON_stringify := fun _ => "{}";
  render := fun template _ => Ok template;
  format := fun content _ => Ok ("formatted " ++ content);
  multiselect := fun _ _ => Ok (Selected ["tanstack-start"; "form"]);
  execa := fun _ _ _ f => Ok f;
  stack_depth := 64;
  turns := fun _ => []
|}.

(** A prompt that is cancelled. *)
Definition cancelled : Externals := {|
  cwd := "/home/user";
  templates := "/pkg/templates";
  JSON_parse := fun _ => Ok (VObj []);
  JSON_stringify := fun _ => "{}";
  render := fun template _ => Ok template;
  format := fun content _ => Ok content;
  multiselect := fun _ _ => Ok Cancelled;
  execa := fun _ _ _ f => Ok f;
  stack_depth := 64;
  turns := fun _ => []
|}.

Definition typed_options : Options :=
  mkOptions true false "npm" CODE_ROUTER false [].

Definition odd_addOn : AddOn :=
  mkAddOn "odd" "Odd" "" "" VUndefined VUndefined (VArr []) VUndefined
    "/pkg/templates/add-ons/odd" (VObj []) None None "post" None None.

Definition form : AddOn :=
  mkAddOn "form" "Form" "" "" VUndefined VUndefined VUndefined VUndefined
    "/pkg/templates/add-ons/form" (VObj []) None None "add-on" None None.

Definition start : AddOn :=
  mkAddOn "tanstack-start" "Start" "" "" VUndefined VUndefined VUndefined
    VUndefined "/pkg/templates/add-ons/start" (VObj []) None None "setup"
    None None.

(** Collaborators whose child processes leave a log in their working
    directory, of their arguments and of the [README.md] they find
    there, and whose prompt answers as that of [externals]. *)
Definition installer : Externals := {|
  cwd := "/home/user";
  templates := "/pkg/templates";
  JSON_parse := fun _ => Ok (VObj []);
  JSON_stringify := fun _ => "{}";
  render := fun template _ => Ok template;
  format := fun content _ => Ok ("formatted " ++ content);
  multiselect := fun _ _ => Ok (Selected ["tanstack-start"; "form"]);
  execa := fun file args dir f =>
    Ok (Fs.set f (dir ++ "/" ++ file ++ ".log")
          (File (JsString.join " " args ++ ":"
                 ++ match Fs.stat f (dir ++ "/README.md") with
                    | Some (File c) => c
                    | _ => ""
                    end)));
  stack_depth := 64;
  turns := fun _ => []
|}.

(** The add-on [start] with a command to run once its assets are in
    place, and the add-on [form] with a command and no assets. *)
Definition start_init : AddOn :=
  mkAddOn "tanstack-start" "Start" "" "" VUndefined VUndefined VUndefined
    VUndefined "/pkg/templates/add-ons/start" (VObj [])
    (Some (mkCommand "init" (Some ["--yes"]))) None "setup" None None.

Definition form_add : AddOn :=
  mkAddOn "form" "Form" "" "" VUndefined VUndefined VUndefined VUndefined
    "/pkg/templates/add-ons/form" (VObj [])
    (Some (mkCommand "add" None)) None "add-on" None None.

(** A machine whose asset tree holds two files that carry a qualifier in
    the middle of their names, a template and an asset to append. *)
Definition mixed : world :=
  mkWorld
    [("/pkg", Dir); ("/pkg/assets", Dir);
     ("/pkg/assets/view.ejs.txt", File "a view");
     ("/pkg/assets/notes.append.md", File "some notes");
     ("/pkg/assets/page.ejs.html.ejs", File "<html/>");
     ("/pkg/assets/log.append.txt.append", File "a line");
     ("/pkg/assets/logo.tw.svg", File "<svg/>");
     ("/pkg/assets/network.twin.ts", File "export {}");
     ("/pkg/assets/blocked", File "not a directory");
     ("/home", Dir); ("/home/user", Dir); ("/home/user/demo", Dir)]
    [].

End Bench.

(** ** Effects on the files and on the terminal *)

(** The computation leaves the file system as it finds it, whether it
    returns or throws. *)
Definition keeps_files {A : Type} (m : M A) : Prop :=
  forall w, fs (snd (m w)) = fs w.

(** The computation shows nothing and starts no process. *)
Definition silent {A : Type} (m : M A) : Prop :=
  forall w, trace (snd (m w)) = trace w.

(** The world once [e] is shown. *)
Definition shows (e : event) (w : world) : world :=
  mkWorld (fs w) (trace w ++ [e])%list.

(** Every directory of [dirs] exists in [f]. *)
Definition directories (f : Fs.t) (dirs : list string) : Prop :=
  forall d, In d dirs -> Fs.find f d = Some Dir.

Section Steps.

Context {E : Externals}.

(** ** The loop over the add-ons, step by step *)

(** The arguments a command is started with. *)
Definition arguments (c : Command) : list string :=
  match command_args c with Some a => a | None => [] end.

(** The asset tree of the add-on is composed: when the add-on has an
    [assets] directory, the tree composer runs from it into the target
    directory, with the plain copy and the template function. *)
Definition composed (targetDir : string)
  (templateFile : string -> string -> option string -> M unit)
  (addOn : AddOn) (w : world) : result unit * world :=
  let assets := resolve [directory addOn; "assets"] in
  match Fs.stat (fs w) assets with
  | Some _ =>
      copyFilesRecursively stack_depth assets targetDir copyFile
        (fun file targetFileName => templateFile assets file targetFileName)
        w
  | None => (Ok tt, w)
  end.

(** The post-command of the add-on is executed: the process is started
    in the target directory, on the files as they are then, and leaves
    the files it leaves; its failure is the failure of the step. *)
Definition commanded (targetDir : string) (addOn : AddOn) (w : world)
  : result unit * world :=
  match command addOn with
  | None => (Ok tt, w)
  | Some c =>
      let started := shows (Exec (command_name c) (arguments c) targetDir) w in
      match execa (command_name c) (arguments c) targetDir (fs w) with
      | Ok f => (Ok tt, mkWorld f (trace started))
      | Err e => (Err e, started)
      end
  end.

(** An add-on is processed: its asset tree is composed, then its
    post-command is executed on what the composition left, between the
    start and the stop of the spinner; the first failure ends the step. *)
Definition processed (targetDir : string)
  (templateFile : string -> string -> option string -> M unit)
  (addOn : AddOn) (w : world) : result unit * world :=
  match composed targetDir templateFile addOn
          (shows (SpinnerStart ("Setting up " ++ name addOn ++ "...")) w) with
  | (Err e, w1) => (Err e, w1)
  | (Ok _, w1) =>
      match commanded targetDir addOn w1 with
      | (Err e, w2) => (Err e, w2)
      | (Ok _, w2) =>
          (Ok tt, shows (SpinnerStop (name addOn ++ " setup complete")) w2)
      end
  end.

(** What a step that goes through shows, when the composition itself
    shows nothing. *)
Definition shown (targetDir : string) (addOn : AddOn) : list event :=
  ([SpinnerStart ("Setting up " ++ name addOn ++ "...")]
   ++ match command addOn with
      | Some c => [Exec (command_name c) (arguments c) targetDir]
      | None => []
      end
   ++ [SpinnerStop (name addOn ++ " setup complete")])%list.

(** ** Qualifiers *)

(** The claim that the tree composer takes the qualifier out of the
    target of every file whose name has it: after the composer has run
    on the file [file] of [source], into [target], the file is found
    under its name without the first occurrence of the qualifier. *)
Definition stripped_as_stated (qualifier source target file : string)
  (w : world) : Prop :=
  JsString.includes file qualifier = true ->
  forall templateFile w',
    copyFilesRecursively stack_depth (resolve [source; file])
      (resolve [target; file]) copyFile templateFile w = (Ok tt, w') ->
    exists text,
      Fs.get_file (fs w')
        (resolve [target; JsString.replace qualifier "" file]) = Ok text.

(** The text a template is written with: the rendered text, formatted
    when the target is a TypeScript file. *)
Definition written (target content text : string) : Prop :=
  if formatted_target target
  then format content prettierOptions = Ok text
  else text = content.

(** ** The catalog *)

(** The add-on [addOn] is what the loader makes of the directory [dir]
    of the add-ons directory: its descriptor is the parsed [info.json],
    over which the directory, the package additions and the readme the
    loader found are laid; the package additions are the parsed
    [package.json] when there is one and the empty object otherwise, and
    the readme is the text of [README.md] when there is one. *)
Definition loaded_from (w : world) (dir : string) (addOn : AddOn) : Prop :=
  let addOnsBase := templates ++ "/add-ons" in
  (exists text info,
     Fs.get_file (fs w) (resolve [addOnsBase; dir; "info.json"]) = Ok text
     /\ JSON_parse text = Ok info
     /\ addOn = describe dir info (resolve [addOnsBase; dir])
                  (packageAdditions addOn) (readme addOn))
  /\ match Fs.stat (fs w) (resolve [addOnsBase; dir; "package.json"]) with
     | Some _ =>
         exists text,
           Fs.get_file (fs w) (resolve [addOnsBase; dir; "package.json"])
           = Ok text
           /\ JSON_parse text = Ok (packageAdditions addOn)
     | None => packageAdditions addOn = VObj []
     end
  /\ match Fs.stat (fs w) (resolve [addOnsBase; dir; "README.md"]) with
     | Some _ =>
         exists text,
           Fs.get_file (fs w) (resolve [addOnsBase; dir; "README.md"])
           = Ok text
           /\ readme addOn = Some text
     | None => readme addOn = None
     end.

(** The sub-directories of the add-ons directory, in the order of its
    listing. *)
Definition addOn_directories (w : world) : list string :=
  filter
    (fun file =>
       match Fs.stat (fs w) (resolve [templates ++ "/add-ons"; file]) with
       | Some Dir => true
       | _ => false
       end)
    (Fs.children (fs w) (Fs.canon (templates ++ "/add-ons"))).

(** The options the prompt offers for a catalog. *)
Definition offered (catalog : list AddOn) : list SelectOption :=
  map (fun addOn => mkSelectOption (id addOn) (name addOn) (description addOn))
    catalog.

End Steps.

(** * Properties *)

(** ** Plain objects *)

Section ObjectFacts.

Implicit Types (o t : obj) (k : string) (v : value).

Lemma has_true_iff o k : has o k = true <-> In k (keys o).
Proof.
  unfold has. induction o as [|[k' v'] o IH]; simpl.
  - split; [discriminate | tauto].
  - destruct (String.eqb_spec k' k) as [->|Hne].
    + split; auto.
    + rewrite IH. split; [auto | intros [H|H]; [contradiction | exact H]].
Qed.

Lemma lookup_None_iff o k : lookup o k = None <-> ~ In k (keys o).
Proof.
  rewrite <- has_true_iff. unfold has.
  destruct (lookup o k); split; intros H.
  - discriminate H.
  - exfalso. apply H. reflexivity.
  - discriminate.
  - reflexivity.
Qed.

Lemma keys_update o k v : keys (update o k v) = keys o.
Proof.
  induction o as [|[k' v'] o IH]; simpl; [reflexivity|].
  destruct (k' =? k); simpl; [reflexivity | now rewrite IH].
Qed.

Lemma lookup_update o k v k' :
  lookup (update o k v) k' =
  if (k =? k') && has o k then Some v else lookup o k'.
Proof.
  unfold has. induction o as [|[k1 v1] o IH]; simpl.
  - now rewrite andb_false_r.
  - destruct (String.eqb_spec k1 k) as [->|Hne]; simpl.
    + destruct (String.eqb_spec k k') as [->|Hne']; simpl;
        [reflexivity | reflexivity].
    + rewrite IH. destruct (String.eqb_spec k1 k') as [->|Hne'].
      * destruct (String.eqb_spec k k') as [E|_]; [congruence | reflexivity].
      * reflexivity.
Qed.

Lemma lookup_insert_new o k v k' :
  has o k = false ->
  lookup (insert_new o k v) k' = if k =? k' then Some v else lookup o k'.
Proof.
  unfold has. induction o as [|[k1 v1] o IH]; simpl; intros H.
  - destruct (k =? k'); reflexivity.
  - destruct (String.eqb_spec k1 k) as [->|Hne]; [discriminate H|].
    destruct (precedes k k1); simpl; [reflexivity|].
    rewrite (IH H).
    destruct (String.eqb_spec k1 k') as [->|Hne1]; [|reflexivity].
    now rewrite (proj2 (String.eqb_neq k k')) by congruence.
Qed.

(** Defining a property sets that property and no other. *)
Lemma lookup_define o k v k' :
  lookup (define o k v) k' = if k =? k' then Some v else lookup o k'.
Proof.
  unfold define. destruct (has o k) eqn:H.
  - rewrite lookup_update, H, andb_true_r. reflexivity.
  - now rewrite lookup_insert_new.
Qed.

Lemma prop_define_same o k v : prop (define o k v) k = v.
Proof. unfold prop. now rewrite lookup_define, String.eqb_refl. Qed.

Lemma prop_define_other o k v k' :
  k <> k' -> prop (define o k v) k' = prop o k'.
Proof.
  intros H. unfold prop. rewrite lookup_define.
  now rewrite (proj2 (String.eqb_neq k k')).
Qed.

Lemma keys_insert_new o k v :
  Permutation (keys (insert_new o k v)) (k :: keys o).
Proof.
  induction o as [|[k1 v1] o IH]; simpl; [reflexivity|].
  destruct (precedes k k1); simpl; [reflexivity|].
  rewrite IH. apply perm_swap.
Qed.

Lemma NoDup_define o k v : NoDup (keys o) -> NoDup (keys (define o k v)).
Proof.
  intros H. unfold define. destruct (has o k) eqn:Hk.
  - now rewrite keys_update.
  - apply (Permutation_NoDup (l := k :: keys o)).
    + symmetry. apply keys_insert_new.
    + constructor; [|exact H]. rewrite <- has_true_iff, Hk. discriminate.
Qed.

Lemma lookup_assign_other o k v k' :
  k <> k' -> lookup (assign o k v) k' = lookup o k'.
Proof.
  intros H. unfold assign.
  destruct ((k =? "__proto__") && negb (has o k)); [reflexivity|].
  rewrite lookup_define. now rewrite (proj2 (String.eqb_neq k k')).
Qed.

Lemma lookup_assign_same o k v :
  k <> "__proto__" -> lookup (assign o k v) k = Some v.
Proof.
  intros H. unfold assign. rewrite (proj2 (String.eqb_neq _ _) H). simpl.
  now rewrite lookup_define, String.eqb_refl.
Qed.

Lemma NoDup_assign o k v : NoDup (keys o) -> NoDup (keys (assign o k v)).
Proof.
  intros H. unfold assign.
  destruct ((k =? "__proto__") && negb (has o k)); [exact H|].
  now apply NoDup_define.
Qed.

Lemma lookup_fold_define (src : obj) : forall t k,
  NoDup (keys src) ->
  lookup (fold_left (fun t kv => define t (fst kv) (snd kv)) src t) k =
  override (lookup src k) (lookup t k).
Proof.
  induction src as [|[k1 v1] src IH]; intros t k Hnd; simpl; [reflexivity|].
  inversion Hnd as [|? ? Hnotin Hnd']; subst.
  rewrite IH by exact Hnd'. rewrite lookup_define. simpl.
  destruct (String.eqb_spec k1 k) as [->|Hne]; [|reflexivity].
  now rewrite (proj2 (lookup_None_iff src k) Hnotin).
Qed.

Lemma NoDup_fold_define (src : obj) : forall t,
  NoDup (keys t) ->
  NoDup (keys (fold_left (fun t kv => define t (fst kv) (snd kv)) src t)).
Proof.
  induction src as [|[k1 v1] src IH]; intros t H; simpl; [exact H|].
  apply IH. now apply NoDup_define.
Qed.

End ObjectFacts.

(** ** The manifest merger *)

Section SpreadFacts.

Implicit Types (o t : obj) (k s : string) (v a b : value).

Lemma lookup_spread t v k :
  well_formed v ->
  lookup (spread t v) k = override (lookup (own v) k) (lookup t k).
Proof. intros H. unfold spread. now apply lookup_fold_define. Qed.

Lemma NoDup_spread t v : NoDup (keys t) -> NoDup (keys (spread t v)).
Proof. intros H. unfold spread. now apply NoDup_fold_define. Qed.

Lemma well_formed_merged a b : well_formed (merged a b).
Proof.
  unfold well_formed, merged. simpl.
  apply NoDup_spread, NoDup_spread. constructor.
Qed.

Lemma lookup_merged a b k :
  well_formed a -> well_formed b ->
  lookup (own (merged a b)) k
  = override (lookup (own b) k) (lookup (own a) k).
Proof.
  intros Ha Hb. unfold merged. simpl.
  rewrite (lookup_spread _ b) by exact Hb.
  rewrite (lookup_spread _ a) by exact Ha.
  simpl. destruct (lookup (own a) k); reflexivity.
Qed.

Lemma lookup_copy o k :
  NoDup (keys o) -> lookup (spread [] (VObj o)) k = lookup o k.
Proof.
  intros H. rewrite lookup_spread by exact H. simpl.
  destruct (lookup o k); reflexivity.
Qed.

Lemma prop_copy o k : NoDup (keys o) -> prop (spread [] (VObj o)) k = prop o k.
Proof. intros H. unfold prop. now rewrite lookup_copy. Qed.

End SpreadFacts.

Section MergeFacts.

Implicit Types (packageJSON fragment addOn : obj) (k s : string).

Lemma lookup_merge_section s packageJSON fragment k :
  NoDup (keys packageJSON) ->
  lookup (merge_section s packageJSON fragment) k
  = if s =? k
    then Some (merged (prop packageJSON s) (prop fragment s))
    else lookup packageJSON k.
Proof.
  intros H. unfold merge_section. rewrite lookup_define.
  now rewrite lookup_copy.
Qed.

Lemma section_merge_section_same s packageJSON fragment k :
  NoDup (keys packageJSON) ->
  well_formed (prop packageJSON s) -> well_formed (prop fragment s) ->
  section (merge_section s packageJSON fragment) s k
  = override (lookup (own (prop fragment s)) k) (section packageJSON s k).
Proof.
  intros H Hp Hf. unfold section at 1. unfold prop at 1.
  rewrite lookup_merge_section, String.eqb_refl by exact H.
  now apply lookup_merged.
Qed.

Lemma prop_merge_section_other s s' packageJSON fragment :
  NoDup (keys packageJSON) -> s <> s' ->
  prop (merge_section s packageJSON fragment) s' = prop packageJSON s'.
Proof.
  intros H Hne. unfold prop. rewrite lookup_merge_section by exact H.
  now rewrite (proj2 (String.eqb_neq s s')).
Qed.

Lemma manifest_ok_merge_section s packageJSON fragment :
  manifest_ok packageJSON ->
  manifest_ok (merge_section s packageJSON fragment).
Proof.
  intros [Hnd Hs]. split.
  - unfold merge_section. apply NoDup_define, NoDup_spread. constructor.
  - intros s' Hin. destruct (String.eqb_spec s s') as [<-|Hne].
    + unfold prop. rewrite lookup_merge_section, String.eqb_refl by exact Hnd.
      apply well_formed_merged.
    + rewrite prop_merge_section_other by assumption. now apply Hs.
Qed.

Lemma lookup_merge_addOn packageJSON addOn k :
  NoDup (keys packageJSON) ->
  lookup (merge_addOn packageJSON addOn) k
  = if existsb (String.eqb k) sections
    then Some (merged (prop packageJSON k) (prop addOn k))
    else lookup packageJSON k.
Proof.
  intros H. unfold merge_addOn. rewrite !lookup_define, lookup_copy by exact H.
  change (existsb (String.eqb k) sections)
    with ((k =? "dependencies")
          || ((k =? "devDependencies") || ((k =? "scripts") || false))).
  rewrite (String.eqb_sym k "dependencies"),
    (String.eqb_sym k "devDependencies"), (String.eqb_sym k "scripts").
  destruct (String.eqb_spec "scripts" k) as [<-|_]; [reflexivity|].
  destruct (String.eqb_spec "devDependencies" k) as [<-|_]; [reflexivity|].
  destruct (String.eqb_spec "dependencies" k) as [<-|_]; reflexivity.
Qed.

Lemma In_sections s : In s sections <-> existsb (String.eqb s) sections = true.
Proof.
  rewrite existsb_exists. split.
  - intros H. exists s. split; [exact H | apply String.eqb_refl].
  - intros [x [Hin Heq]]. apply String.eqb_eq in Heq. now subst.
Qed.

Lemma section_merge_addOn s packageJSON addOn k :
  manifest_ok packageJSON -> In s sections ->
  well_formed (prop addOn s) ->
  section (merge_addOn packageJSON addOn) s k
  = override (lookup (own (prop addOn s)) k) (section packageJSON s k).
Proof.
  intros [Hnd Hs] Hin Hf. unfold section at 1. unfold prop at 1.
  rewrite lookup_merge_addOn by exact Hnd.
  rewrite (proj1 (In_sections s) Hin).
  apply lookup_merged; [now apply Hs | exact Hf].
Qed.

Lemma manifest_ok_merge_addOn_keys packageJSON addOn :
  NoDup (keys (merge_addOn packageJSON addOn)).
Proof.
  unfold merge_addOn. repeat apply NoDup_define. apply NoDup_spread.
  constructor.
Qed.

Lemma manifest_ok_merge_addOn packageJSON addOn :
  manifest_ok packageJSON -> manifest_ok (merge_addOn packageJSON addOn).
Proof.
  intros [Hnd Hs]. split.
  - unfold merge_addOn. repeat apply NoDup_define. apply NoDup_spread.
    constructor.
  - intros s Hin. unfold prop. rewrite lookup_merge_addOn by exact Hnd.
    rewrite (proj1 (In_sections s) Hin). apply well_formed_merged.
Qed.

Lemma manifest_ok_fold addOns : forall packageJSON,
  manifest_ok packageJSON ->
  manifest_ok (fold_left merge_addOn addOns packageJSON).
Proof.
  induction addOns as [|a l IH]; intros p H; simpl; [exact H|].
  apply IH. now apply manifest_ok_merge_addOn.
Qed.

Lemma section_fold s k addOns : forall packageJSON,
  manifest_ok packageJSON -> In s sections ->
  Forall well_formed (map (fun addOn => prop addOn s) addOns) ->
  section (fold_left merge_addOn addOns packageJSON) s k
  = last_writer_from (section packageJSON s k) k
      (map (fun addOn => prop addOn s) addOns).
Proof.
  induction addOns as [|a l IH]; intros p Hok Hin Hwf; simpl; [reflexivity|].
  inversion Hwf as [|? ? Ha Hl]; subst.
  rewrite IH by (try apply manifest_ok_merge_addOn; assumption).
  unfold last_writer_from. simpl.
  now rewrite section_merge_addOn.
Qed.

Lemma lookup_fold_other k addOns : forall packageJSON,
  NoDup (keys packageJSON) -> ~ In k sections ->
  lookup (fold_left merge_addOn addOns packageJSON) k = lookup packageJSON k.
Proof.
  induction addOns as [|a l IH]; intros p Hnd Hk; simpl; [reflexivity|].
  rewrite IH; [| apply manifest_ok_merge_addOn_keys | exact Hk].
  rewrite lookup_merge_addOn by exact Hnd.
  destruct (existsb (String.eqb k) sections) eqn:E; [|reflexivity].
  exfalso. apply Hk. now apply In_sections.
Qed.

End MergeFacts.

(** ** [sortObject] *)

Section SortFacts.

Lemma In_insert_sorted k x l :
  In k (JsString.insert_sorted x l) <-> k = x \/ In k l.
Proof.
  induction l as [|h t IH]; simpl.
  - intuition.
  - destruct (x <=? h); simpl; [intuition|]. rewrite IH. intuition.
Qed.

Lemma In_sort k l : In k (JsString.sort l) <-> In k l.
Proof.
  induction l as [|h t IH]; simpl; [tauto|].
  rewrite In_insert_sorted, IH. intuition.
Qed.

Lemma existsb_eqb_In k l : existsb (String.eqb k) l = true <-> In k l.
Proof.
  rewrite existsb_exists. split.
  - intros [x [Hin Heq]]. apply String.eqb_eq in Heq. now subst.
  - intros H. exists k. split; [exact H | apply String.eqb_refl].
Qed.

Lemma lookup_fold_assign (o : obj) l : forall acc k,
  k <> "__proto__" ->
  lookup (fold_left (fun acc key => assign acc key (prop o key)) l acc) k
  = if existsb (String.eqb k) l then Some (prop o k) else lookup acc k.
Proof.
  induction l as [|key l IH]; intros acc k Hk; [reflexivity|].
  cbn [fold_left existsb]. rewrite IH by exact Hk.
  destruct (String.eqb_spec k key) as [->|Hne]; cbn [orb].
  - rewrite lookup_assign_same by exact Hk.
    destruct (existsb (String.eqb key) l); reflexivity.
  - rewrite lookup_assign_other by congruence. reflexivity.
Qed.

Lemma sortObject_Ok v r :
  sortObject v = Ok r ->
  defined v = true
  /\ r = VObj (fold_left (fun acc key => assign acc key (prop (own v) key))
                 (JsString.sort (keys (own v))) []).
Proof.
  destruct v; cbn [sortObject defined]; intros H;
    try discriminate H; injection H as <-; split; reflexivity.
Qed.

Lemma sortObject_defined v :
  defined v = true -> exists r, sortObject v = Ok r.
Proof.
  destruct v; cbn [sortObject defined]; intros H;
    try discriminate H; eexists; reflexivity.
Qed.

(** Sorting keeps every binding, that of [__proto__] apart. *)
Lemma sortObject_lookup v r k :
  sortObject v = Ok r -> k <> "__proto__" ->
  lookup (own r) k = lookup (own v) k.
Proof.
  intros H Hk. apply sortObject_Ok in H as [_ ->]. cbn [own].
  rewrite lookup_fold_assign by exact Hk.
  destruct (existsb (String.eqb k) (JsString.sort (keys (own v)))) eqn:E.
  - apply existsb_eqb_In, In_sort, has_true_iff in E.
    unfold has, prop in *. destruct (lookup (own v) k); [reflexivity|].
    discriminate E.
  - symmetry. apply lookup_None_iff. intros Hin.
    apply In_sort, existsb_eqb_In in Hin. congruence.
Qed.

End SortFacts.

(** ** The order of the keys *)

Section OrderFacts.

Lemma leb_trans a b c :
  (a <=? b) = true -> (b <=? c) = true -> (a <=? c) = true.
Proof.
  unfold String.leb. intros Hab Hbc.
  destruct (a ?= b) eqn:Eab; try discriminate Hab;
    destruct (b ?= c) eqn:Ebc; try discriminate Hbc.
  - apply String.compare_eq_iff in Eab. subst a. now rewrite Ebc.
  - apply String.compare_eq_iff in Eab. subst a. now rewrite Ebc.
  - apply String.compare_eq_iff in Ebc. subst c. now rewrite Eab.
  - apply OrderedTypeEx.String_as_OT.cmp_lt in Eab, Ebc.
    pose proof (OrderedTypeEx.String_as_OT.lt_trans _ _ _ Eab Ebc) as H.
    apply OrderedTypeEx.String_as_OT.cmp_lt in H.
    unfold OrderedTypeEx.String_as_OT.cmp in H. now rewrite H.
Qed.

Lemma leb_neq_ltb a b : (a <=? b) = true -> a <> b -> (a <? b) = true.
Proof.
  unfold String.leb, String.ltb. intros H Hne.
  destruct (a ?= b) eqn:E; try reflexivity; try discriminate H.
  now apply String.compare_eq_iff in E.
Qed.

Lemma sort_sorted l : StronglySorted (fun a b => (a <=? b) = true)
                        (JsString.sort l).
Proof.
  induction l as [|x l IH]; cbn [JsString.sort fold_right]; [constructor|].
  fold (JsString.sort l). induction IH as [|h t Ht IHt Hall];
    cbn [JsString.insert_sorted].
  - repeat constructor.
  - destruct (x <=? h) eqn:Hx.
    + constructor; [now constructor|]. constructor; [exact Hx|].
      eapply Forall_impl; [|exact Hall]. intros b Hb.
      now apply (leb_trans x h b).
    + constructor; [exact IHt|].
      apply Forall_forall. intros b Hb. apply In_insert_sorted in Hb.
      destruct Hb as [->|Hb].
      * destruct (String.leb_total x h) as [H|H]; [congruence | exact H].
      * now apply (proj1 (Forall_forall _ t) Hall).
Qed.

Lemma lexicographic_snoc l k :
  lexicographic l = true ->
  (forall a, In a l -> (a <? k) = true) ->
  lexicographic (l ++ [k]) = true.
Proof.
  induction l as [|a l IH]; intros Hl Hk; [reflexivity|].
  destruct l as [|b l].
  - cbn. now rewrite (Hk a (or_introl eq_refl)).
  - cbn [lexicographic app] in *. apply andb_prop in Hl as [Hab Hl].
    rewrite Hab. cbn [andb]. apply IH; [exact Hl|].
    intros x Hx. apply Hk. now right.
Qed.

(** A key that is no array index is added after the keys there are. *)
Lemma insert_new_last (o : obj) k v :
  array_index k = None -> insert_new o k v = (o ++ [(k, v)])%list.
Proof.
  intros Hk. induction o as [|[k' v'] o IH]; cbn [insert_new app];
    [reflexivity|].
  unfold precedes. rewrite Hk. now rewrite IH.
Qed.

Lemma keys_assign_no_index (o : obj) k v :
  array_index k = None ->
  keys (assign o k v) = keys o
  \/ (~ In k (keys o) /\ keys (assign o k v) = (keys o ++ [k])%list).
Proof.
  intros Hk. unfold assign, define.
  destruct ((k =? "__proto__") && negb (has o k)); [now left|].
  destruct (has o k) eqn:Hh.
  - left. apply keys_update.
  - right. split.
    + rewrite <- has_true_iff, Hh. discriminate.
    + rewrite insert_new_last by exact Hk. unfold keys.
      now rewrite map_app.
Qed.

Lemma fold_assign_lexicographic (o : obj) (l : list string) :
  forall acc,
    StronglySorted (fun a b => (a <=? b) = true) l ->
    (forall k, In k l -> array_index k = None) ->
    lexicographic (keys acc) = true ->
    (forall a k, In a (keys acc) -> In k l -> (a <=? k) = true) ->
    lexicographic
      (keys (fold_left (fun acc key => assign acc key (prop o key)) l acc))
    = true.
Proof.
  induction l as [|x l IH]; intros acc Hs Hi Hacc Hle; [exact Hacc|].
  cbn [fold_left]. inversion Hs as [|? ? Hs' Hx]; subst.
  apply IH; [exact Hs' | intros k Hk; apply Hi; now right | |].
  - destruct (keys_assign_no_index acc x (prop o x)
                (Hi x (or_introl eq_refl))) as [->|[Hnew ->]];
      [exact Hacc|].
    apply lexicographic_snoc; [exact Hacc|]. intros a Ha.
    apply leb_neq_ltb; [apply Hle; [exact Ha | now left]|].
    intros ->. now apply Hnew.
  - intros a k Ha Hk.
    destruct (keys_assign_no_index acc x (prop o x)
                (Hi x (or_introl eq_refl))) as [E|[_ E]];
      rewrite E in Ha.
    + apply Hle; [exact Ha | now right].
    + apply in_app_or in Ha as [Ha|[<-|[]]].
      * apply Hle; [exact Ha | now right].
      * now apply (proj1 (Forall_forall _ l) Hx).
Qed.

(** When no key is an array index, [sortObject] lists the keys in the
    strictly ascending order of their code units. *)
Lemma sortObject_lexicographic v r :
  sortObject v = Ok r ->
  (forall k, In k (keys (own v)) -> array_index k = None) ->
  lexicographic (keys (own r)) = true.
Proof.
  intros H Hi. apply sortObject_Ok in H as [_ ->]. cbn [own].
  apply fold_assign_lexicographic.
  - apply sort_sorted.
  - intros k Hk. apply Hi. now apply In_sort.
  - reflexivity.
  - intros a k [].
Qed.

End OrderFacts.

(** ** The order of the scripts *)

Section InsertionFacts.

Implicit Types (o t : obj) (k : string) (v : value).

Lemma seen_In k seen :
  existsb (fun y => y =? k) seen = true <-> In k seen.
Proof.
  rewrite existsb_exists. split.
  - intros [x [Hin Heq]]. apply String.eqb_eq in Heq. now subst.
  - intros H. exists k. split; [exact H | apply String.eqb_refl].
Qed.

Lemma seen_ext k seen seen' :
  (forall x, In x seen <-> In x seen') ->
  existsb (fun y => y =? k) seen = existsb (fun y => y =? k) seen'.
Proof.
  intros H. destruct (existsb _ seen') eqn:E.
  - apply seen_In. apply H. now apply seen_In.
  - destruct (existsb _ seen) eqn:E'; [|reflexivity].
    apply seen_In, H, seen_In in E'. congruence.
Qed.

Lemma distinct_ext l : forall seen seen',
  (forall x, In x seen <-> In x seen') -> distinct seen l = distinct seen' l.
Proof.
  induction l as [|k l IH]; intros seen seen' H; [reflexivity|].
  cbn [distinct]. rewrite (seen_ext k seen seen' H).
  destruct (existsb _ seen'); [now apply IH|].
  f_equal. apply IH. intros x. cbn [In]. now rewrite H.
Qed.

Lemma distinct_app l1 : forall seen l2,
  distinct seen (l1 ++ l2)
  = (distinct seen l1 ++ distinct (distinct seen l1 ++ seen) l2)%list.
Proof.
  induction l1 as [|k l1 IH]; intros seen l2; [reflexivity|].
  cbn [app distinct]. destruct (existsb _ seen) eqn:E.
  - apply IH.
  - cbn [app]. f_equal. rewrite IH. f_equal. apply distinct_ext.
    intros x. rewrite !in_app_iff. cbn [In]. rewrite in_app_iff. tauto.
Qed.

Lemma distinct_NoDup l : forall seen,
  NoDup l -> (forall x, In x l -> ~ In x seen) -> distinct seen l = l.
Proof.
  induction l as [|k l IH]; intros seen Hnd Hs; [reflexivity|].
  inversion Hnd as [|? ? Hk Hl]; subst. cbn [distinct].
  destruct (existsb _ seen) eqn:E.
  - apply seen_In in E. now destruct (Hs k (or_introl eq_refl)).
  - f_equal. apply IH; [exact Hl|]. intros x Hx [<-|Hin]; [contradiction|].
    now apply (Hs x (or_intror Hx)).
Qed.

Lemma keys_define_no_index o k v :
  array_index k = None ->
  keys (define o k v) = (keys o ++ distinct (keys o) [k])%list.
Proof.
  intros Hk. unfold define. cbn [distinct].
  destruct (has o k) eqn:Hh.
  - rewrite keys_update. apply has_true_iff, seen_In in Hh. rewrite Hh.
    now rewrite app_nil_r.
  - rewrite insert_new_last by exact Hk.
    destruct (existsb _ (keys o)) eqn:E.
    + apply seen_In, has_true_iff in E. congruence.
    + unfold keys. now rewrite map_app.
Qed.

Lemma keys_fold_define (src : obj) : forall t,
  (forall k, In k (keys src) -> array_index k = None) ->
  keys (fold_left (fun t kv => define t (fst kv) (snd kv)) src t)
  = (keys t ++ distinct (keys t) (keys src))%list.
Proof.
  induction src as [|[k x] src IH]; intros t Hi.
  - cbn. now rewrite app_nil_r.
  - cbn [fold_left fst snd]. rewrite IH by (intros k' Hk'; apply Hi; now right).
    rewrite keys_define_no_index by (apply Hi; now left).
    change (keys ((k, x) :: src)) with ([k] ++ keys src)%list.
    rewrite distinct_app, <- app_assoc. do 2 f_equal.
    apply distinct_ext. intros y. rewrite !in_app_iff. tauto.
Qed.

(** Without array indices among the keys, [{ ...a, ...b }] lists the keys
    of [a], then the keys that [b] adds. *)
Lemma keys_merged a b :
  (forall k, In k (keys (own a)) -> array_index k = None) ->
  (forall k, In k (keys (own b)) -> array_index k = None) ->
  keys (own (merged a b)) = insertion_order [a; b].
Proof.
  intros Ha Hb. unfold merged, spread, insertion_order. cbn [own flat_map].
  rewrite !keys_fold_define by assumption. cbn [keys map app].
  rewrite app_nil_r, distinct_app. f_equal. apply distinct_ext.
  intros x. rewrite in_app_iff. cbn [In]. tauto.
Qed.

Lemma distinct_spec l : forall seen,
  NoDup (distinct seen l)
  /\ forall x, In x (distinct seen l) <-> In x l /\ ~ In x seen.
Proof.
  induction l as [|k l IH]; intros seen; cbn [distinct].
  - split; [constructor | intros x; cbn; tauto].
  - destruct (existsb _ seen) eqn:E.
    + destruct (IH seen) as [Hnd Hin]. split; [exact Hnd|].
      intros x. rewrite Hin. cbn [In]. apply seen_In in E.
      split; [tauto|]. intros [[<-|H] Hs]; [contradiction | tauto].
    + destruct (IH (k :: seen)) as [Hnd Hin].
      assert (Hk : ~ In k seen)
        by (intros H; apply seen_In in H; congruence).
      split.
      * constructor; [|exact Hnd]. rewrite Hin. cbn [In]. tauto.
      * intros x. cbn [In]. rewrite Hin. cbn [In].
        destruct (String.eqb_spec k x) as [->|Hne]; [tauto|]. tauto.
Qed.

Lemma distinct_again l l' :
  distinct [] (distinct [] l ++ l') = distinct [] (l ++ l').
Proof.
  assert (H : distinct [] (distinct [] l) = distinct [] l).
  { apply distinct_NoDup; [apply distinct_spec|]. intros x _ []. }
  rewrite !(distinct_app _ []), H. reflexivity.
Qed.

End InsertionFacts.

(** ** [createPackageJSON] *)

Section PackageFacts.

Variables (projectName : string) (options : Options).
Variables (base ts tw fr : obj) (addOns : list obj).

(** The manifest after the variants and before the add-ons. *)
Let named : obj := assign base "name" (VStr projectName).

Let typed : obj :=
  if typescript options then merge_section "devDependencies" named ts
  else named.

Let styled : obj :=
  if tailwind options then merge_section "dependencies" typed tw else typed.

Let routed : obj :=
  if is_FILE_ROUTER (mode options)
  then merge_section "dependencies" styled fr
  else styled.

Let extended : obj :=
  unsorted_manifest projectName options base ts tw fr addOns.

Lemma extended_eq : extended = fold_left merge_addOn addOns routed.
Proof. reflexivity. Qed.

Lemma mergePackageJSON_unfold :
  mergePackageJSON projectName options base ts tw fr addOns
  = match sortObject (prop extended "dependencies") with
    | Err e => Err e
    | Ok dependencies =>
        match sortObject (prop extended "devDependencies") with
        | Err e => Err e
        | Ok devDependencies =>
            Ok (assign (assign extended "dependencies" dependencies)
                  "devDependencies" devDependencies)
        end
    end.
Proof.
  change (mergePackageJSON projectName options base ts tw fr addOns)
    with (match sortObject (prop extended "dependencies") with
          | Err e => Err e
          | Ok dependencies =>
              match sortObject
                      (prop (assign extended "dependencies" dependencies)
                         "devDependencies") with
              | Err e => Err e
              | Ok devDependencies =>
                  Ok (assign (assign extended "dependencies" dependencies)
                        "devDependencies" devDependencies)
              end
          end).
  destruct (sortObject (prop extended "dependencies")) as [d|e];
    [|reflexivity].
  unfold prop at 1. rewrite lookup_assign_other by discriminate.
  reflexivity.
Qed.

Hypothesis base_keys : NoDup (keys base).

Lemma named_keys : NoDup (keys named).
Proof. now apply NoDup_assign. Qed.

Lemma named_lookup k :
  lookup named k = if "name" =? k then Some (VStr projectName)
                   else lookup base k.
Proof.
  unfold named. destruct (String.eqb_spec "name" k) as [<-|Hne].
  - now apply lookup_assign_same.
  - now apply lookup_assign_other.
Qed.

Lemma named_section s k : In s sections -> section named s k = section base s k.
Proof.
  intros Hin. unfold section, prop. rewrite named_lookup.
  destruct (String.eqb_spec "name" s) as [<-|_]; [|reflexivity].
  exfalso. unfold sections in Hin. simpl in Hin.
  intuition discriminate.
Qed.

Lemma typed_keys : NoDup (keys typed).
Proof.
  unfold typed. destruct (typescript options); [|exact named_keys].
  unfold merge_section. apply NoDup_define, NoDup_spread. constructor.
Qed.

Lemma styled_keys : NoDup (keys styled).
Proof.
  unfold styled. destruct (tailwind options); [|exact typed_keys].
  unfold merge_section. apply NoDup_define, NoDup_spread. constructor.
Qed.

Lemma routed_keys : NoDup (keys routed).
Proof.
  unfold routed. destruct (is_FILE_ROUTER (mode options)); [|exact styled_keys].
  unfold merge_section. apply NoDup_define, NoDup_spread. constructor.
Qed.

(** Outside the three sections the merges change nothing. *)
Lemma extended_lookup_other k :
  ~ In k sections -> lookup extended k = lookup named k.
Proof.
  intros Hk. rewrite extended_eq.
  rewrite lookup_fold_other by (try exact routed_keys; exact Hk).
  assert (Hs : forall s, In s sections -> (s =? k) = false).
  { intros s Hin. apply String.eqb_neq. intros ->. now apply Hk. }
  unfold routed. destruct (is_FILE_ROUTER (mode options)).
  1: rewrite lookup_merge_section, Hs
       by (try exact styled_keys; unfold sections; simpl; tauto).
  all: unfold styled; destruct (tailwind options).
  1,3: rewrite lookup_merge_section, Hs
       by (try exact typed_keys; unfold sections; simpl; tauto).
  all: unfold typed; destruct (typescript options).
  all: try rewrite lookup_merge_section, Hs
       by (try exact named_keys; unfold sections; simpl; tauto).
  all: reflexivity.
Qed.

(** A section that the base manifest has is there at the end. *)
Lemma extended_defined s :
  In s sections -> defined (prop base s) = true ->
  defined (prop extended s) = true.
Proof.
  intros Hin Hd. rewrite extended_eq.
  assert (Hstep : forall s' p f, NoDup (keys p) ->
            defined (prop p s) = true ->
            defined (prop (merge_section s' p f) s) = true).
  { intros s' p f Hp H. unfold prop. rewrite lookup_merge_section by exact Hp.
    destruct (s' =? s); [reflexivity | exact H]. }
  assert (Hfold : forall l p, NoDup (keys p) -> defined (prop p s) = true ->
            defined (prop (fold_left merge_addOn l p) s) = true).
  { induction l as [|a l IH]; intros p Hp H; [exact H|]. simpl.
    apply IH; [apply manifest_ok_merge_addOn_keys|].
    unfold prop. rewrite lookup_merge_addOn by exact Hp.
    now rewrite (proj1 (In_sections s) Hin). }
  assert (Hnd : defined (prop named s) = true).
  { unfold prop. rewrite named_lookup.
    destruct (String.eqb_spec "name" s) as [<-|_]; [reflexivity | exact Hd]. }
  pose proof named_keys as Hn. pose proof typed_keys as Ht.
  pose proof styled_keys as Hs.
  apply Hfold; [exact routed_keys|].
  unfold routed. destruct (is_FILE_ROUTER (mode options));
    [apply Hstep; [exact Hs|]|];
    unfold styled; (destruct (tailwind options);
    [apply Hstep; [exact Ht|]|]);
    unfold typed; (destruct (typescript options);
    [apply Hstep; [exact Hn|]|]); exact Hnd.
Qed.

Hypothesis dependencies_ok :
  Forall well_formed (dependencies_writers options base tw fr addOns).
Hypothesis devDependencies_ok :
  Forall well_formed (devDependencies_writers options base ts addOns).
Hypothesis scripts_ok : Forall well_formed (scripts_writers base addOns).

Lemma base_sections_ok s : In s sections -> well_formed (prop base s).
Proof.
  unfold sections. simpl. intros [<-|[<-|[<-|[]]]].
  - now inversion dependencies_ok.
  - now inversion devDependencies_ok.
  - now inversion scripts_ok.
Qed.

Lemma named_ok : manifest_ok named.
Proof.
  split; [exact named_keys|]. intros s Hin.
  unfold well_formed. unfold prop. rewrite named_lookup.
  destruct (String.eqb_spec "name" s) as [<-|_].
  - exfalso. unfold sections in Hin. simpl in Hin. intuition discriminate.
  - now apply base_sections_ok.
Qed.

Lemma typed_ok : manifest_ok typed.
Proof.
  unfold typed. destruct (typescript options); [|exact named_ok].
  apply manifest_ok_merge_section, named_ok.
Qed.

Lemma styled_ok : manifest_ok styled.
Proof.
  unfold styled. destruct (tailwind options); [|exact typed_ok].
  apply manifest_ok_merge_section, typed_ok.
Qed.

Lemma routed_ok : manifest_ok routed.
Proof.
  unfold routed. destruct (is_FILE_ROUTER (mode options)); [|exact styled_ok].
  apply manifest_ok_merge_section, styled_ok.
Qed.

Lemma addOns_ok s :
  In s sections ->
  Forall well_formed (map (fun addOn => prop addOn s) addOns).
Proof.
  unfold sections. simpl. intros [<-|[<-|[<-|[]]]].
  - unfold dependencies_writers in dependencies_ok.
    apply Forall_inv_tail in dependencies_ok.
    now apply Forall_app in dependencies_ok as [_ H%Forall_app].
  - unfold devDependencies_writers in devDependencies_ok.
    apply Forall_inv_tail in devDependencies_ok.
    now apply Forall_app in devDependencies_ok.
  - now apply Forall_inv_tail in scripts_ok.
Qed.

Lemma section_other s s' p f k :
  NoDup (keys p) -> s <> s' ->
  section (merge_section s p f) s' k = section p s' k.
Proof.
  intros Hp Hne. unfold section. now rewrite prop_merge_section_other.
Qed.

Lemma routed_dependencies k :
  section routed "dependencies" k
  = last_writer_from (section base "dependencies" k) k
      ((if tailwind options then [prop tw "dependencies"] else [])
       ++ (if is_FILE_ROUTER (mode options)
           then [prop fr "dependencies"] else []))%list.
Proof.
  pose proof dependencies_ok as H. unfold dependencies_writers in H.
  apply Forall_inv_tail in H.
  pose proof styled_ok as [Hsk Hss]. pose proof typed_ok as [Htk Hts].
  pose proof named_keys as Hnk.
  assert (Hin : In "dependencies" sections) by (unfold sections; simpl; tauto).
  specialize (Hss _ Hin). specialize (Hts _ Hin).
  unfold routed, styled in *.
  destruct (is_FILE_ROUTER (mode options)), (tailwind options);
    cbn [app] in H; unfold last_writer_from; cbn [app fold_left];
    repeat match goal with
      | Hf : Forall _ (_ :: _) |- _ =>
          let Hx := fresh "Hx" in
          pose proof (Forall_inv Hf) as Hx; apply Forall_inv_tail in Hf
      end;
    repeat rewrite section_merge_section_same by assumption;
    unfold typed;
    destruct (typescript options);
    try rewrite section_other by (try exact named_keys; discriminate);
    now rewrite named_section.
Qed.

Lemma routed_devDependencies k :
  section routed "devDependencies" k
  = last_writer_from (section base "devDependencies" k) k
      (if typescript options then [prop ts "devDependencies"] else []).
Proof.
  pose proof devDependencies_ok as H. unfold devDependencies_writers in H.
  apply Forall_inv_tail in H.
  pose proof styled_ok as [Hsk _]. pose proof typed_ok as [Htk _].
  pose proof named_ok as [Hnk Hns].
  assert (Hin : In "devDependencies" sections)
    by (unfold sections; simpl; tauto).
  specialize (Hns _ Hin).
  unfold routed.
  destruct (is_FILE_ROUTER (mode options));
    try rewrite section_other by (try exact Hsk; discriminate);
    unfold styled in *;
    destruct (tailwind options);
    try rewrite section_other by (try exact Htk; discriminate);
    unfold typed in *;
    destruct (typescript options);
    cbn [app] in H; unfold last_writer_from; cbn [fold_left];
    try (rewrite section_merge_section_same
           by (try assumption; now apply Forall_inv in H));
    now rewrite named_section.
Qed.

Lemma routed_scripts k : section routed "scripts" k = section base "scripts" k.
Proof.
  pose proof styled_ok as [Hsk _]. pose proof typed_ok as [Htk _].
  pose proof named_keys as Hnk.
  unfold routed.
  destruct (is_FILE_ROUTER (mode options));
    try rewrite section_other by (try exact Hsk; discriminate);
    unfold styled in *;
    destruct (tailwind options);
    try rewrite section_other by (try exact Htk; discriminate);
    unfold typed in *;
    destruct (typescript options);
    try rewrite section_other by (try exact Hnk; discriminate);
    apply named_section; unfold sections; simpl; tauto.
Qed.

Lemma last_writer_from_app found k l1 l2 :
  last_writer_from found k (l1 ++ l2)
  = last_writer_from (last_writer_from found k l1) k l2.
Proof. unfold last_writer_from. apply fold_left_app. Qed.

Lemma last_writer_cons k w l :
  last_writer k (w :: l) = last_writer_from (lookup (own w) k) k l.
Proof.
  unfold last_writer, last_writer_from. simpl.
  destruct (lookup (own w) k); reflexivity.
Qed.

Lemma extended_dependencies k :
  section extended "dependencies" k
  = last_writer k (dependencies_writers options base tw fr addOns).
Proof.
  rewrite extended_eq, section_fold;
    [| exact routed_ok | unfold sections; simpl; tauto
     | apply addOns_ok; unfold sections; simpl; tauto].
  rewrite routed_dependencies. unfold dependencies_writers.
  rewrite last_writer_cons, !last_writer_from_app.
  reflexivity.
Qed.

Lemma extended_devDependencies k :
  section extended "devDependencies" k
  = last_writer k (devDependencies_writers options base ts addOns).
Proof.
  rewrite extended_eq, section_fold;
    [| exact routed_ok | unfold sections; simpl; tauto
     | apply addOns_ok; unfold sections; simpl; tauto].
  rewrite routed_devDependencies. unfold devDependencies_writers.
  rewrite last_writer_cons, !last_writer_from_app.
  reflexivity.
Qed.

Lemma extended_scripts k :
  section extended "scripts" k = last_writer k (scripts_writers base addOns).
Proof.
  rewrite extended_eq, section_fold;
    [| exact routed_ok | unfold sections; simpl; tauto
     | apply addOns_ok; unfold sections; simpl; tauto].
  rewrite routed_scripts. unfold scripts_writers.
  now rewrite last_writer_cons.
Qed.

Lemma routed_prop_scripts : prop routed "scripts" = prop base "scripts".
Proof.
  pose proof styled_keys as Hsk. pose proof typed_keys as Htk.
  pose proof named_keys as Hnk.
  unfold routed.
  destruct (is_FILE_ROUTER (mode options));
    try rewrite prop_merge_section_other by (try exact Hsk; discriminate);
    unfold styled in *;
    destruct (tailwind options);
    try rewrite prop_merge_section_other by (try exact Htk; discriminate);
    unfold typed in *;
    destruct (typescript options);
    try rewrite prop_merge_section_other by (try exact Hnk; discriminate);
    unfold prop; now rewrite named_lookup.
Qed.

Lemma fold_scripts_keys l : forall packageJSON,
  NoDup (keys packageJSON) ->
  well_formed (prop packageJSON "scripts") ->
  (forall w k,
     In w (prop packageJSON "scripts"
           :: map (fun addOn => prop addOn "scripts") l) ->
     In k (keys (own w)) -> array_index k = None) ->
  keys (own (prop (fold_left merge_addOn l packageJSON) "scripts"))
  = insertion_order (prop packageJSON "scripts"
                     :: map (fun addOn => prop addOn "scripts") l).
Proof.
  induction l as [|a l IH]; intros p Hp Hwf Hi.
  - unfold insertion_order. cbn [fold_left map flat_map].
    rewrite app_nil_r. symmetry. apply distinct_NoDup; [exact Hwf|].
    intros x _ [].
  - cbn [fold_left map].
    assert (Hm : prop (merge_addOn p a) "scripts"
                 = merged (prop p "scripts") (prop a "scripts")).
    { unfold prop at 1. now rewrite lookup_merge_addOn by exact Hp. }
    assert (Hk : keys (own (merged (prop p "scripts") (prop a "scripts")))
                 = insertion_order [prop p "scripts"; prop a "scripts"]).
    { apply keys_merged; intros k Hk.
      - apply (Hi (prop p "scripts")); [now left | exact Hk].
      - apply (Hi (prop a "scripts")); [right; now left | exact Hk]. }
    rewrite IH.
    + rewrite Hm. unfold insertion_order at 1. cbn [flat_map].
      rewrite Hk. unfold insertion_order. cbn [flat_map].
      rewrite app_nil_r, distinct_again, <- app_assoc. reflexivity.
    + apply manifest_ok_merge_addOn_keys.
    + rewrite Hm. apply well_formed_merged.
    + intros w k [<-|Hw] Hin.
      * rewrite Hm, Hk in Hin. unfold insertion_order in Hin.
        apply distinct_spec in Hin as [Hin _]. cbn [flat_map] in Hin.
        rewrite app_nil_r in Hin. apply in_app_or in Hin as [Hin|Hin].
        -- apply (Hi (prop p "scripts")); [now left | exact Hin].
        -- apply (Hi (prop a "scripts")); [right; now left | exact Hin].
      * apply (Hi w); [right; now right | exact Hin].
Qed.

(** Where no script is named by an array index, the scripts are listed
    in the order in which the merge met their names. *)
Lemma extended_scripts_keys :
  (forall w k, In w (scripts_writers base addOns) ->
     In k (keys (own w)) -> array_index k = None) ->
  keys (own (prop extended "scripts"))
  = insertion_order (scripts_writers base addOns).
Proof.
  intros Hi. rewrite extended_eq, fold_scripts_keys.
  - now rewrite routed_prop_scripts.
  - exact routed_keys.
  - rewrite routed_prop_scripts. now inversion scripts_ok.
  - rewrite routed_prop_scripts. exact Hi.
Qed.

End PackageFacts.

Lemma distinctb_NoDup l : distinctb l = true -> NoDup l.
Proof.
  induction l as [|x l IH]; simpl; intros H; constructor.
  - apply andb_prop in H as [H _]. intros Hin.
    apply existsb_eqb_In in Hin. rewrite Hin in H. discriminate H.
  - apply IH. now apply andb_prop in H as [_ H].
Qed.

Lemma well_formed_all l :
  forallb (fun v => distinctb (keys (own v))) l = true ->
  Forall well_formed l.
Proof.
  intros H. apply Forall_forall. intros v Hin.
  apply distinctb_NoDup. now apply (proj1 (forallb_forall _ l) H).
Qed.

(** C1, amended.  The merge order is fixed: the base manifest, then the
    language variant, then the styling variant, then the routing variant,
    then the add-ons in selection order.  The language variant writes
    [devDependencies] only, the styling and the routing variants write
    [dependencies] only, an add-on writes the three sections.  In each
    section every key ends with the value of the last of its writers that
    has the key (in [dependencies] and [devDependencies]: every key other
    than [__proto__]), the sections being merged independently; and a
    collision raises no error: a base manifest that has [dependencies]
    and [devDependencies] always yields a manifest. *)
Theorem C1_last_writer_wins
  (projectName : string) (options : Options) (base ts tw fr : obj)
  (addOns : list obj) :
  NoDup (keys base) ->
  Forall well_formed (dependencies_writers options base tw fr addOns) ->
  Forall well_formed (devDependencies_writers options base ts addOns) ->
  Forall well_formed (scripts_writers base addOns) ->
  (defined (prop base "dependencies") = true ->
   defined (prop base "devDependencies") = true ->
   exists final,
     mergePackageJSON projectName options base ts tw fr addOns = Ok final)
  /\ (forall final,
        mergePackageJSON projectName options base ts tw fr addOns = Ok final ->
        (forall k, k <> "__proto__" ->
           section final "dependencies" k
           = last_writer k (dependencies_writers options base tw fr addOns))
        /\ (forall k, k <> "__proto__" ->
              section final "devDependencies" k
              = last_writer k
                  (devDependencies_writers options base ts addOns))
        /\ (forall k,
              section final "scripts" k
              = last_writer k (scripts_writers base addOns))).
Proof.
  intros Hb Hd Hv Hs. rewrite mergePackageJSON_unfold. split.
  - intros Hdd Hdv.
    destruct (sortObject_defined _
                (extended_defined projectName options base ts tw fr addOns
                   Hb "dependencies" (or_introl eq_refl) Hdd)) as [d ->].
    destruct (sortObject_defined _
                (extended_defined projectName options base ts tw fr addOns
                   Hb "devDependencies" (or_intror (or_introl eq_refl)) Hdv))
      as [dv ->].
    eexists. reflexivity.
  - intros final H.
    destruct (sortObject (prop _ "dependencies")) as [d|e] eqn:Ed;
      [|discriminate H].
    destruct (sortObject (prop _ "devDependencies")) as [dv|e] eqn:Ev;
      [|discriminate H].
    injection H as <-. repeat split.
    + intros k Hk. unfold section, prop.
      rewrite lookup_assign_other, lookup_assign_same by discriminate.
      rewrite (sortObject_lookup _ _ _ Ed Hk).
      now apply (extended_dependencies projectName).
    + intros k Hk. unfold section, prop.
      rewrite lookup_assign_same by discriminate.
      rewrite (sortObject_lookup _ _ _ Ev Hk).
      now apply (extended_devDependencies projectName).
    + intros k. unfold section, prop.
      rewrite !lookup_assign_other by discriminate.
      now apply (extended_scripts projectName).
Qed.

Lemma C1_last_writer_wins_witness :
  NoDup (keys Sample.base)
  /\ Forall well_formed
       (dependencies_writers Sample.options Sample.base Sample.tw Sample.fr
          [Sample.addOn])
  /\ (exists final,
        mergePackageJSON "demo" Sample.options Sample.base Sample.ts
          Sample.tw Sample.fr [Sample.addOn] = Ok final
        /\ section final "dependencies" "react"
           = last_writer "react"
               (dependencies_writers Sample.options Sample.base Sample.tw
                  Sample.fr [Sample.addOn])).
Proof.
  assert (Hb : NoDup (keys Sample.base))
    by (apply distinctb_NoDup; reflexivity).
  assert (Hd : Forall well_formed
                 (dependencies_writers Sample.options Sample.base Sample.tw
                    Sample.fr [Sample.addOn]))
    by (apply well_formed_all; reflexivity).
  assert (Hv : Forall well_formed
                 (devDependencies_writers Sample.options Sample.base
                    Sample.ts [Sample.addOn]))
    by (apply well_formed_all; reflexivity).
  assert (Hs : Forall well_formed (scripts_writers Sample.base [Sample.addOn]))
    by (apply well_formed_all; reflexivity).
  destruct (C1_last_writer_wins "demo" Sample.options Sample.base Sample.ts
              Sample.tw Sample.fr [Sample.addOn] Hb Hd Hv Hs)
    as [Hex Hall].
  split; [exact Hb|]. split; [exact Hd|].
  destruct (Hex eq_refl eq_refl) as [final Hfinal].
  exists final. split; [exact Hfinal|].
  apply (Hall final Hfinal). discriminate.
Defined.

(** C1 as stated fails.  With the typed variant on, a dependency named by
    both the base manifest and the language-variant manifest keeps the
    value of the base manifest, the earlier of the two: the variant
    writes [devDependencies] only.  And a dependency named [__proto__] is
    in no manifest that is written. *)
Lemma C1_counterexample :
  ~ last_writer_wins_as_stated "demo" Sample.plain Sample.base Sample.ts
      [] [] []
  /\ ~ last_writer_wins_as_stated "demo" Sample.plain Sample.proto
         [] [] [] [].
Proof.
  split; intros H.
  - specialize (H _ eq_refl "dependencies" (or_introl eq_refl) "react").
    vm_compute in H. discriminate H.
  - specialize (H _ eq_refl "dependencies" (or_introl eq_refl) "__proto__").
    vm_compute in H. discriminate H.
Qed.

(** C3 fails on the code for keys that are array indices.  A manifest
    whose dependencies are named "10" and "9" is written with "9" before
    "10", which is not the order of their code units: [sortObject] sorts
    the keys, then fills a fresh object, and an object lists its array
    indices first and by value.  For the same reason a script named "1"
    that an add-on contributes is listed before the scripts of the base
    manifest, although it was merged after them. *)
Theorem C3_numeric_keys_not_lexicographic :
  exists final,
    mergePackageJSON "demo" Sample.plain Sample.numbered [] [] []
      [Sample.numbered_addOn] = Ok final
    /\ keys (own (prop final "dependencies")) = ["9"; "10"]
    /\ lexicographic (keys (own (prop final "dependencies"))) = false
    /\ keys (own (prop final "scripts")) = ["1"; "build"].
Proof. eexists. repeat split; vm_compute; reflexivity. Qed.

(** C8.  The manifest that is written has the project name for [name]:
    the assignment to the base manifest puts it there and every later
    step keeps it.  The steps change the sections [dependencies],
    [devDependencies] and [scripts] only: a variant step changes nothing
    but its section, an add-on step nothing but the three, and any other
    property of the base manifest is that of the written one. *)
Theorem C8_name_is_project_name
  (projectName : string) (options : Options) (base ts tw fr : obj)
  (addOns : list obj) (final : obj) :
  NoDup (keys base) ->
  mergePackageJSON projectName options base ts tw fr addOns = Ok final ->
  lookup final "name" = Some (VStr projectName)
  /\ lookup (assign base "name" (VStr projectName)) "name"
     = Some (VStr projectName)
  /\ (forall s packageJSON fragment k,
        NoDup (keys packageJSON) -> k <> s ->
        lookup (merge_section s packageJSON fragment) k
        = lookup packageJSON k)
  /\ (forall packageJSON addOn k,
        NoDup (keys packageJSON) -> ~ In k sections ->
        lookup (merge_addOn packageJSON addOn) k = lookup packageJSON k)
  /\ (forall k, ~ In k ("name" :: sections) ->
        lookup final k = lookup base k).
Proof.
  intros Hb H. rewrite mergePackageJSON_unfold in H.
  destruct (sortObject (prop _ "dependencies")) as [d|e]; [|discriminate H].
  destruct (sortObject (prop _ "devDependencies")) as [dv|e];
    [|discriminate H].
  injection H as <-.
  assert (Hname : ~ In "name" sections)
    by (unfold sections; simpl; intuition discriminate).
  repeat split.
  - rewrite !lookup_assign_other by discriminate.
    rewrite (extended_lookup_other projectName) by assumption.
    now rewrite named_lookup.
  - now apply lookup_assign_same.
  - intros s p f k Hp Hk. rewrite lookup_merge_section by exact Hp.
    now rewrite (proj2 (String.eqb_neq s k)) by congruence.
  - intros p a k Hp Hk. rewrite lookup_merge_addOn by exact Hp.
    destruct (existsb (String.eqb k) sections) eqn:E; [|reflexivity].
    exfalso. now apply Hk, In_sections.
  - intros k Hk.
    assert (Hks : ~ In k sections) by (intros Hin; apply Hk; now right).
    assert (Hkn : "name" <> k) by (intros <-; apply Hk; now left).
    rewrite !lookup_assign_other.
    + rewrite (extended_lookup_other projectName) by assumption.
      rewrite named_lookup. now rewrite (proj2 (String.eqb_neq _ _) Hkn).
    + intros <-. apply Hks. unfold sections. simpl. tauto.
    + intros <-. apply Hks. unfold sections. simpl. tauto.
Qed.

Lemma C8_name_is_project_name_witness :
  exists final,
    mergePackageJSON "demo" Sample.options Sample.base Sample.ts Sample.tw
      Sample.fr [Sample.addOn] = Ok final
    /\ lookup final "name" = Some (VStr "demo")
    /\ lookup final "version" = lookup Sample.base "version".
Proof.
  eexists. split; [reflexivity|].
  destruct (C8_name_is_project_name "demo" Sample.options Sample.base
              Sample.ts Sample.tw Sample.fr [Sample.addOn] _
              (distinctb_NoDup (keys Sample.base) eq_refl) eq_refl)
    as [Hname [_ [_ [_ Hother]]]].
  split; [exact Hname|].
  apply Hother. simpl. intuition discriminate.
Defined.

Lemma last_writer_from_Some found k writers v :
  last_writer_from found k writers = Some v ->
  found = Some v \/ exists w, In w writers /\ lookup (own w) k = Some v.
Proof.
  revert found. induction writers as [|w l IH]; intros found H.
  - now left.
  - cbn [last_writer_from fold_left] in H.
    apply IH in H as [H|[w' [Hin Hw]]].
    + destruct (lookup (own w) k) as [x|] eqn:Ew; cbn [override] in H.
      * right. exists w. split; [now left | congruence].
      * now left.
    + right. exists w'. split; [now right | exact Hw].
Qed.

(** Where no writer has an array index for a key, the dependencies and
    the devDependencies of the written manifest are in the strictly
    ascending order of their keys. *)
Lemma written_dependencies_lexicographic
  (projectName : string) (options : Options) (base ts tw fr : obj)
  (addOns : list obj) (final : obj) :
  NoDup (keys base) ->
  Forall well_formed (dependencies_writers options base tw fr addOns) ->
  Forall well_formed (devDependencies_writers options base ts addOns) ->
  Forall well_formed (scripts_writers base addOns) ->
  mergePackageJSON projectName options base ts tw fr addOns = Ok final ->
  (forall w k,
     In w (dependencies_writers options base tw fr addOns
           ++ devDependencies_writers options base ts addOns)%list ->
     In k (keys (own w)) -> array_index k = None) ->
  lexicographic (keys (own (prop final "dependencies"))) = true
  /\ lexicographic (keys (own (prop final "devDependencies"))) = true.
Proof.
  intros Hb Hd Hv Hs H Hi. rewrite mergePackageJSON_unfold in H.
  destruct (sortObject (prop _ "dependencies")) as [d|e] eqn:Ed;
    [|discriminate H].
  destruct (sortObject (prop _ "devDependencies")) as [dv|e] eqn:Ev;
    [|discriminate H].
  injection H as <-.
  assert (Hkey : forall writers v k,
            (forall w, In w writers ->
               In w (dependencies_writers options base tw fr addOns
                     ++ devDependencies_writers options base ts addOns)%list) ->
            (forall k, lookup (own v) k = last_writer k writers) ->
            In k (keys (own v)) -> array_index k = None).
  { intros writers v k Hsub Hlw Hin. apply has_true_iff in Hin.
    unfold has in Hin. destruct (lookup (own v) k) as [x|] eqn:El;
      [|discriminate Hin].
    rewrite Hlw in El. apply last_writer_from_Some in El as [El|[w [Hw El]]];
      [discriminate El|].
    apply (Hi w k); [now apply Hsub|].
    apply has_true_iff. unfold has. now rewrite El. }
  split; unfold prop.
  - rewrite lookup_assign_other, lookup_assign_same by discriminate.
    apply (sortObject_lexicographic _ _ Ed). intros k.
    apply (Hkey (dependencies_writers options base tw fr addOns)).
    + intros w Hw. apply in_or_app. now left.
    + intros k'. now apply (extended_dependencies projectName).
  - rewrite lookup_assign_same by discriminate.
    apply (sortObject_lexicographic _ _ Ev). intros k.
    apply (Hkey (devDependencies_writers options base ts addOns)).
    + intros w Hw. apply in_or_app. now right.
    + intros k'. now apply (extended_devDependencies projectName).
Qed.

(** Where no script is named by an array index, the scripts of the
    written manifest are in merge-insertion order: the scripts of the
    base manifest, then what each add-on adds, in selection order. *)
Lemma written_scripts_in_insertion_order
  (projectName : string) (options : Options) (base ts tw fr : obj)
  (addOns : list obj) (final : obj) :
  NoDup (keys base) ->
  Forall well_formed (scripts_writers base addOns) ->
  mergePackageJSON projectName options base ts tw fr addOns = Ok final ->
  (forall w k, In w (scripts_writers base addOns) ->
     In k (keys (own w)) -> array_index k = None) ->
  keys (own (prop final "scripts"))
  = insertion_order (scripts_writers base addOns).
Proof.
  intros Hb Hs H Hi. rewrite mergePackageJSON_unfold in H.
  destruct (sortObject (prop _ "dependencies")) as [d|e]; [|discriminate H].
  destruct (sortObject (prop _ "devDependencies")) as [dv|e];
    [|discriminate H].
  injection H as <-. unfold prop at 1.
  rewrite !lookup_assign_other by discriminate.
  now apply (extended_scripts_keys projectName options base ts tw fr addOns).
Qed.

(** ** [createPackageJSON], the reads and the write *)

Section WriteFacts.

Context {E : Externals}.

(** When the manifest files load, [createPackageJSON] writes the
    serialised merge of what they hold, or throws what the merge throws,
    and does nothing else. *)
Lemma createPackageJSON_writes
  (projectName : string) (options : Options)
  (templateDir routerDir targetDir : string) (addOns : list value)
  (w : world) (parsed : value) (base ts tw fr : obj) (fragments : list obj) :
  readJSON (resolve [templateDir; "package.json"]) w = (Ok parsed, w) ->
  manifest_of parsed = Ok base ->
  loaded (typescript options) (resolve [templateDir; "package.ts.json"]) ts w ->
  loaded (tailwind options) (resolve [templateDir; "package.tw.json"]) tw w ->
  loaded (is_FILE_ROUTER (mode options))
    (resolve [routerDir; "package.fr.json"]) fr w ->
  mapM fragment_of addOns = Ok fragments ->
  createPackageJSON projectName options templateDir routerDir targetDir
    addOns w
  = match mergePackageJSON projectName options base ts tw fr fragments with
    | Ok final =>
        writeFile (resolve [targetDir; "package.json"])
          (JSON_stringify (VObj final)) w
    | Err e => (Err e, w)
    end.
Proof.
  intros Hbase Hm Hts Htw Hfr Hfrag. unfold createPackageJSON, loaded in *.
  destruct (typescript options), (tailwind options),
    (is_FILE_ROUTER (mode options));
    repeat match goal with
      | H : exists _, _ |- _ => destruct H as [? [? ?]]
      end;
    subst;
    repeat (unfold bind at 1;
            repeat match goal with
              | H : ?x = _ |- context [?x] => rewrite H
              end;
            cbn [lift ret]);
    now destruct (mergePackageJSON _ _ _ _ _ _ _).
Qed.

End WriteFacts.

(** ** The command line and the pre-flight check *)

Lemma existsSync_run (p : string) (w : world) :
  existsSync p w
  = (Ok (match Fs.stat (fs w) p with Some _ => true | None => false end), w).
Proof. reflexivity. Qed.

Section OrchestratorFacts.

Context {E : Externals}.

(** C4.  When add-ons are asked for and the template is not the
    file-router one, the action throws its configuration error before
    anything else happens: the world is as it was, no directory, no file
    and no message have been made. *)
Theorem C4_addOns_need_file_router
  (projectName : string) (options : CliOptions) (w : world) :
  cli_addOns options = true ->
  is_file_router (cli_template options) = false ->
  action projectName options w
  = (Err (InvalidArgumentError
            "Add-ons are only available for the file-router template"),
     w).
Proof.
  intros Ha Ht. unfold action, action_options, bind, lift, throw.
  rewrite Ha, Ht. reflexivity.
Qed.

(** C5.  When the target path exists at the pre-flight check, [createApp]
    returns normally after its error message, with the file system as it
    was; when it does not exist, the run goes on with the scaffold. *)
Theorem C5_existing_target_aborts
  (projectName : string) (options : Options) (w : world) :
  (forall e,
     Fs.stat (fs w) (resolve [cwd; projectName]) = Some e ->
     createApp projectName options w
     = (Ok tt,
        mkWorld (fs w)
          (trace w ++ [LogError ("Directory " ++ dquote ++ projectName
                                 ++ dquote ++ " already exists")])%list))
  /\ (Fs.stat (fs w) (resolve [cwd; projectName]) = None ->
      createApp projectName options w
      = scaffold projectName options (templates ++ "/base")
          (templates ++ "/" ++ Mode_name (mode options))
          (resolve [cwd; projectName]) w).
Proof.
  split.
  - intros e H. unfold createApp. cbv zeta. unfold bind at 1.
    rewrite existsSync_run, H. reflexivity.
  - intros H. unfold createApp. cbv zeta. unfold bind at 1.
    rewrite existsSync_run, H. reflexivity.
Qed.

(** C10.  The options the action hands to [createApp] have styling on
    whenever add-ons are asked for, and no add-on chosen yet; so the
    options of a generation, once the add-ons are chosen, have styling on
    whenever an add-on is chosen, and the templates are rendered with it
    on. *)
Theorem C10_addOns_force_tailwind
  (cli : CliOptions) (options : Options) :
  action_options cli = Ok options ->
  (addOns options = true -> tailwind options = true)
  /\ chosenAddOns options = []
  /\ (forall w options' w',
        chooseAddOns options w = (Ok options', w') ->
        chosenAddOns options' <> [] ->
        tailwind options' = true
        /\ forall projectName,
             tv_tailwind (templateValues projectName options') = true).
Proof.
  unfold action_options. intros H.
  assert (Hopt : (addOns options = true -> tailwind options = true)
                 /\ chosenAddOns options = []).
  { destruct (cli_addOns cli) eqn:Ha.
    - destruct (is_file_router (cli_template cli)); [|discriminate H].
      injection H as <-. split; reflexivity.
    - injection H as <-. cbn. rewrite Ha. split; [discriminate | reflexivity]. }
  destruct Hopt as [Hon Hnone]. split; [exact Hon|]. split; [exact Hnone|].
  intros w options' w' Hc Hne. unfold chooseAddOns in Hc.
  destruct (addOns options) eqn:Ha.
  - unfold bind in Hc. destruct (getAllAddOns w) as [[all|e] w1];
      [|discriminate Hc].
    destruct (pickAddOns all w1) as [[chosen|e] w2]; [|discriminate Hc].
    injection Hc as <- _. cbn. split; [now apply Hon | intros _; now apply Hon].
  - injection Hc as <- _. now rewrite Hnone in Hne.
Qed.

End OrchestratorFacts.

Lemma C4_addOns_need_file_router_witness :
  cli_addOns Sample.cli = true
  /\ is_file_router (cli_template Sample.cli) = false
  /\ fst (action (E := Sample.externals) "demo" Sample.cli Sample.machine)
     = Err (InvalidArgumentError
              "Add-ons are only available for the file-router template")
  /\ snd (action (E := Sample.externals) "demo" Sample.cli Sample.machine)
     = Sample.machine.
Proof.
  split; [reflexivity|]. split; [reflexivity|].
  rewrite (C4_addOns_need_file_router (E := Sample.externals) "demo"
             Sample.cli Sample.machine eq_refl eq_refl).
  split; reflexivity.
Defined.

Lemma C5_existing_target_aborts_witness :
  Fs.stat (fs Sample.machine) "/home/user/demo" = Some Dir
  /\ fs (snd (createApp (E := Sample.externals) "demo" Sample.plain
                Sample.machine))
     = fs Sample.machine.
Proof.
  split; [reflexivity|].
  rewrite (proj1 (C5_existing_target_aborts (E := Sample.externals) "demo"
                    Sample.plain Sample.machine) Dir eq_refl).
  reflexivity.
Defined.

Lemma C10_addOns_force_tailwind_witness :
  action_options (mkCliOptions template_file_router false "npm" true)
  = Ok (mkOptions true true "npm" FILE_ROUTER true [])
  /\ tailwind (mkOptions true true "npm" FILE_ROUTER true []) = true.
Proof.
  split; [reflexivity|].
  apply (proj1 (C10_addOns_force_tailwind (E := Sample.externals)
                  (mkCliOptions template_file_router false "npm" true)
                  (mkOptions true true "npm" FILE_ROUTER true []) eq_refl)).
  reflexivity.
Defined.

(** ** The two phases of the add-ons *)

Lemma forEach_app {A : Type} (body : A -> M unit) (l1 l2 : list A) :
  forall w,
    forEach (l1 ++ l2)%list body w
    = (forEach l1 body ;; forEach l2 body) w.
Proof.
  induction l1 as [|a l1 IH]; intros w; [reflexivity|].
  cbn [app forEach]. unfold bind.
  destruct (body a w) as [[u|e] w1]; [|reflexivity].
  rewrite IH. reflexivity.
Qed.

Lemma before_filter {A : Type} (p : A -> bool) (a b : A) (l : list A) :
  before a b l -> p a = true -> p b = true -> before a b (filter p l).
Proof.
  intros [l1 [l2 [l3 ->]]] Ha Hb.
  exists (filter p l1), (filter p l2), (filter p l3).
  rewrite filter_app. cbn [filter]. rewrite Ha, filter_app. cbn [filter].
  now rewrite Hb.
Qed.

Lemma before_app_left {A : Type} (a b : A) (l l' : list A) :
  before a b l -> before a b (l ++ l')%list.
Proof.
  intros [l1 [l2 [l3 ->]]]. exists l1, l2, (l3 ++ l')%list.
  repeat (rewrite <- app_assoc || rewrite <- app_comm_cons). reflexivity.
Qed.

Lemma before_app_right {A : Type} (a b : A) (l l' : list A) :
  before a b l -> before a b (l' ++ l)%list.
Proof.
  intros [l1 [l2 [l3 ->]]]. exists (l' ++ l1)%list, l2, l3.
  now rewrite <- app_assoc.
Qed.

Lemma before_across {A : Type} (a b : A) (l l' : list A) :
  In a l -> In b l' -> before a b (l ++ l')%list.
Proof.
  intros Ha Hb. apply in_split in Ha as [l1 [l2 ->]].
  apply in_split in Hb as [l3 [l4 ->]].
  exists l1, (l2 ++ l3)%list, l4.
  repeat (rewrite <- app_assoc || rewrite <- app_comm_cons). reflexivity.
Qed.

(** ** Strings *)

Section StringFacts.

Implicit Types (s pat rep p q suf : string).

Lemma prefix_append pat q : prefix pat (pat ++ q) = true.
Proof.
  induction pat as [|c pat IH]; cbn [prefix append].
  - now destruct q.
  - destruct (ascii_dec c c) as [_|Hne]; [exact IH | congruence].
Qed.

Lemma drop_append pat q : JsString.drop (String.length pat) (pat ++ q) = q.
Proof.
  induction pat as [|c pat IH]; cbn [String.length append JsString.drop].
  - now destruct q.
  - exact IH.
Qed.

Lemma replace_unfold pat rep s :
  JsString.replace pat rep s
  = if prefix pat s then rep ++ JsString.drop (String.length pat) s
    else match s with
         | EmptyString => EmptyString
         | String c s' => String c (JsString.replace pat rep s')
         end.
Proof. destruct s; reflexivity. Qed.

Lemma includes_unfold s pat :
  JsString.includes s pat
  = if prefix pat s then true
    else match s with
         | EmptyString => false
         | String _ s' => JsString.includes s' pat
         end.
Proof. destruct s; reflexivity. Qed.

(** Where the pattern does not occur nothing is replaced. *)
Lemma replace_absent pat rep s :
  JsString.includes s pat = false -> JsString.replace pat rep s = s.
Proof.
  induction s as [|c s IH]; rewrite includes_unfold, replace_unfold;
    destruct (prefix pat _); intros H; try discriminate H.
  - reflexivity.
  - now rewrite IH.
Qed.

(** Where the pattern occurs, the occurrence that starts first is the one
    replaced: the string is [p ++ pat ++ q] with no occurrence of the
    pattern starting inside [p], and it becomes [p ++ rep ++ q]. *)
Lemma replace_first pat rep s :
  JsString.includes s pat = true ->
  exists p q,
    s = p ++ pat ++ q
    /\ JsString.replace pat rep s = p ++ rep ++ q
    /\ forall p1 p2, p = p1 ++ p2 -> p2 <> "" ->
         prefix pat (p2 ++ pat ++ q) = false.
Proof.
  induction s as [|c s IH]; rewrite includes_unfold, replace_unfold;
    destruct (prefix pat _) eqn:Hp; intros H; try discriminate H.
  - exists "", (JsString.drop (String.length pat) "").
    apply prefix_correct in Hp. destruct pat; [|discriminate Hp].
    repeat split. intros p1 p2 Hp12 Hne. destruct p1; simpl in Hp12; congruence.
  - exists "", (JsString.drop (String.length pat) (String c s)).
    assert (Hs : String c s
                 = pat ++ JsString.drop (String.length pat) (String c s)).
    { clear -Hp. revert Hp. generalize (String c s). clear.
      induction pat as [|a pat IH]; intros s Hp; [reflexivity|].
      destruct s as [|b s]; [discriminate Hp|]. cbn [prefix] in Hp.
      destruct (ascii_dec a b) as [->|]; [|discriminate Hp].
      cbn [String.length JsString.drop append]. f_equal. now apply IH. }
    repeat split; [exact Hs|].
    intros p1 p2 Hp12 Hne. destruct p1; simpl in Hp12; congruence.
  - destruct (IH H) as [p [q [Hs [Hr Hfirst]]]].
    exists (String c p), q. repeat split.
    + cbn [append]. now rewrite <- Hs.
    + cbn [append]. now rewrite Hr.
    + intros p1 p2 Hp12 Hne. destruct p1 as [|c1 p1].
      * cbn [append] in Hp12. subst p2. cbn [append].
        rewrite <- Hs. exact Hp.
      * cbn [append] in Hp12. injection Hp12 as _ Hp12.
        now apply (Hfirst p1 p2).
Qed.

Lemma substring_all s : substring 0 (String.length s) s = s.
Proof. induction s as [|c s IH]; cbn; [reflexivity | now rewrite IH]. Qed.

(** A string that ends with [suf] is some string followed by [suf]. *)
Lemma endsWith_append s suf :
  JsString.endsWith s suf = true -> exists p, s = p ++ suf.
Proof.
  unfold JsString.endsWith. induction s as [|c s IH]; intros H;
    apply andb_prop in H as [Hlen Heq];
    apply Nat.leb_le in Hlen; apply String.eqb_eq in Heq.
  - exists "". destruct suf; [reflexivity | cbn in Hlen; lia].
  - cbn [String.length] in Hlen, Heq.
    destruct (Nat.eq_dec (String.length suf) (S (String.length s)))
      as [E|Hne].
    + exists "". rewrite E, Nat.sub_diag in Heq.
      change (S (String.length s)) with (String.length (String c s)) in Heq.
      now rewrite substring_all in Heq.
    + assert (Hle : (String.length suf <= String.length s)%nat) by lia.
      replace (S (String.length s) - String.length suf)%nat
        with (S (String.length s - String.length suf)) in Heq by lia.
      cbn [substring] in Heq.
      destruct IH as [p ->].
      * apply andb_true_intro. split; [now apply Nat.leb_le|].
        now apply String.eqb_eq.
      * now exists (String c p).
Qed.

Lemma last_char_append p suf :
  suf <> "" -> last_char (p ++ suf) = last_char suf.
Proof.
  intros Hne. unfold last_char.
  replace (list_ascii_of_string (p ++ suf))
    with (list_ascii_of_string p ++ list_ascii_of_string suf)%list.
  - rewrite rev_app_distr.
    destruct suf as [|c suf]; [congruence|]. cbn [list_ascii_of_string].
    cbn [rev]. destruct (rev (list_ascii_of_string suf)); reflexivity.
  - clear. induction p as [|c p IH]; cbn; [reflexivity | now rewrite IH].
Qed.

(** No file name carries the append qualifier and the render qualifier
    both at its end. *)
Lemma endsWith_append_not_ejs s :
  JsString.endsWith s ".append" = true -> JsString.endsWith s ".ejs" = false.
Proof.
  intros H. destruct (JsString.endsWith s ".ejs") eqn:H'; [|reflexivity].
  apply endsWith_append in H as [p Hp].
  apply endsWith_append in H' as [p' Hp'].
  assert (Hl : last_char s = Some "d"%char)
    by (rewrite Hp, last_char_append; [reflexivity | discriminate]).
  rewrite Hp', last_char_append in Hl by discriminate.
  discriminate Hl.
Qed.

End StringFacts.

(** ** The file composers *)

Lemma statSync_run (p : string) (w : world) :
  statSync p w
  = match Fs.stat (fs w) p with
    | Some e => (Ok e, w)
    | None => (Err (Fs.missing (fs w) p), w)
    end.
Proof.
  unfold statSync, bind, get_fs. now destruct (Fs.stat (fs w) p).
Qed.

Lemma readdirSync_run (p : string) (w : world) :
  readdirSync p w
  = match Fs.stat (fs w) p with
    | Some Dir => (Ok (Fs.children (fs w) (Fs.canon p)), w)
    | Some (File _) => (Err (SystemError "ENOTDIR" (Fs.canon p)), w)
    | None => (Err (Fs.missing (fs w) p), w)
    end.
Proof.
  unfold readdirSync, bind, get_fs.
  now destruct (Fs.stat (fs w) p) as [[c|]|].
Qed.

Lemma readFile_run (p : string) (w : world) :
  readFile p w
  = match Fs.get_file (fs w) p with
    | Ok c => (Ok c, w)
    | Err e => (Err e, w)
    end.
Proof.
  unfold readFile, bind, get_fs, lift. now destruct (Fs.get_file (fs w) p).
Qed.

Lemma mkdir_run (p : string) (w : world) :
  mkdir p w
  = match Fs.make_dirs (fs w) (Fs.ancestors p) with
    | Ok f => (Ok tt, mkWorld f (trace w))
    | Err e => (Err e, w)
    end.
Proof.
  unfold mkdir, bind, get_fs, lift, put_fs.
  now destruct (Fs.make_dirs (fs w) (Fs.ancestors p)).
Qed.

Lemma find_set_other (f : Fs.t) (p q : string) (e : entry) :
  p <> q -> Fs.find (Fs.set f p e) q = Fs.find f q.
Proof.
  intros Hne. induction f as [|[r e'] f IH]; cbn [Fs.set Fs.find].
  - now rewrite (proj2 (String.eqb_neq p q)).
  - destruct (String.eqb_spec r p) as [->|Hrp]; cbn [Fs.find].
    + now rewrite (proj2 (String.eqb_neq p q)).
    + now rewrite IH.
Qed.

Lemma find_set_same (f : Fs.t) (p : string) (e : entry) :
  Fs.find (Fs.set f p e) p = Some e.
Proof.
  induction f as [|[r e'] f IH]; cbn [Fs.set Fs.find].
  - now rewrite String.eqb_refl.
  - destruct (String.eqb_spec r p) as [->|Hrp]; cbn [Fs.find].
    + now rewrite String.eqb_refl.
    + now rewrite (proj2 (String.eqb_neq r p)).
Qed.

(** Making directories leaves the entries that exist as they are. *)
Lemma make_dirs_keeps (dirs : list string) : forall (f f' : Fs.t) q e,
  Fs.make_dirs f dirs = Ok f' ->
  Fs.entry_at f q = Some e -> Fs.entry_at f' q = Some e.
Proof.
  induction dirs as [|d dirs IH]; intros f f' q e H Hq; cbn [Fs.make_dirs] in H.
  - now injection H as <-.
  - destruct (Fs.find f d) as [[c|]|] eqn:Hd.
    + discriminate H.
    + now apply (IH f).
    + apply (IH _ _ q e H). unfold Fs.entry_at in *.
      destruct (q =? "/"); [exact Hq|].
      rewrite find_set_other; [exact Hq|]. intros ->. congruence.
Qed.

Section ComposerFacts.

Context {E : Externals}.

(** C7, amended.  A template whose target ends in [.ts] or [.tsx] is
    formatted before it is written, with the fixed style (no semicolons,
    single quotes, trailing commas everywhere, the TypeScript parser);
    when the formatter fails, its error is the error of the run, as the
    formatter made it, and nothing is written.  Every other target, a
    [.js] or [.jsx] one too, is written as rendered, the formatter not
    being asked. *)
Theorem C7_typescript_targets_formatted
  (projectName : string) (options : Options)
  (targetDir templateDir file : string) (targetFileName : option string)
  (w : world) (template content : string) :
  Fs.get_file (fs w) (resolve [templateDir; file]) = Ok template ->
  render template (templateValues projectName options) = Ok content ->
  let target := match targetFileName with
                | Some t => t
                | None => JsString.replace ".ejs" "" file
                end in
  let write := fun text =>
    (mkdir (dirname (resolve [targetDir; target])) ;;
     writeFile (resolve [targetDir; target]) text) in
  prettierOptions = mkFormatOptions false true "all" "typescript"
  /\ (formatted_target target = true ->
      (forall text,
         format content prettierOptions = Ok text ->
         createTemplateFile projectName options targetDir templateDir file
           targetFileName w = write text w)
      /\ (forall e,
            format content prettierOptions = Err e ->
            createTemplateFile projectName options targetDir templateDir
              file targetFileName w = (Err e, w)))
  /\ (formatted_target target = false ->
      createTemplateFile projectName options targetDir templateDir file
        targetFileName w = write content w).
Proof.
  intros Hread Hrender target write.
  assert (Hstart : forall k : string -> M unit,
            (template <- readFile (resolve [templateDir; file]) ;;
             content <- lift (render template
                                (templateValues projectName options)) ;;
             k content) w = k content w).
  { intros k. unfold bind. rewrite readFile_run, Hread, Hrender.
    reflexivity. }
  split; [reflexivity|]. unfold formatted_target.
  split; [intros Hf; split; [intros text Ht | intros e He] | intros Hf];
    unfold createTemplateFile; rewrite Hstart; fold target; rewrite Hf;
    unfold bind at 1.
  - rewrite Ht. reflexivity.
  - rewrite He. reflexivity.
  - reflexivity.
Qed.

(** C2, amended.  An asset that carries the append qualifier and whose
    target does not exist yet is no error: once the directory of the
    asset's target is made, the target is created with the content of
    the asset, and nothing else changes. *)
Theorem C2_append_creates_missing_target
  (depth : nat) (source target : string)
  (cf : string -> string -> M unit)
  (tf : string -> option string -> M unit)
  (w w1 : world) (content : string) :
  Fs.stat (fs w) source = Some (File content) ->
  JsString.endsWith source ".append" = true ->
  mkdir (dirname target) w = (Ok tt, w1) ->
  Fs.stat (fs w1) (JsString.replace ".append" "" target) = None ->
  Fs.stat (fs w1)
    (Path.dirname (Fs.canon (JsString.replace ".append" "" target)))
  = Some Dir ->
  copyFilesRecursively (S depth) source target cf tf w
  = (Ok tt,
     mkWorld
       (Fs.set (fs w1) (Fs.canon (JsString.replace ".append" "" target))
          (File content))
       (trace w1)).
Proof.
  intros Hs Ha Hm Hnone Hdir.
  cbn [copyFilesRecursively]. unfold bind at 1.
  rewrite statSync_run, Hs. cbn [is_directory].
  rewrite (endsWith_append_not_ejs _ Ha), Ha.
  unfold bind at 1. rewrite Hm.
  assert (Hs1 : Fs.stat (fs w1) source = Some (File content)).
  { rewrite mkdir_run in Hm.
    destruct (Fs.make_dirs (fs w) (Fs.ancestors (dirname target)))
      as [f|e] eqn:Hf; [|discriminate Hm].
    injection Hm as <-. cbn [fs]. unfold Fs.stat in *.
    now apply (make_dirs_keeps _ _ _ _ _ Hf). }
  unfold bind at 1. rewrite readFile_run. unfold Fs.get_file. rewrite Hs1.
  unfold appendFile, bind, get_fs, lift, put_fs. rewrite Hnone.
  unfold Fs.put_file. unfold Fs.stat in Hnone. rewrite Hnone, Hdir.
  reflexivity.
Qed.

End ComposerFacts.

Lemma C7_typescript_targets_formatted_witness :
  Fs.get_file (fs Sample.machine)
    (resolve (E := Sample.externals)
       ["/pkg/templates/base"; "./src/App.tsx.ejs"])
  = Ok "const a = ;"
  /\ formatted_target "./src/App.tsx" = true
  /\ createTemplateFile (E := Sample.externals) "demo" Sample.plain
       "/home/user/demo" "/pkg/templates/base" "./src/App.tsx.ejs" None
       Sample.machine
     = (mkdir "/home/user/demo/src" ;;
        writeFile "/home/user/demo/src/App.tsx" "formatted const a = ;")
         Sample.machine.
Proof.
  split; [reflexivity|]. split; [reflexivity|].
  exact (proj1 (proj1 (proj2
           (C7_typescript_targets_formatted (E := Sample.externals) "demo"
              Sample.plain "/home/user/demo" "/pkg/templates/base"
              "./src/App.tsx.ejs" None Sample.machine "const a = ;"
              "const a = ;" eq_refl eq_refl)) eq_refl)
           "formatted const a = ;" eq_refl).
Defined.

(** C7 as stated fails.  The formatter is given the rendered text and the
    style, not the file; when it rejects the text of [App.tsx], the run
    fails with the formatter's own error, which names neither the
    template nor its target. *)
Lemma C7_counterexample :
  ~ render_error_names_file (E := Sample.strict) "demo" Sample.plain
      "/home/user/demo" "/pkg/templates/base" "./src/App.tsx.ejs" None
      Sample.machine.
Proof.
  intros H. specialize (H _ _ eq_refl). vm_compute in H.
  destruct H as [H|[H|[H|H]]]; discriminate H.
Qed.

Lemma C2_append_creates_missing_target_witness :
  Fs.stat (fs Sample.machine)
    "/pkg/templates/add-ons/start/assets/README.md.append"
  = Some (File "## Start")
  /\ Fs.stat (fs Sample.machine) "/home/user/demo/README.md" = None
  /\ copyFilesRecursively (E := Sample.externals) 1
       "/pkg/templates/add-ons/start/assets/README.md.append"
       "/home/user/demo/README.md.append" copyFile (fun _ _ => ret tt)
       Sample.machine
     = (Ok tt,
        mkWorld
          (Fs.set (fs Sample.machine) "/home/user/demo/README.md"
             (File "## Start"))
          (trace Sample.machine)).
Proof.
  split; [reflexivity|]. split; [reflexivity|].
  exact (C2_append_creates_missing_target (E := Sample.externals) 0
           "/pkg/templates/add-ons/start/assets/README.md.append"
           "/home/user/demo/README.md.append" copyFile (fun _ _ => ret tt)
           Sample.machine Sample.machine "## Start"
           eq_refl eq_refl eq_refl eq_refl eq_refl).
Defined.

(** C2 as stated fails.  The project directory has no [README.md]; the
    asset tree of the add-on holds [README.md.append]; composing the tree
    raises no error and leaves a [README.md] with the text of the
    asset. *)
Lemma C2_counterexample :
  Fs.stat (fs Sample.machine) "/home/user/demo/README.md" = None
  /\ Fs.children (fs Sample.machine) "/pkg/templates/add-ons/start/assets"
     = ["README.md.append"]
  /\ ~ missing_append_target_rejected (E := Sample.externals) 64
         "/pkg/templates/add-ons/start/assets/README.md.append"
         "/home/user/demo/README.md.append" Sample.machine
  /\ copyFilesRecursively (E := Sample.externals) 64
       "/pkg/templates/add-ons/start/assets" "/home/user/demo" copyFile
       (fun _ _ => ret tt) Sample.machine
     = (Ok tt,
        mkWorld
          (fs Sample.machine
           ++ [("/home/user/demo/README.md", File "## Start")])%list
          []).
Proof.
  split; [reflexivity|]. split; [reflexivity|]. split; [|reflexivity].
  intros [e [w' [H _]]]. vm_compute in H. discriminate H.
Qed.

(** * Further properties *)

(** ** [sortObject] and the sections of the manifest *)

Lemma fold_assign_no_proto (o : obj) (l : list string) : forall acc,
  has acc "__proto__" = false ->
  has (fold_left (fun acc key => assign acc key (prop o key)) l acc)
    "__proto__" = false.
Proof.
  induction l as [|key l IH]; intros acc H; [exact H|].
  cbn [fold_left]. apply IH. unfold assign.
  destruct (String.eqb_spec key "__proto__") as [->|Hne].
  - rewrite H. exact H.
  - cbn [andb]. unfold has. rewrite lookup_define.
    rewrite (proj2 (String.eqb_neq _ _) Hne). exact H.
Qed.

Lemma sortObject_no_proto (v r : value) :
  sortObject v = Ok r -> lookup (own r) "__proto__" = None.
Proof.
  intros H. apply sortObject_Ok in H as [_ ->]. cbn [own].
  pose proof (fold_assign_no_proto (own v)
                (JsString.sort (keys (own v))) [] eq_refl) as Hp.
  unfold has in Hp. now destruct (lookup _ "__proto__").
Qed.

(** The object [sortObject] returns binds every key as the object it is
    given does, the key [__proto__] apart, which it never binds. *)
Theorem sortObject_bindings (v r : value) :
  sortObject v = Ok r ->
  (forall k, k <> "__proto__" -> lookup (own r) k = lookup (own v) k)
  /\ lookup (own r) "__proto__" = None.
Proof.
  intros H. split.
  - intros k Hk. now apply (sortObject_lookup v r k).
  - now apply (sortObject_no_proto v r).
Qed.

Lemma sortObject_bindings_witness :
  sortObject (prop Sample.proto "dependencies")
  = Ok (VObj [])
  /\ lookup (own (VObj [])) "__proto__" = None.
Proof.
  split; [reflexivity|].
  exact (proj2 (sortObject_bindings (prop Sample.proto "dependencies")
                  (VObj []) eq_refl)).
Defined.

(** When no key of the object is an array index, [sortObject] returns
    an object whose keys are in the strictly ascending order of their
    code units, and they are the keys of the object, [__proto__]
    apart. *)
Theorem sortObject_sorts_named_keys (v r : value) :
  sortObject v = Ok r ->
  (forall k, In k (keys (own v)) -> array_index k = None) ->
  lexicographic (keys (own r)) = true
  /\ forall k,
       In k (keys (own r)) <-> In k (keys (own v)) /\ k <> "__proto__".
Proof.
  intros H Hi. split; [now apply (sortObject_lexicographic v r)|].
  intros k. rewrite <- !has_true_iff. unfold has.
  destruct (String.eqb_spec k "__proto__") as [->|Hk].
  - rewrite (sortObject_no_proto v r H).
    split; [discriminate | intros [_ Hne]; congruence].
  - rewrite (sortObject_lookup v r k H Hk). tauto.
Qed.

Lemma sortObject_sorts_named_keys_witness :
  sortObject (strings [("zod", "^3.24.2"); ("react", "^19.0.0")])
  = Ok (strings [("react", "^19.0.0"); ("zod", "^3.24.2")])
  /\ lexicographic ["react"; "zod"] = true.
Proof.
  split; [reflexivity|].
  apply (sortObject_sorts_named_keys
           (strings [("zod", "^3.24.2"); ("react", "^19.0.0")])
           (strings [("react", "^19.0.0"); ("zod", "^3.24.2")]) eq_refl).
  intros k [<-|[<-|[]]]; reflexivity.
Defined.

Section DefinedFacts.

Variables (projectName : string) (options : Options).
Variables (base ts tw fr : obj) (addOns : list obj).
Hypothesis base_keys : NoDup (keys base).

Lemma defined_merge_section s s' p f :
  NoDup (keys p) ->
  defined (prop (merge_section s p f) s')
  = (s =? s') || defined (prop p s').
Proof.
  intros Hp. unfold prop. rewrite lookup_merge_section by exact Hp.
  now destruct (s =? s').
Qed.

Lemma defined_fold s l : forall p,
  NoDup (keys p) -> In s sections ->
  defined (prop (fold_left merge_addOn l p) s)
  = defined (prop p s) || nonempty l.
Proof.
  induction l as [|a l IH]; intros p Hp Hin.
  - cbn. now rewrite orb_false_r.
  - cbn [fold_left nonempty].
    rewrite IH by (try apply manifest_ok_merge_addOn_keys; exact Hin).
    unfold prop at 1. rewrite lookup_merge_addOn by exact Hp.
    rewrite (proj1 (In_sections s) Hin). cbn. now rewrite orb_true_r.
Qed.

Lemma merge_section_keys s p f : NoDup (keys (merge_section s p f)).
Proof.
  unfold merge_section. apply NoDup_define, NoDup_spread. constructor.
Qed.

Lemma unsorted_defined s :
  In s sections ->
  defined (prop (unsorted_manifest projectName options base ts tw fr addOns)
             s)
  = defined (prop base s)
    || (typescript options && ("devDependencies" =? s))
    || (tailwind options && ("dependencies" =? s))
    || (is_FILE_ROUTER (mode options) && ("dependencies" =? s))
    || nonempty addOns.
Proof.
  intros Hin. unfold unsorted_manifest.
  assert (Hn : NoDup (keys (assign base "name" (VStr projectName))))
    by now apply NoDup_assign.
  assert (Hd : defined (prop (assign base "name" (VStr projectName)) s)
               = defined (prop base s)).
  { unfold prop. rewrite lookup_assign_other; [reflexivity|].
    intros <-. unfold sections in Hin. cbn in Hin. intuition discriminate. }
  rewrite defined_fold;
    [| destruct (is_FILE_ROUTER (mode options)), (tailwind options),
         (typescript options);
       first [ apply merge_section_keys | exact Hn ]
     | exact Hin ].
  f_equal.
  destruct (is_FILE_ROUTER (mode options)), (tailwind options),
    (typescript options);
    repeat rewrite defined_merge_section
      by first [ apply merge_section_keys | exact Hn ];
    rewrite Hd; cbn [andb orb];
    destruct ("dependencies" =? s), ("devDependencies" =? s),
      (defined (prop base s)); reflexivity.
Qed.

(** [createPackageJSON] produces a manifest exactly when each of
    [dependencies] and [devDependencies] is in the base manifest or is
    written by a merge step; otherwise sorting the missing section throws
    a [TypeError].  So a base manifest without [dependencies] is an error
    for a code-router run without styling and add-ons, and no error as
    soon as one add-on is chosen. *)
Theorem mergePackageJSON_succeeds_iff :
  let ready :=
    (defined (prop base "dependencies") || tailwind options
     || is_FILE_ROUTER (mode options) || nonempty addOns)
    && (defined (prop base "devDependencies") || typescript options
        || nonempty addOns) in
  (ready = true ->
   exists final,
     mergePackageJSON projectName options base ts tw fr addOns = Ok final)
  /\ (ready = false ->
      mergePackageJSON projectName options base ts tw fr addOns
      = Err (TypeError "Cannot convert undefined or null to object")).
Proof.
  intros ready. rewrite mergePackageJSON_unfold.
  assert (Hd : defined
                 (prop (unsorted_manifest projectName options base ts tw fr
                          addOns) "dependencies")
               = defined (prop base "dependencies") || tailwind options
                 || is_FILE_ROUTER (mode options) || nonempty addOns).
  { rewrite (unsorted_defined "dependencies" (or_introl eq_refl)).
    change ("devDependencies" =? "dependencies") with false.
    change ("dependencies" =? "dependencies") with true.
    now rewrite andb_false_r, !andb_true_r, orb_false_r. }
  assert (Hv : defined
                 (prop (unsorted_manifest projectName options base ts tw fr
                          addOns) "devDependencies")
               = defined (prop base "devDependencies") || typescript options
                 || nonempty addOns).
  { rewrite (unsorted_defined "devDependencies"
               (or_intror (or_introl eq_refl))).
    change ("devDependencies" =? "devDependencies") with true.
    change ("dependencies" =? "devDependencies") with false.
    now rewrite !andb_false_r, andb_true_r, !orb_false_r. }
  subst ready. rewrite <- Hd, <- Hv. split; intros H.
  - apply andb_prop in H as [H1 H2].
    destruct (sortObject_defined _ H1) as [d ->].
    destruct (sortObject_defined _ H2) as [dv ->].
    eexists. reflexivity.
  - destruct (prop _ "dependencies") eqn:E1; cbn [defined sortObject] in *;
      try reflexivity;
      destruct (prop _ "devDependencies") eqn:E2;
      cbn [defined sortObject andb] in *; try reflexivity; discriminate H.
Qed.

End DefinedFacts.

Lemma mergePackageJSON_succeeds_iff_witness :
  NoDup (keys [("name", VStr "template")])
  /\ mergePackageJSON "demo" (mkOptions false false "npm" CODE_ROUTER false [])
       [("name", VStr "template")] [] [] [] []
     = Err (TypeError "Cannot convert undefined or null to object")
  /\ exists final,
       mergePackageJSON "demo"
         (mkOptions false false "npm" CODE_ROUTER false [])
         [("name", VStr "template")] [] [] [] [Sample.addOn] = Ok final.
Proof.
  assert (H : NoDup (keys [("name", VStr "template")]))
    by (apply distinctb_NoDup; reflexivity).
  split; [exact H|]. split.
  - exact (proj2 (mergePackageJSON_succeeds_iff "demo"
                    (mkOptions false false "npm" CODE_ROUTER false [])
                    [("name", VStr "template")] [] [] [] [] H) eq_refl).
  - exact (proj1 (mergePackageJSON_succeeds_iff "demo"
                    (mkOptions false false "npm" CODE_ROUTER false [])
                    [("name", VStr "template")] [] [] [] [Sample.addOn] H)
             eq_refl).
Defined.

(** ** Computations that only read *)

Section ReadOnlyFacts.

Lemma read_only_ret {A : Type} (a : A) : read_only (ret a).
Proof. intros w. reflexivity. Qed.

Lemma read_only_throw {A : Type} (e : error) : read_only (@throw A e).
Proof. intros w. reflexivity. Qed.

Lemma read_only_lift {A : Type} (r : result A) : read_only (lift r).
Proof. intros w. now destruct r. Qed.

Lemma read_only_bind {A B : Type} (m : M A) (k : A -> M B) :
  read_only m -> (forall a, read_only (k a)) -> read_only (bind m k).
Proof.
  intros Hm Hk w. unfold bind. specialize (Hm w).
  destruct (m w) as [[a|e] w1]; cbn [snd] in *; subst w1.
  - apply Hk.
  - reflexivity.
Qed.

Lemma read_only_get_fs : read_only get_fs.
Proof. intros w. reflexivity. Qed.

Lemma read_only_existsSync p : read_only (existsSync p).
Proof. intros w. reflexivity. Qed.

Lemma read_only_statSync p : read_only (statSync p).
Proof. intros w. rewrite statSync_run. now destruct (Fs.stat (fs w) p). Qed.

Lemma read_only_isDirectory p : read_only (isDirectory p).
Proof.
  apply read_only_bind; [apply read_only_statSync|].
  intros e. apply read_only_ret.
Qed.

Lemma read_only_readdirSync p : read_only (readdirSync p).
Proof.
  intros w. unfold readdirSync, bind, get_fs.
  now destruct (Fs.stat (fs w) p) as [[c|]|].
Qed.

Lemma read_only_readFile p : read_only (readFile p).
Proof.
  intros w. rewrite readFile_run. now destruct (Fs.get_file (fs w) p).
Qed.

Lemma read_only_filterM {A : Type} (p : A -> M bool) (l : list A) :
  (forall a, read_only (p a)) -> read_only (filterM p l).
Proof.
  intros Hp. induction l as [|a l IH]; cbn [filterM].
  - apply read_only_ret.
  - apply read_only_bind; [apply Hp|]. intros b.
    apply read_only_bind; [exact IH|]. intros rest. apply read_only_ret.
Qed.

Lemma read_only_mapA {A B : Type} (f : A -> M B) (l : list A) :
  (forall a, read_only (f a)) -> read_only (mapA f l).
Proof.
  intros Hf. induction l as [|a l IH]; cbn [mapA].
  - apply read_only_ret.
  - apply read_only_bind; [apply Hf|]. intros b.
    apply read_only_bind; [exact IH|]. intros rest. apply read_only_ret.
Qed.

Context {E : Externals}.

Lemma read_only_readJSON p : read_only (readJSON p).
Proof.
  apply read_only_bind; [apply read_only_readFile|].
  intros text. apply read_only_lift.
Qed.

Lemma read_only_getAllAddOns : read_only getAllAddOns.
Proof.
  unfold getAllAddOns. cbv zeta.
  apply read_only_bind; [apply read_only_readdirSync|]. intros entries.
  apply read_only_bind.
  { apply read_only_filterM. intros file. apply read_only_isDirectory. }
  intros dirs. apply read_only_mapA. intros dir.
  apply read_only_bind; [apply read_only_readFile|]. intros fileContent.
  apply read_only_bind; [apply read_only_existsSync|]. intros hasPackage.
  apply read_only_bind.
  { destruct hasPackage; [apply read_only_readJSON | apply read_only_ret]. }
  intros packageAdditions.
  apply read_only_bind; [apply read_only_existsSync|]. intros hasReadme.
  apply read_only_bind.
  { destruct hasReadme; [|apply read_only_ret].
    apply read_only_bind; [apply read_only_readFile|].
    intros text. apply read_only_ret. }
  intros readme. apply read_only_bind; [apply read_only_lift|].
  intros info. apply read_only_ret.
Qed.

Lemma pickAddOns_run (addOns : list AddOn) (w : world) :
  pickAddOns addOns w
  = (match multiselect "Select add-ons:" (offered addOns) with
     | Ok (Selected additionalTools) =>
         Ok (filter (fun addOn =>
                       existsb (fun tool => tool =? id addOn) additionalTools)
               addOns)
     | Ok Cancelled =>
         match addOns with
         | [] => Ok []
         | _ :: _ => Err (TypeError "additionalTools.includes is not a function")
         end
     | Err e => Err e
     end,
     shows (Prompt "Select add-ons:" (offered addOns)) w).
Proof.
  unfold pickAddOns. cbv zeta. fold (offered addOns).
  unfold bind, emit, lift, shows.
  destruct (multiselect "Select add-ons:" (offered addOns)) as [[tools|]|e];
    try reflexivity.
  now destruct addOns.
Qed.

Lemma keeps_files_pickAddOns addOns : keeps_files (pickAddOns addOns).
Proof. intros w. now rewrite pickAddOns_run. Qed.

(** Loading the catalog writes nothing and shows nothing, whether it
    returns or throws; the prompt is shown on the terminal and writes no
    file.  So a run whose catalog does not load, or whose prompt fails or
    is left, ends with that error before the target directory is made:
    the files are as they were, and the terminal shows the prompt, if the
    catalog was loaded, and nothing else. *)
Theorem selection_failure_writes_nothing
  (projectName : string) (options : Options) (w w' : world) (e : error) :
  Fs.stat (fs w) (resolve [cwd; projectName]) = None ->
  chooseAddOns options w = (Err e, w') ->
  read_only getAllAddOns
  /\ (forall addOns, keeps_files (pickAddOns addOns))
  /\ createApp projectName options w = (Err e, w')
  /\ fs w' = fs w
  /\ (getAllAddOns w = (Err e, w) /\ w' = w
      \/ exists catalog,
           getAllAddOns w = (Ok catalog, w)
           /\ w' = shows (Prompt "Select add-ons:" (offered catalog)) w).
Proof.
  intros Hfree Hc. split; [apply read_only_getAllAddOns|].
  split; [apply keeps_files_pickAddOns|].
  split.
  { unfold createApp. cbv zeta. unfold bind at 1.
    rewrite existsSync_run, Hfree. unfold scaffold. unfold bind at 1.
    now rewrite Hc. }
  assert (Hw : getAllAddOns w = (Err e, w) /\ w' = w
               \/ exists catalog,
                    getAllAddOns w = (Ok catalog, w)
                    /\ w' = shows (Prompt "Select add-ons:"
                                     (offered catalog)) w).
  { unfold chooseAddOns in Hc. destruct (addOns options); [|discriminate Hc].
    unfold bind at 1 in Hc.
    pose proof (read_only_getAllAddOns w) as Hro.
    destruct (getAllAddOns w) as [[catalog|e0] w1]; cbn [snd] in Hro;
      subst w1.
    - right. exists catalog. split; [reflexivity|].
      unfold bind at 1 in Hc. rewrite pickAddOns_run in Hc.
      destruct (match multiselect _ (offered catalog) with
                | Ok _ => _ | Err _ => _ end); [discriminate Hc|].
      now injection Hc as _ <-.
    - left. injection Hc as <- <-. now split. }
  split; [|exact Hw].
  destruct Hw as [[_ ->]|[catalog [_ ->]]]; reflexivity.
Qed.

End ReadOnlyFacts.

Lemma selection_failure_writes_nothing_witness :
  Fs.stat (fs Bench.machine)
    (resolve (E := Bench.cancelled) ["/home/user"; "fresh"]) = None
  /\ createApp (E := Bench.cancelled) "fresh"
       (mkOptions true true "npm" FILE_ROUTER true []) Bench.machine
     = (Err (TypeError "additionalTools.includes is not a function"),
        mkWorld (fs Bench.machine)
          [Prompt "Select add-ons:"
             [mkSelectOption "form" "" ""; mkSelectOption "start" "" ""]])
  /\ fs (mkWorld (fs Bench.machine)
           [Prompt "Select add-ons:"
              [mkSelectOption "form" "" ""; mkSelectOption "start" "" ""]])
     = fs Bench.machine.
Proof.
  split; [reflexivity|].
  pose proof (selection_failure_writes_nothing (E := Bench.cancelled) "fresh"
                (mkOptions true true "npm" FILE_ROUTER true []) Bench.machine
                (mkWorld (fs Bench.machine)
                   [Prompt "Select add-ons:"
                      [mkSelectOption "form" "" "";
                       mkSelectOption "start" "" ""]])
                (TypeError "additionalTools.includes is not a function")
                eq_refl eq_refl) as [_ [_ [Hrun [Hfs _]]]].
  split; [exact Hrun | exact Hfs].
Defined.

(** ** The add-on catalog and the prompt *)

Lemma before_cons {A : Type} (x a b : A) (l : list A) :
  before a b l -> before a b (x :: l).
Proof.
  intros [l1 [l2 [l3 ->]]]. now exists (x :: l1), l2, l3.
Qed.

Lemma before_filter_inv {A : Type} (p : A -> bool) (a b : A) (l : list A) :
  before a b (filter p l) -> before a b l.
Proof.
  induction l as [|x l IH]; intros [l1 [l2 [l3 H]]].
  - destruct l1; discriminate H.
  - cbn [filter] in H. destruct (p x).
    + destruct l1 as [|y l1]; cbn [app] in H; injection H as -> H.
      * assert (Hb : In b (filter p l))
          by (rewrite H; apply in_or_app; right; now left).
        apply filter_In in Hb as [Hb _].
        apply in_split in Hb as [m1 [m2 ->]]. now exists [], m1, m2.
      * apply before_cons, IH. now exists l1, l2, l3.
    + apply before_cons, IH. now exists l1, l2, l3.
Qed.

Lemma filterM_filter {A : Type} (p : A -> M bool) (q : world -> A -> bool)
  (l : list A) :
  (forall a, read_only (p a)) ->
  (forall a w b w', p a w = (Ok b, w') -> b = q w a) ->
  forall w r w', filterM p l w = (Ok r, w') -> r = filter (q w) l.
Proof.
  intros Hro Hq. induction l as [|a l IH]; intros w r w' H.
  - now injection H as <- _.
  - cbn [filterM filter] in *. unfold bind in H.
    pose proof (Hro a w) as Hw. pose proof (Hq a w) as Hb.
    destruct (p a w) as [[b|e] w1]; [|discriminate H].
    cbn [snd] in Hw. subst w1. specialize (Hb b w eq_refl). subst b.
    destruct (filterM p l w) as [[rest|e] w2] eqn:Er; [|discriminate H].
    injection H as <- _. now rewrite (IH w rest w2 Er).
Qed.

Lemma mapA_Forall2 {A B : Type} (f : A -> M B)
  (R : world -> A -> B -> Prop) (l : list A) :
  (forall a, read_only (f a)) ->
  (forall a w b w', f a w = (Ok b, w') -> R w a b) ->
  forall w bs w', mapA f l w = (Ok bs, w') -> Forall2 (R w) l bs.
Proof.
  intros Hro Hf. induction l as [|a l IH]; intros w bs w' H.
  - injection H as <- _. constructor.
  - cbn [mapA] in H. unfold bind in H.
    pose proof (Hro a w) as Hw.
    destruct (f a w) as [[b|e] w1] eqn:Ea; [|discriminate H].
    cbn [snd] in Hw. subst w1.
    destruct (mapA f l w) as [[rest|e] w2] eqn:Er; [|discriminate H].
    injection H as <- _. constructor; [now apply (Hf a w b w) |].
    now apply (IH w rest w2).
Qed.

Lemma isDirectory_run (path : string) (w : world) (b : bool) (w' : world) :
  isDirectory path w = (Ok b, w') ->
  b = match Fs.stat (fs w) path with Some Dir => true | _ => false end.
Proof.
  unfold isDirectory, bind. rewrite statSync_run.
  destruct (Fs.stat (fs w) path) as [[c|]|]; intros H;
    try discriminate H; now injection H as <- _.
Qed.

Lemma lookup_spread_absent (k : string) (src t : obj) :
  lookup src k = None ->
  lookup (fold_left (fun t kv => define t (fst kv) (snd kv)) src t) k
  = lookup t k.
Proof.
  revert t. induction src as [|[k' x] src IH]; intros t Hs; [reflexivity|].
  cbn [fold_left fst snd]. cbn [lookup] in Hs.
  destruct (String.eqb_spec k' k) as [->|Hne]; [discriminate Hs|].
  rewrite IH by exact Hs. rewrite lookup_define.
  now rewrite (proj2 (String.eqb_neq _ _) Hne).
Qed.

Section RegistryFacts.

Context {E : Externals}.

(** The prompt is shown with one option for each add-on of the catalog
    and writes no file.  The add-ons [pickAddOns] returns are those of
    the catalog whose id the prompt answered, each once, in the order of
    the catalog, whatever the order of the answer.  When the prompt is
    left without an answer, the call throws a type error as soon as the
    catalog has an add-on, and returns nothing for an empty catalog; the
    prompt's own failure is the failure of the call. *)
Theorem pickAddOns_in_catalog_order (catalog : list AddOn) (w : world) :
  let asked := shows (Prompt "Select add-ons:" (offered catalog)) w in
  (forall answer,
     multiselect "Select add-ons:" (offered catalog) = Ok (Selected answer) ->
     exists chosen,
       pickAddOns catalog w = (Ok chosen, asked)
       /\ (forall a, In a chosen <-> In a catalog /\ In (id a) answer)
       /\ (forall a b, before a b chosen -> before a b catalog)
       /\ (NoDup catalog -> NoDup chosen))
  /\ (multiselect "Select add-ons:" (offered catalog) = Ok Cancelled ->
      pickAddOns catalog w
      = (match catalog with
         | [] => Ok []
         | _ :: _ =>
             Err (TypeError "additionalTools.includes is not a function")
         end, asked))
  /\ (forall e,
        multiselect "Select add-ons:" (offered catalog) = Err e ->
        pickAddOns catalog w = (Err e, asked))
  /\ fs asked = fs w
  /\ offered catalog
     = map (fun addOn =>
              mkSelectOption (id addOn) (name addOn) (description addOn))
         catalog.
Proof.
  intros asked. split; [|split; [|split; [|split; reflexivity]]].
  - intros answer H. eexists. rewrite pickAddOns_run, H.
    split; [reflexivity|]. split; [|split].
    + intros a. rewrite filter_In, existsb_exists. split.
      * intros [Hin [tool [Ht Heq]]]. apply String.eqb_eq in Heq.
        subst tool. now split.
      * intros [Hin Hid]. split; [exact Hin|]. exists (id a).
        split; [exact Hid | apply String.eqb_refl].
    + intros a b. apply before_filter_inv.
    + apply NoDup_filter.
  - intros H. now rewrite pickAddOns_run, H.
  - intros e H. now rewrite pickAddOns_run, H.
Qed.

Lemma loader_loads (dir : string) (w w' : world) (addOn : AddOn) :
  (let addOnsBase := templates ++ "/add-ons" in
   let filePath := resolve [addOnsBase; dir; "info.json"] in
   fileContent <- readFile filePath ;;
   hasPackage <- existsSync (resolve [addOnsBase; dir; "package.json"]) ;;
   packageAdditions <-
     (if hasPackage
      then readJSON (resolve [addOnsBase; dir; "package.json"])
      else ret (VObj [])) ;;
   hasReadme <- existsSync (resolve [addOnsBase; dir; "README.md"]) ;;
   readme <-
     (if hasReadme
      then text <- readFile (resolve [addOnsBase; dir; "README.md"]) ;;
           ret (Some text)
      else ret None) ;;
   info <- lift (JSON_parse fileContent) ;;
   ret (describe dir info (resolve [addOnsBase; dir])
          packageAdditions readme)) w = (Ok addOn, w') ->
  loaded_from w dir addOn.
Proof.
  cbv zeta. unfold loaded_from. cbv zeta.
  set (base := templates ++ "/add-ons").
  unfold bind at 1. rewrite readFile_run.
  destruct (Fs.get_file (fs w) (resolve [base; dir; "info.json"]))
    as [fileContent|e]; [|discriminate].
  unfold bind at 1. rewrite existsSync_run.
  assert (Hadd : forall (k : value -> M AddOn),
            (packageAdditions <-
               (if match Fs.stat (fs w) (resolve [base; dir; "package.json"])
                   with Some _ => true | None => false end
                then readJSON (resolve [base; dir; "package.json"])
                else ret (VObj [])) ;;
             k packageAdditions) w = (Ok addOn, w') ->
            exists additions,
              k additions w = (Ok addOn, w')
              /\ match Fs.stat (fs w) (resolve [base; dir; "package.json"])
                 with
                 | Some _ =>
                     exists text,
                       Fs.get_file (fs w)
                         (resolve [base; dir; "package.json"]) = Ok text
                       /\ JSON_parse text = Ok additions
                 | None => additions = VObj []
                 end).
  { intros k. unfold bind at 1.
    destruct (Fs.stat (fs w) (resolve [base; dir; "package.json"]))
      as [present|].
    - unfold readJSON, bind at 1. rewrite readFile_run.
      destruct (Fs.get_file (fs w) (resolve [base; dir; "package.json"]))
        as [text|e]; [|discriminate].
      destruct (JSON_parse text) as [additions|e] eqn:Ep; cbn [lift ret throw];
        [|discriminate].
      intros H. exists additions. split; [exact H|]. now exists text.
    - cbn [ret]. intros H. exists (VObj []). now split. }
  intros H. apply Hadd in H as [additions [H Hadditions]].
  unfold bind at 1 in H. rewrite existsSync_run in H.
  assert (Hread : forall (k : option string -> M AddOn),
            (readme <-
               (if match Fs.stat (fs w) (resolve [base; dir; "README.md"])
                   with Some _ => true | None => false end
                then text <- readFile (resolve [base; dir; "README.md"]) ;;
                     ret (Some text)
                else ret None) ;;
             k readme) w = (Ok addOn, w') ->
            exists text,
              k text w = (Ok addOn, w')
              /\ match Fs.stat (fs w) (resolve [base; dir; "README.md"])
                 with
                 | Some _ =>
                     exists t,
                       Fs.get_file (fs w) (resolve [base; dir; "README.md"])
                       = Ok t
                       /\ text = Some t
                 | None => text = None
                 end).
  { intros k. unfold bind at 1.
    destruct (Fs.stat (fs w) (resolve [base; dir; "README.md"]))
      as [present|].
    - unfold bind at 1. rewrite readFile_run.
      destruct (Fs.get_file (fs w) (resolve [base; dir; "README.md"]))
        as [t|e]; [|discriminate].
      cbn [ret]. intros H'. exists (Some t). split; [exact H'|].
      now exists t.
    - cbn [ret]. intros H'. exists None. now split. }
  apply Hread in H as [text [H Htext]].
  unfold bind in H.
  destruct (JSON_parse fileContent) as [info|e] eqn:Ei; cbn [lift ret throw] in H;
    [|discriminate H].
  injection H as <- _. cbn [packageAdditions readme].
  split; [|split; [exact Hadditions | exact Htext]].
  exists fileContent, info. now split.
Qed.

(** The catalog has one add-on for each sub-directory of the add-ons
    directory, in the order of its listing; what is not a directory there
    is passed over.  Each add-on is loaded from its directory: it is the
    parsed [info.json] of the directory, with the package additions
    parsed from its [package.json] (the empty object when there is none)
    and the text of its [README.md] (none when there is none).  Its id is
    the name of the directory unless the descriptor gives one, and its
    directory is the path of the directory whatever the descriptor
    says. *)
Theorem getAllAddOns_lists_directories
  (w w' : world) (catalog : list AddOn) :
  getAllAddOns w = (Ok catalog, w') ->
  Forall2 (loaded_from w) (addOn_directories w) catalog
  /\ map directory catalog
     = map (fun dir => resolve [templates ++ "/add-ons"; dir])
         (filter
            (fun file =>
               match Fs.stat (fs w) (resolve [templates ++ "/add-ons"; file])
               with
               | Some Dir => true
               | _ => false
               end)
            (Fs.children (fs w) (Fs.canon (templates ++ "/add-ons"))))
  /\ (forall dir addOn,
        loaded_from w dir addOn ->
        exists text info,
          Fs.get_file (fs w)
            (resolve [templates ++ "/add-ons"; dir; "info.json"]) = Ok text
          /\ JSON_parse text = Ok info
          /\ directory addOn = resolve [templates ++ "/add-ons"; dir]
          /\ (lookup (own info) "id" = None -> id addOn = dir)
          /\ (forall s, well_formed info ->
                lookup (own info) "id" = Some (VStr s) -> id addOn = s)
          /\ (forall s, well_formed info ->
                lookup (own info) "name" = Some (VStr s) -> name addOn = s)
          /\ (forall s, well_formed info ->
                lookup (own info) "phase" = Some (VStr s) ->
                phase addOn = s)).
Proof.
  intros H.
  assert (Hall : Forall2 (loaded_from w) (addOn_directories w) catalog).
  { unfold getAllAddOns in H. cbv zeta in H. unfold bind at 1 in H.
    rewrite readdirSync_run in H.
    destruct (Fs.stat (fs w) (templates ++ "/add-ons")) as [[c|]|];
      try discriminate H.
    unfold bind at 1 in H.
    destruct (filterM _ _ w) as [[dirs|e] w2] eqn:Hf; [|discriminate H].
    pose proof (read_only_filterM _
                  (Fs.children (fs w) (Fs.canon (templates ++ "/add-ons")))
                  (fun file => read_only_isDirectory
                                 (resolve [templates ++ "/add-ons"; file]))
                  w) as Hro.
    rewrite Hf in Hro. cbn [snd] in Hro. subst w2.
    apply (filterM_filter _
             (fun w file =>
                match Fs.stat (fs w) (resolve [templates ++ "/add-ons"; file])
                with Some Dir => true | _ => false end)) in Hf.
    - unfold addOn_directories. rewrite <- Hf. revert H.
      apply mapA_Forall2.
      + intros dir.
        apply read_only_bind; [apply read_only_readFile|]. intros fileContent.
        apply read_only_bind; [apply read_only_existsSync|]. intros hasPackage.
        apply read_only_bind.
        { destruct hasPackage; [apply read_only_readJSON | apply read_only_ret]. }
        intros additions.
        apply read_only_bind; [apply read_only_existsSync|]. intros hasReadme.
        apply read_only_bind.
        { destruct hasReadme; [|apply read_only_ret].
          apply read_only_bind; [apply read_only_readFile|].
          intros text. apply read_only_ret. }
        intros text. apply read_only_bind; [apply read_only_lift|].
        intros info. apply read_only_ret.
      + intros dir w0 b w0'. apply loader_loads.
    - intros file. apply read_only_isDirectory.
    - intros file w0 b w0'. apply isDirectory_run. }
  split; [exact Hall|]. split.
  - fold (addOn_directories w). clear H.
    induction Hall as [|dir a dirs rest [[text [info [_ [_ Ha]]]] _] _ IH];
      [reflexivity|].
    cbn [map]. rewrite IH. f_equal. rewrite Ha. reflexivity.
  - intros dir a [[text [info [Ht [Hi Ha]]]] _].
    exists text, info. split; [exact Ht|]. split; [exact Hi|].
    rewrite Ha. split; [reflexivity|]. unfold describe.
    cbn [id name phase]. unfold prop. split; [|split; [|split]].
    + intros Hnone. unfold spread. now rewrite lookup_spread_absent.
    + intros s Hwf Hid. rewrite lookup_spread by exact Hwf. now rewrite Hid.
    + intros s Hwf Hn. rewrite lookup_spread by exact Hwf. now rewrite Hn.
    + intros s Hwf Hp. rewrite lookup_spread by exact Hwf. now rewrite Hp.
Qed.

End RegistryFacts.

Lemma pickAddOns_in_catalog_order_witness :
  multiselect (Externals := Bench.externals) "Select add-ons:"
    (offered [Bench.form; Bench.start])
  = Ok (Selected ["tanstack-start"; "form"])
  /\ exists chosen,
       pickAddOns (E := Bench.externals) [Bench.form; Bench.start]
         Bench.machine
       = (Ok chosen,
          mkWorld (fs Bench.machine)
            [Prompt "Select add-ons:"
               [mkSelectOption "form" "Form" "";
                mkSelectOption "tanstack-start" "Start" ""]])
       /\ forall a b,
            before a b chosen -> before a b [Bench.form; Bench.start].
Proof.
  split; [reflexivity|].
  destruct (proj1 (pickAddOns_in_catalog_order (E := Bench.externals)
                     [Bench.form; Bench.start] Bench.machine)
              ["tanstack-start"; "form"] eq_refl)
    as [chosen [Hrun [_ [Horder _]]]].
  exists chosen. split; [exact Hrun | exact Horder].
Defined.

Lemma getAllAddOns_lists_directories_witness :
  getAllAddOns (E := Bench.externals) Bench.machine
  = (Ok [Bench.form; Bench.start], Bench.machine)
  /\ Forall2 (loaded_from (E := Bench.externals) Bench.machine)
       ["form"; "start"] [Bench.form; Bench.start]
  /\ map directory [Bench.form; Bench.start]
     = ["/pkg/templates/add-ons/form"; "/pkg/templates/add-ons/start"].
Proof.
  split; [reflexivity|].
  pose proof (getAllAddOns_lists_directories (E := Bench.externals)
                Bench.machine Bench.machine [Bench.form; Bench.start]
                eq_refl) as [Hall [Hdirs _]].
  split; [exact Hall | exact Hdirs].
Defined.

(** ** The options of a run *)

Lemma lookup_fold_assign_const {A : Type} (key : A -> string) (v0 : value)
  (l : list A) : forall acc k,
  k <> "__proto__" ->
  lookup (fold_left (fun acc a => assign acc (key a) v0) l acc) k
  = if existsb (fun a => key a =? k) l then Some v0 else lookup acc k.
Proof.
  induction l as [|a l IH]; intros acc k Hk; [reflexivity|].
  cbn [fold_left existsb]. rewrite IH by exact Hk.
  destruct (existsb (fun a => key a =? k) l); [now rewrite orb_true_r|].
  rewrite orb_false_r. destruct (String.eqb_spec (key a) k) as [<-|Hne].
  - now apply lookup_assign_same.
  - now apply lookup_assign_other.
Qed.

Section OptionFacts.

Context {E : Externals}.

(** The options the action builds: the language is typed unless the
    template is the javascript one, the mode is the file router exactly
    for the file-router template, and add-ons go with the file router,
    typed, with styling.  The action fails only for add-ons without the
    file-router template. *)
Theorem action_options_consistent (cli : CliOptions) :
  (forall options,
     action_options cli = Ok options ->
     typescript options
     = negb match cli_template cli with
            | template_javascript => true
            | _ => false
            end
     /\ is_FILE_ROUTER (mode options) = is_file_router (cli_template cli)
     /\ (is_FILE_ROUTER (mode options) = true -> typescript options = true)
     /\ (addOns options = true ->
         is_FILE_ROUTER (mode options) = true
         /\ typescript options = true /\ tailwind options = true)
     /\ (addOns options = false -> tailwind options = cli_tailwind cli)
     /\ addOns options = cli_addOns cli
     /\ packageManager options = cli_packageManager cli)
  /\ ((exists e, action_options cli = Err e)
      <-> cli_addOns cli = true
          /\ is_file_router (cli_template cli) = false).
Proof.
  unfold action_options. split.
  - intros options H.
    destruct cli as [template tw pm ao]. cbn in *.
    destruct ao, template; cbn in H; try discriminate H;
      injection H as <-; cbn; repeat split; intros; congruence.
  - destruct cli as [template tw pm ao]. cbn.
    destruct ao, template; cbn; split;
      try (intros [e He]; discriminate He);
      try (intros [H1 H2]; discriminate);
      try (intros _; split; reflexivity);
      try (intros _; eexists; reflexivity).
Qed.

(** The values the templates are rendered with: exactly one of the two
    router flags is on, the source extensions follow the language, and
    the add-ons marked as enabled are the chosen ones, by their id (an id
    [__proto__] apart). *)
Theorem templateValues_consistent (projectName : string) (options : Options) :
  tv_codeRouter (templateValues projectName options)
  = negb (tv_fileRouter (templateValues projectName options))
  /\ (tv_js (templateValues projectName options),
      tv_jsx (templateValues projectName options))
     = (if tv_typescript (templateValues projectName options)
        then ("ts", "tsx") else ("js", "jsx"))
  /\ tv_addOns (templateValues projectName options) = chosenAddOns options
  /\ forall i, i <> "__proto__" ->
       lookup (tv_addOnEnabled (templateValues projectName options)) i
       = if existsb (fun addOn => id addOn =? i) (chosenAddOns options)
         then Some (VBool true) else None.
Proof.
  split; [reflexivity|]. split; [cbn; now destruct (typescript options)|].
  split; [reflexivity|]. intros i Hi. cbn [templateValues tv_addOnEnabled].
  now rewrite (lookup_fold_assign_const id (VBool true)) by exact Hi.
Qed.

End OptionFacts.

Lemma action_options_consistent_witness :
  action_options (mkCliOptions template_file_router false "pnpm" true)
  = Ok (mkOptions true true "pnpm" FILE_ROUTER true [])
  /\ is_FILE_ROUTER (mode (mkOptions true true "pnpm" FILE_ROUTER true []))
     = true.
Proof.
  split; [reflexivity|].
  apply (proj1 (action_options_consistent
                  (mkCliOptions template_file_router false "pnpm" true))
           (mkOptions true true "pnpm" FILE_ROUTER true []) eq_refl).
Defined.

Lemma templateValues_consistent_witness :
  lookup
    (tv_addOnEnabled
       (templateValues "demo"
          (mkOptions true true "npm" FILE_ROUTER true [Bench.start])))
    "tanstack-start"
  = Some (VBool true).
Proof.
  apply (proj2 (proj2 (proj2
           (templateValues_consistent "demo"
              (mkOptions true true "npm" FILE_ROUTER true [Bench.start]))))
           "tanstack-start").
  discriminate.
Defined.

(** ** The add-ons the loop takes *)

Lemma schedule_known (chosen : list AddOn) :
  Permutation (schedule chosen) (filter known_phase chosen).
Proof.
  unfold schedule, known_phase, in_phase.
  induction chosen as [|a l IH]; [constructor|]. cbn [filter].
  destruct (String.eqb_spec (phase a) "setup") as [Hs|Hs].
  - rewrite Hs. change ("setup" =? "add-on") with false. cbn [orb app].
    now constructor.
  - cbn [orb]. destruct (phase a =? "add-on").
    + apply Permutation_sym, Permutation_cons_app, Permutation_sym, IH.
    + exact IH.
Qed.

Lemma filter_in_phase_known (p : string) (chosen : list AddOn) :
  (forall a, in_phase p a = true -> known_phase a = true) ->
  filter (in_phase p) (filter known_phase chosen)
  = filter (in_phase p) chosen.
Proof.
  intros Hp. induction chosen as [|a l IH]; [reflexivity|].
  cbn [filter]. destruct (known_phase a) eqn:Ek; cbn [filter].
  - now rewrite IH.
  - destruct (in_phase p a) eqn:Ei; [|exact IH].
    rewrite (Hp a Ei) in Ek. discriminate Ek.
Qed.

Section ScheduleFacts.

Context {E : Externals}.

Lemma composeAddOns_schedule targetDir chosen templateFile w :
  composeAddOns targetDir chosen templateFile w
  = forEach (schedule chosen) (setUpAddOn targetDir templateFile) w.
Proof.
  unfold composeAddOns, schedule. rewrite forEach_app.
  cbn [forEach]. fold (in_phase "setup"). fold (in_phase "add-on").
  unfold bind.
  destruct (forEach (filter (in_phase "setup") chosen) _ w)
    as [[u|e] w1]; [|reflexivity].
  destruct (forEach (filter (in_phase "add-on") chosen) _ w1)
    as [[[]|e] w2]; reflexivity.
Qed.

(** The loop sets up the chosen add-ons whose phase is [setup] or
    [add-on], each as often as it is chosen, and passes over an add-on of
    any other phase without an error; when every chosen add-on has one of
    the two phases, all of them are set up. *)
Theorem composeAddOns_known_phases_only
  (targetDir : string)
  (templateFile : string -> string -> option string -> M unit)
  (chosen : list AddOn) :
  (forall a, In a (schedule chosen) <-> In a chosen /\ known_phase a = true)
  /\ (forall w,
        composeAddOns targetDir chosen templateFile w
        = composeAddOns targetDir (filter known_phase chosen) templateFile w)
  /\ Permutation (schedule chosen) (filter known_phase chosen)
  /\ ((forall a, In a chosen -> known_phase a = true) ->
      Permutation (schedule chosen) chosen)
  /\ (NoDup chosen -> NoDup (schedule chosen)).
Proof.
  split; [|split; [|split; [|split]]].
  - intros a. rewrite <- filter_In. split; intros H.
    + now apply (Permutation_in _ (schedule_known chosen)).
    + now apply (Permutation_in _ (Permutation_sym (schedule_known chosen))).
  - intros w. rewrite !composeAddOns_schedule. unfold schedule.
    rewrite !filter_in_phase_known; try reflexivity;
      intros a Ha; unfold known_phase; rewrite Ha;
      [apply orb_true_r | reflexivity].
  - apply schedule_known.
  - intros Hall. rewrite schedule_known.
    replace (filter known_phase chosen) with chosen; [reflexivity|].
    symmetry. apply forallb_filter_id. now apply forallb_forall.
  - intros Hnd. apply (Permutation_NoDup (l := filter known_phase chosen)).
    + symmetry. apply schedule_known.
    + now apply NoDup_filter.
Qed.

End ScheduleFacts.

Lemma composeAddOns_known_phases_only_witness :
  (forall a, In a [Bench.form; Bench.start] -> known_phase a = true)
  /\ Permutation (schedule [Bench.form; Bench.start])
       [Bench.form; Bench.start]
  /\ schedule [Bench.odd_addOn; Bench.form] = [Bench.form].
Proof.
  assert (H : forall a, In a [Bench.form; Bench.start] ->
                        known_phase a = true)
    by (intros a [<-|[<-|[]]]; reflexivity).
  split; [exact H|]. split; [|reflexivity].
  exact (proj1 (proj2 (proj2 (proj2
           (composeAddOns_known_phases_only (E := Bench.externals)
              "/home/user/demo" (fun _ _ _ => ret tt)
              [Bench.form; Bench.start])))) H).
Defined.

(** ** Files written *)

Lemma put_file_sets (f f' : Fs.t) (p content : string) :
  Fs.put_file f p content = Ok f' ->
  Fs.entry_at f' (Fs.canon p) = Some (File content)
  /\ (forall q, q <> Fs.canon p -> Fs.entry_at f' q = Fs.entry_at f q)
  /\ Fs.entry_at f (Fs.canon p) <> Some Dir.
Proof.
  unfold Fs.put_file. intros H.
  destruct (Fs.entry_at f (Fs.canon p)) as [[c|]|] eqn:Ep;
    try discriminate H;
    (destruct (Fs.stat f (Path.dirname (Fs.canon p))) as [[c'|]|];
     try discriminate H; injection H as <-;
     assert (Hroot : (Fs.canon p =? "/") = false)
       by (destruct (String.eqb_spec (Fs.canon p) "/") as [Hr|];
           [unfold Fs.entry_at in Ep; rewrite Hr in Ep; cbn in Ep;
            discriminate Ep | reflexivity]);
     split; [|split]).
  all: try discriminate.
  all: try (unfold Fs.entry_at; rewrite Hroot; apply find_set_same).
  all: intros q Hq; unfold Fs.entry_at; destruct (q =? "/"); [reflexivity|];
    apply find_set_other; congruence.
Qed.

Lemma writeFile_run (p content : string) (w : world) :
  writeFile p content w
  = match Fs.put_file (fs w) p content with
    | Ok f => (Ok tt, mkWorld f (trace w))
    | Err e => (Err e, w)
    end.
Proof.
  unfold writeFile, bind, get_fs, lift, put_fs.
  now destruct (Fs.put_file (fs w) p content).
Qed.

Lemma appendFile_run (p content : string) (w : world) :
  appendFile p content w
  = match Fs.put_file (fs w) p
            (match Fs.stat (fs w) p with Some (File c) => c | _ => "" end
             ++ content) with
    | Ok f => (Ok tt, mkWorld f (trace w))
    | Err e => (Err e, w)
    end.
Proof.
  unfold appendFile, bind, get_fs, lift, put_fs.
  now destruct (Fs.put_file (fs w) p _).
Qed.

(** What a copy leaves: the destination holds the content of the source,
    and nothing else has changed. *)
Lemma copyFile_copies (src dest : string) (w w' : world) :
  copyFile src dest w = (Ok tt, w') ->
  exists content,
    Fs.get_file (fs w) src = Ok content
    /\ Fs.get_file (fs w') dest = Ok content
    /\ trace w' = trace w
    /\ forall q, q <> Fs.canon dest ->
         Fs.entry_at (fs w') q = Fs.entry_at (fs w) q.
Proof.
  unfold copyFile, bind. rewrite readFile_run.
  destruct (Fs.get_file (fs w) src) as [content|e]; [|discriminate].
  rewrite writeFile_run.
  destruct (Fs.put_file (fs w) dest content) as [f|e] eqn:Ep; [|discriminate].
  intros H. injection H as <-. exists content.
  apply put_file_sets in Ep as [Hset [Hother _]].
  split; [reflexivity|]. split; [|split; [reflexivity | exact Hother]].
  unfold Fs.get_file, Fs.stat. cbn [fs]. now rewrite Hset.
Qed.

Section KeepFacts.

Lemma keeps_ret {A : Type} (a : A) : keeps_entries (ret a).
Proof. intros w p e H. exists e. now split. Qed.

Lemma keeps_throw {A : Type} (e : error) : keeps_entries (@throw A e).
Proof. intros w p e' H. exists e'. now split. Qed.

Lemma keeps_read_only {A : Type} (m : M A) :
  read_only m -> keeps_entries m.
Proof. intros Hm w p e H. rewrite Hm. exists e. now split. Qed.

Lemma keeps_bind {A B : Type} (m : M A) (k : A -> M B) :
  keeps_entries m -> (forall a, keeps_entries (k a)) ->
  keeps_entries (bind m k).
Proof.
  intros Hm Hk w p e H. unfold bind.
  destruct (Hm w p e H) as [e1 [H1 Hk1]].
  destruct (m w) as [[a|err] w1]; cbn [snd] in *.
  - destruct (Hk a w1 p e1 H1) as [e2 [H2 Hk2]].
    exists e2. split; [exact H2 | congruence].
  - exists e1. now split.
Qed.

Lemma keeps_forEach {A : Type} (l : list A) (body : A -> M unit) :
  (forall a, keeps_entries (body a)) -> keeps_entries (forEach l body).
Proof.
  intros Hb. induction l as [|a l IH]; cbn [forEach].
  - apply keeps_ret.
  - apply keeps_bind; [apply Hb | intros _; exact IH].
Qed.

Lemma keeps_mkdir p : keeps_entries (mkdir p).
Proof.
  intros w q e H. rewrite mkdir_run.
  destruct (Fs.make_dirs (fs w) (Fs.ancestors p)) as [f|err] eqn:Ef;
    cbn [snd fs]; exists e; split; try reflexivity; try exact H.
  now apply (make_dirs_keeps _ _ _ _ _ Ef).
Qed.

Lemma keeps_put (p content : string) (w : world) q e :
  Fs.entry_at (fs w) q = Some e ->
  exists e',
    Fs.entry_at
      (fs (snd (match Fs.put_file (fs w) p content with
                | Ok f => (Ok tt, mkWorld f (trace w))
                | Err e => (Err e, w)
                end)))
      q = Some e'
    /\ is_directory e' = is_directory e.
Proof.
  intros H.
  destruct (Fs.put_file (fs w) p content) as [f'|err] eqn:Ep; cbn [snd fs].
  - apply put_file_sets in Ep as [Hset [Hother Hnd]].
    destruct (String.eqb_spec q (Fs.canon p)) as [->|Hne].
    + exists (File content). split; [exact Hset|].
      destruct e; [reflexivity | congruence].
    + exists e. split; [now rewrite Hother | reflexivity].
  - exists e. now split.
Qed.

Lemma keeps_writeFile p content : keeps_entries (writeFile p content).
Proof. intros w q e H. rewrite writeFile_run. now apply keeps_put. Qed.

Lemma keeps_appendFile p content : keeps_entries (appendFile p content).
Proof. intros w q e H. rewrite appendFile_run. now apply keeps_put. Qed.

Lemma keeps_copyFile src dest : keeps_entries (copyFile src dest).
Proof.
  apply keeps_bind; [apply keeps_read_only, read_only_readFile|].
  intros content. apply keeps_writeFile.
Qed.

Context {E : Externals}.

Lemma keeps_createTemplateFile projectName options targetDir templateDir
  file targetFileName :
  keeps_entries
    (createTemplateFile projectName options targetDir templateDir file
       targetFileName).
Proof.
  unfold createTemplateFile.
  apply keeps_bind; [apply keeps_read_only, read_only_readFile|].
  intros template.
  apply keeps_bind; [apply keeps_read_only, read_only_lift|]. intros content.
  apply keeps_bind.
  { destruct (_ || _); apply keeps_read_only;
      [apply read_only_lift | apply read_only_ret]. }
  intros text. apply keeps_bind; [apply keeps_mkdir|].
  intros _. apply keeps_writeFile.
Qed.

Lemma keeps_copyFilesRecursively depth :
  forall source target cf tf,
    (forall s t, keeps_entries (cf s t)) ->
    (forall s t, keeps_entries (tf s t)) ->
    keeps_entries (copyFilesRecursively depth source target cf tf).
Proof.
  induction depth as [|depth IH]; intros source target cf tf Hcf Htf;
    cbn [copyFilesRecursively]; [apply keeps_throw|].
  apply keeps_bind; [apply keeps_read_only, read_only_statSync|].
  intros sourceStat. destruct (is_directory sourceStat).
  - apply keeps_bind; [apply keeps_read_only, read_only_readdirSync|].
    intros files. apply keeps_forEach. intros file. now apply IH.
  - destruct (JsString.endsWith source ".ejs").
    + apply keeps_bind; [apply keeps_mkdir | intros _; apply Htf].
    + apply keeps_bind; [apply keeps_mkdir|]. intros _.
      destruct (JsString.endsWith source ".append"); [|apply Hcf].
      apply keeps_bind; [apply keeps_read_only, read_only_readFile|].
      intros content. apply keeps_appendFile.
Qed.

(** Composing the assets of an add-on, whatever they are and whether it
    succeeds or fails midway, removes nothing: every file there was is
    still a file and every directory still a directory.  The same holds
    of each template that is rendered and of each file that is copied. *)
Theorem composeAssets_keeps_entries
  (projectName : string) (options : Options) (targetDir : string)
  (addOn : AddOn) :
  keeps_entries
    (composeAssets targetDir
       (createTemplateFile projectName options targetDir) addOn)
  /\ (forall templateDir file targetFileName,
        keeps_entries
          (createTemplateFile projectName options targetDir templateDir file
             targetFileName))
  /\ (forall templateDir files,
        keeps_entries (createCopyFiles targetDir templateDir files)).
Proof.
  split; [|split].
  - unfold composeAssets. cbv zeta.
    apply keeps_bind; [apply keeps_read_only, read_only_existsSync|].
    intros present. destruct present; [|apply keeps_ret].
    apply keeps_copyFilesRecursively.
    + apply keeps_copyFile.
    + intros s t. apply keeps_createTemplateFile.
  - intros. apply keeps_createTemplateFile.
  - intros templateDir files. unfold createCopyFiles.
    apply keeps_forEach. intros file. apply keeps_copyFile.
Qed.

End KeepFacts.

Lemma composeAssets_keeps_entries_witness :
  Fs.entry_at (fs Bench.machine) "/home/user/demo/README.md"
  = Some (File "# Demo")
  /\ exists e',
       Fs.entry_at
         (fs (snd (composeAssets (E := Bench.externals) "/home/user/demo"
                     (createTemplateFile (E := Bench.externals) "demo"
                        Bench.typed_options "/home/user/demo")
                     Bench.start Bench.machine)))
         "/home/user/demo/README.md" = Some e'
       /\ is_directory e' = false.
Proof.
  split; [reflexivity|].
  exact (proj1 (composeAssets_keeps_entries (E := Bench.externals) "demo"
                  Bench.typed_options "/home/user/demo" Bench.start)
           Bench.machine "/home/user/demo/README.md" (File "# Demo") eq_refl).
Defined.

(** ** What the composers write *)

Section TouchFacts.

Lemma touches_read_only {A : Type} (p : string) (m : M A) :
  read_only m -> touches_only p m.
Proof.
  intros Hm w. split; [now rewrite Hm | intros q _; now rewrite Hm].
Qed.

Lemma touches_bind {A B : Type} (p : string) (m : M A) (k : A -> M B) :
  touches_only p m -> (forall a, touches_only p (k a)) ->
  touches_only p (bind m k).
Proof.
  intros Hm Hk w. unfold bind. destruct (Hm w) as [Ht Hq].
  destruct (m w) as [[a|e] w1]; cbn [snd] in *.
  - destruct (Hk a w1) as [Ht' Hq']. split; [congruence|].
    intros q Hne. rewrite Hq' by exact Hne. now apply Hq.
  - split; [exact Ht | exact Hq].
Qed.

Lemma touches_writeFile (p content : string) :
  touches_only (Fs.canon p) (writeFile p content).
Proof.
  intros w. rewrite writeFile_run.
  destruct (Fs.put_file (fs w) p content) as [f|e] eqn:Ep; cbn [snd fs trace].
  - split; [reflexivity|]. now apply put_file_sets in Ep as [_ [Ho _]].
  - split; [reflexivity | intros; reflexivity].
Qed.

Context {E : Externals}.

(** [createPackageJSON] writes the manifest of the project and nothing
    else: whatever it is given and whether it returns or throws, every
    other path is as it was and nothing is shown. *)
Theorem createPackageJSON_touches_manifest_only
  (projectName : string) (options : Options)
  (templateDir routerDir targetDir : string) (addOns : list value) :
  touches_only (Fs.canon (resolve [targetDir; "package.json"]))
    (createPackageJSON projectName options templateDir routerDir targetDir
       addOns).
Proof.
  unfold createPackageJSON.
  assert (Hfrag : forall (b : bool) p,
            read_only (if b
                       then v <- readJSON p ;; lift (fragment_of v)
                       else ret [])).
  { intros b p. destruct b; [|apply read_only_ret].
    apply read_only_bind; [apply read_only_readJSON|].
    intros v. apply read_only_lift. }
  apply touches_bind; [apply touches_read_only, read_only_readJSON|].
  intros base. apply touches_bind; [apply touches_read_only, read_only_lift|].
  intros base'. apply touches_bind; [apply touches_read_only, Hfrag|].
  intros ts. apply touches_bind; [apply touches_read_only, Hfrag|].
  intros tw. apply touches_bind; [apply touches_read_only, Hfrag|].
  intros fr. apply touches_bind; [apply touches_read_only, read_only_lift|].
  intros frags.
  apply touches_bind; [apply touches_read_only, read_only_lift|].
  intros packageJSON. apply touches_writeFile.
Qed.

(** A template that cannot be read, rendered or formatted leaves the
    world as it was, and the error of the run is that of the reading, the
    rendering or the formatting; otherwise the run of the template
    function is the making of the target's directory and the writing of
    one text, the rendered template, formatted when the target is a
    TypeScript file. *)
Theorem templateFile_fails_before_writing
  (projectName : string) (options : Options)
  (targetDir templateDir file : string) (targetFileName : option string)
  (w : world) :
  let target := match targetFileName with
                | Some t => t
                | None => JsString.replace ".ejs" "" file
                end in
  let source := resolve [templateDir; file] in
  (exists e,
     createTemplateFile projectName options targetDir templateDir file
       targetFileName w = (Err e, w)
     /\ (Fs.get_file (fs w) source = Err e
         \/ (exists template,
               Fs.get_file (fs w) source = Ok template
               /\ render template (templateValues projectName options)
                  = Err e)
         \/ (exists template content,
               Fs.get_file (fs w) source = Ok template
               /\ render template (templateValues projectName options)
                  = Ok content
               /\ formatted_target target = true
               /\ format content prettierOptions = Err e)))
  \/ (exists template content text,
        Fs.get_file (fs w) source = Ok template
        /\ render template (templateValues projectName options) = Ok content
        /\ written target content text
        /\ createTemplateFile projectName options targetDir templateDir file
             targetFileName w
           = (mkdir (dirname (resolve [targetDir; target])) ;;
              writeFile (resolve [targetDir; target]) text) w).
Proof.
  intros target source.
  assert (Hrun :
    createTemplateFile projectName options targetDir templateDir file
      targetFileName w
    = match Fs.get_file (fs w) source with
      | Err e => (Err e, w)
      | Ok template =>
          match render template (templateValues projectName options) with
          | Err e => (Err e, w)
          | Ok content =>
              if formatted_target target
              then match format content prettierOptions with
                   | Err e => (Err e, w)
                   | Ok text =>
                       (mkdir (dirname (resolve [targetDir; target])) ;;
                        writeFile (resolve [targetDir; target]) text) w
                   end
              else (mkdir (dirname (resolve [targetDir; target])) ;;
                    writeFile (resolve [targetDir; target]) content) w
          end
      end).
  { unfold createTemplateFile, formatted_target. fold target. fold source.
    unfold bind at 1. rewrite readFile_run.
    destruct (Fs.get_file (fs w) source); [|reflexivity].
    unfold bind at 1.
    destruct (render _ (templateValues projectName options));
      cbn [lift ret throw]; [|reflexivity].
    unfold bind at 1.
    destruct (JsString.endsWith target ".ts"
              || JsString.endsWith target ".tsx"); [|reflexivity].
    now destruct (format _ prettierOptions). }
  rewrite Hrun. unfold written.
  destruct (Fs.get_file (fs w) source) as [template|e];
    [|left; exists e; split; [reflexivity | now left]].
  destruct (render template (templateValues projectName options))
    as [content|e] eqn:Er;
    [|left; exists e; split; [reflexivity|]; right; left; now exists template].
  destruct (formatted_target target) eqn:Ef.
  - destruct (format content prettierOptions) as [text|e] eqn:Et.
    + right. exists template, content, text. now repeat split.
    + left. exists e. split; [reflexivity|]. right. right.
      exists template, content. now repeat split.
  - right. exists template, content, content. now repeat split.
Qed.

(** [copyFiles] copies a file to the target directory under its name
    without the first [.tw]: after a copy that succeeds the target holds
    the content of the template file, no other path has changed, and a
    name without [.tw] is kept as it is. *)
Theorem copyFiles_copies
  (targetDir templateDir file : string) (w w' : world) :
  createCopyFiles targetDir templateDir [file] w = (Ok tt, w') ->
  (exists content,
     Fs.get_file (fs w) (resolve [templateDir; file]) = Ok content
     /\ Fs.get_file (fs w')
          (resolve [targetDir; JsString.replace ".tw" "" file])
        = Ok content)
  /\ (forall q,
        q <> Fs.canon (resolve [targetDir; JsString.replace ".tw" "" file]) ->
        Fs.entry_at (fs w') q = Fs.entry_at (fs w) q)
  /\ (JsString.includes file ".tw" = false ->
      JsString.replace ".tw" "" file = file).
Proof.
  intros H. cbn [createCopyFiles forEach] in H. unfold bind in H.
  destruct (copyFile _ _ w) as [[[]|e] w1] eqn:Ec; [|discriminate H].
  injection H as <-. apply copyFile_copies in Ec as [content [Hs [Ht [_ Ho]]]].
  split; [now exists content|]. split; [exact Ho|].
  apply replace_absent.
Qed.

(** The composer on a file that carries neither the render nor the
    append qualifier: when it succeeds, the target holds the content of
    the file. *)
Theorem copyFilesRecursively_copies_plain_file
  (depth : nat) (source target : string)
  (tf : string -> option string -> M unit) (w w' : world)
  (content : string) :
  Fs.stat (fs w) source = Some (File content) ->
  JsString.endsWith source ".ejs" = false ->
  JsString.endsWith source ".append" = false ->
  copyFilesRecursively (S depth) source target copyFile tf w = (Ok tt, w') ->
  Fs.get_file (fs w') target = Ok content
  /\ trace w' = trace w.
Proof.
  intros Hs He Ha H. cbn [copyFilesRecursively] in H. unfold bind at 1 in H.
  rewrite statSync_run, Hs in H. cbn [is_directory] in H.
  rewrite He, Ha in H. unfold bind at 1 in H. rewrite mkdir_run in H.
  destruct (Fs.make_dirs (fs w) (Fs.ancestors (dirname target)))
    as [f|e] eqn:Ef; [|discriminate H].
  apply copyFile_copies in H as [c [Hc [Ht [Htr _]]]].
  cbn [fs trace] in *.
  assert (Hs1 : Fs.get_file f source = Ok content).
  { unfold Fs.get_file, Fs.stat in *.
    now rewrite (make_dirs_keeps _ _ _ _ _ Ef Hs). }
  rewrite Hs1 in Hc. injection Hc as <-. now split.
Qed.

(** The composer on an asset that carries the append qualifier and whose
    target is a file: the target ends up with its old content followed
    by the content of the asset, and nothing else changes. *)
Theorem copyFilesRecursively_appends
  (depth : nat) (source target : string)
  (cf : string -> string -> M unit)
  (tf : string -> option string -> M unit)
  (w w1 : world) (content old : string) :
  Fs.stat (fs w) source = Some (File content) ->
  JsString.endsWith source ".append" = true ->
  mkdir (dirname target) w = (Ok tt, w1) ->
  Fs.stat (fs w1) (JsString.replace ".append" "" target) = Some (File old) ->
  Fs.stat (fs w1) source = Some (File content) ->
  Fs.stat (fs w1)
    (Path.dirname (Fs.canon (JsString.replace ".append" "" target)))
  = Some Dir ->
  copyFilesRecursively (S depth) source target cf tf w
  = (Ok tt,
     mkWorld
       (Fs.set (fs w1) (Fs.canon (JsString.replace ".append" "" target))
          (File (old ++ content)))
       (trace w1)).
Proof.
  intros Hs Ha Hm Hold Hs1 Hdir.
  cbn [copyFilesRecursively]. unfold bind at 1.
  rewrite statSync_run, Hs. cbn [is_directory].
  rewrite (endsWith_append_not_ejs _ Ha), Ha.
  unfold bind at 1. rewrite Hm.
  unfold bind at 1. rewrite readFile_run. unfold Fs.get_file. rewrite Hs1.
  rewrite appendFile_run, Hold. unfold Fs.put_file.
  unfold Fs.stat in Hold. rewrite Hold, Hdir. reflexivity.
Qed.

Lemma walk_no_file (f : Fs.t) (dirs : list string) :
  (forall d c, In d dirs -> Fs.find f d <> Some (File c)) ->
  Fs.walk f dirs = "ENOENT".
Proof.
  induction dirs as [|d dirs IH]; intros H; [reflexivity|].
  cbn [Fs.walk]. destruct (Fs.find f d) as [[c|]|] eqn:Ed.
  - exfalso. apply (H d c); [now left | exact Ed].
  - apply IH. intros d' c Hin. apply H. now right.
  - reflexivity.
Qed.

Lemma walk_file (f : Fs.t) (above below : list string) (d c : string) :
  directories f above ->
  Fs.find f d = Some (File c) ->
  Fs.walk f (above ++ d :: below) = "ENOTDIR".
Proof.
  intros Ha Hd. induction above as [|a above IH]; cbn [app Fs.walk].
  - now rewrite Hd.
  - rewrite (Ha a) by now left. apply IH. intros d' Hin. apply Ha.
    now right.
Qed.

(** The edges of the composer.  A source that has no entry is an error
    of the file system, and nothing changes: the error is ENOENT when no
    regular file lies on the way to the source, and ENOTDIR when one
    does, the directories above it being there.  A directory without
    entries is passed over without a trace in the target. *)
Theorem copyFilesRecursively_edges
  (depth : nat) (source target : string)
  (cf : string -> string -> M unit)
  (tf : string -> option string -> M unit) (w : world) :
  (Fs.stat (fs w) source = None ->
   exists code,
     copyFilesRecursively (S depth) source target cf tf w
     = (Err (SystemError code (Fs.canon source)), w)
     /\ ((forall d c,
            In d (Fs.ancestors source) ->
            Fs.find (fs w) d <> Some (File c)) ->
         code = "ENOENT")
     /\ (forall above d below c,
           Fs.ancestors source = (above ++ d :: below)%list ->
           directories (fs w) above ->
           Fs.find (fs w) d = Some (File c) ->
           code = "ENOTDIR"))
  /\ (Fs.stat (fs w) source = Some Dir ->
      Fs.children (fs w) (Fs.canon source) = [] ->
      copyFilesRecursively (S depth) source target cf tf w = (Ok tt, w)).
Proof.
  split; intros Hs; cbn [copyFilesRecursively]; unfold bind at 1;
    rewrite statSync_run, Hs.
  - exists (Fs.walk (fs w) (Fs.ancestors source)).
    split; [reflexivity|]. split.
    + apply walk_no_file.
    + intros above d below c -> Ha Hd. now apply walk_file with (c := c).
  - intros Hc. cbn [is_directory]. unfold bind at 1.
    rewrite readdirSync_run, Hs, Hc. reflexivity.
Qed.

(** The shadcn components asked of [npx] are those the chosen add-ons
    list, each of them once. *)
Theorem shadcn_components_once (components : list string) :
  NoDup (distinct [] components)
  /\ forall c, In c (distinct [] components) <-> In c components.
Proof.
  destruct (distinct_spec components []) as [Hnd Hin].
  split; [exact Hnd|]. intros c. rewrite Hin. cbn. tauto.
Qed.

End TouchFacts.

(** ** The further properties at work *)

Lemma written_dependencies_lexicographic_witness :
  exists final,
    mergePackageJSON "demo" Sample.options Sample.base Sample.ts Sample.tw
      Sample.fr [Sample.addOn] = Ok final
    /\ lexicographic (keys (own (prop final "dependencies"))) = true.
Proof.
  assert (Hd : Forall well_formed
                 (dependencies_writers Sample.options Sample.base Sample.tw
                    Sample.fr [Sample.addOn]))
    by (apply well_formed_all; reflexivity).
  assert (Hv : Forall well_formed
                 (devDependencies_writers Sample.options Sample.base
                    Sample.ts [Sample.addOn]))
    by (apply well_formed_all; reflexivity).
  assert (Hs : Forall well_formed (scripts_writers Sample.base [Sample.addOn]))
    by (apply well_formed_all; reflexivity).
  eexists. split; [reflexivity|].
  refine (proj1 (written_dependencies_lexicographic "demo" Sample.options
                   Sample.base Sample.ts Sample.tw Sample.fr [Sample.addOn] _
                   (distinctb_NoDup (keys Sample.base) eq_refl)
                   Hd Hv Hs eq_refl _)).
  intros w k Hw Hk.
  repeat (destruct Hw as [<-|Hw];
          [repeat (destruct Hk as [<-|Hk]; [reflexivity|]); destruct Hk|]).
  destruct Hw.
Defined.

Lemma written_scripts_in_insertion_order_witness :
  exists final,
    mergePackageJSON "demo" Sample.options Sample.base Sample.ts Sample.tw
      Sample.fr [Sample.addOn] = Ok final
    /\ keys (own (prop final "scripts")) = ["dev"; "build"].
Proof.
  assert (Hs : Forall well_formed (scripts_writers Sample.base [Sample.addOn]))
    by (apply well_formed_all; reflexivity).
  eexists. split; [reflexivity|].
  refine (written_scripts_in_insertion_order "demo" Sample.options
            Sample.base Sample.ts Sample.tw Sample.fr [Sample.addOn] _
            (distinctb_NoDup (keys Sample.base) eq_refl) Hs eq_refl _).
  intros w k Hw Hk.
  repeat (destruct Hw as [<-|Hw];
          [repeat (destruct Hk as [<-|Hk]; [reflexivity|]); destruct Hk|]).
  destruct Hw.
Defined.

Lemma createPackageJSON_writes_witness :
  createPackageJSON (E := Bench.externals) "demo" Bench.typed_options
    "/pkg/templates/base" "/pkg/templates/code-router" "/home/user/demo" []
    Bench.machine
  = writeFile "/home/user/demo/package.json" "{}" Bench.machine.
Proof.
  refine (eq_trans
            (createPackageJSON_writes (E := Bench.externals) "demo"
               Bench.typed_options "/pkg/templates/base"
               "/pkg/templates/code-router" "/home/user/demo" []
               Bench.machine (VObj Sample.base) Sample.base Sample.ts [] [] []
               eq_refl eq_refl _ eq_refl eq_refl eq_refl) eq_refl).
  exists (VObj Sample.ts). split; reflexivity.
Defined.

Lemma createPackageJSON_touches_manifest_only_witness :
  "/home/user/demo/README.md" <> "/home/user/demo/package.json"
  /\ Fs.entry_at
       (fs (snd (createPackageJSON (E := Bench.externals) "demo"
                   Bench.typed_options "/pkg/templates/base"
                   "/pkg/templates/code-router" "/home/user/demo" []
                   Bench.machine)))
       "/home/user/demo/README.md"
     = Fs.entry_at (fs Bench.machine) "/home/user/demo/README.md".
Proof.
  assert (H : "/home/user/demo/README.md" <> "/home/user/demo/package.json")
    by discriminate.
  split; [exact H|].
  exact (proj2 (createPackageJSON_touches_manifest_only
                  (E := Bench.externals) "demo" Bench.typed_options
                  "/pkg/templates/base" "/pkg/templates/code-router"
                  "/home/user/demo" [] Bench.machine)
           "/home/user/demo/README.md" H).
Defined.

Lemma copyFiles_copies_witness :
  createCopyFiles (E := Bench.externals) "/home/user/demo"
    "/pkg/templates/base" ["logo.tw.svg"] Bench.machine
  = (Ok tt,
     mkWorld (fs Bench.machine
              ++ [("/home/user/demo/logo.svg", File "<svg/>")])%list [])
  /\ exists content,
       Fs.get_file (fs Bench.machine) "/pkg/templates/base/logo.tw.svg"
       = Ok content
       /\ Fs.get_file
            (fs Bench.machine
             ++ [("/home/user/demo/logo.svg", File "<svg/>")])%list
            "/home/user/demo/logo.svg" = Ok content.
Proof.
  split; [reflexivity|].
  exact (proj1 (copyFiles_copies (E := Bench.externals) "/home/user/demo"
                  "/pkg/templates/base" "logo.tw.svg" Bench.machine
                  (mkWorld (fs Bench.machine
                            ++ [("/home/user/demo/logo.svg", File "<svg/>")])
                     []) eq_refl)).
Defined.

Lemma copyFilesRecursively_copies_plain_file_witness :
  Fs.stat (fs Bench.machine)
    "/pkg/templates/add-ons/start/assets/app.config.ts"
  = Some (File "export default {}")
  /\ Fs.get_file
       (fs Bench.machine
        ++ [("/home/user/demo/app.config.ts", File "export default {}")])%list
       "/home/user/demo/app.config.ts"
     = Ok "export default {}".
Proof.
  split; [reflexivity|].
  exact (proj1 (copyFilesRecursively_copies_plain_file
                  (E := Bench.externals) 0
                  "/pkg/templates/add-ons/start/assets/app.config.ts"
                  "/home/user/demo/app.config.ts" (fun _ _ => ret tt)
                  Bench.machine
                  (mkWorld
                     (fs Bench.machine
                      ++ [("/home/user/demo/app.config.ts",
                           File "export default {}")]) [])
                  "export default {}" eq_refl eq_refl eq_refl eq_refl)).
Defined.

Lemma copyFilesRecursively_appends_witness :
  Fs.stat (fs Bench.machine) "/home/user/demo/README.md"
  = Some (File "# Demo")
  /\ Fs.stat
       (fs (snd (copyFilesRecursively (E := Bench.externals) 1
                   "/pkg/templates/add-ons/start/assets/README.md.append"
                   "/home/user/demo/README.md.append" copyFile
                   (fun _ _ => ret tt) Bench.machine)))
       "/home/user/demo/README.md"
     = Some (File "# Demo## Start").
Proof.
  split; [reflexivity|].
  rewrite (copyFilesRecursively_appends (E := Bench.externals) 0
             "/pkg/templates/add-ons/start/assets/README.md.append"
             "/home/user/demo/README.md.append" copyFile (fun _ _ => ret tt)
             Bench.machine Bench.machine "## Start" "# Demo"
             eq_refl eq_refl eq_refl eq_refl eq_refl eq_refl).
  reflexivity.
Defined.

Lemma copyFilesRecursively_edges_witness :
  Fs.stat (fs Bench.mixed) "/nowhere/file" = None
  /\ copyFilesRecursively (E := Bench.externals) 1 "/nowhere/file"
       "/home/user/demo" copyFile (fun _ _ => ret tt) Bench.mixed
     = (Err (SystemError "ENOENT" "/nowhere/file"), Bench.mixed)
  /\ Fs.stat (fs Bench.mixed) "/pkg/assets/blocked/file" = None
  /\ copyFilesRecursively (E := Bench.externals) 1
       "/pkg/assets/blocked/file" "/home/user/demo" copyFile
       (fun _ _ => ret tt) Bench.mixed
     = (Err (SystemError "ENOTDIR" "/pkg/assets/blocked/file"), Bench.mixed)
  /\ copyFilesRecursively (E := Bench.externals) 1
       "/pkg/templates/add-ons/start/assets/empty" "/home/user/demo/empty"
       copyFile (fun _ _ => ret tt) Bench.machine
     = (Ok tt, Bench.machine).
Proof.
  split; [reflexivity|]. split; [|split; [reflexivity|split]].
  - destruct (proj1 (copyFilesRecursively_edges (E := Bench.externals) 0
                       "/nowhere/file" "/home/user/demo" copyFile
                       (fun _ _ => ret tt) Bench.mixed) eq_refl)
      as [code [Hrun [Hnone _]]].
    rewrite Hrun, Hnone; [reflexivity|].
    intros d c [<-|[<-|[]]]; discriminate.
  - destruct (proj1 (copyFilesRecursively_edges (E := Bench.externals) 0
                       "/pkg/assets/blocked/file" "/home/user/demo" copyFile
                       (fun _ _ => ret tt) Bench.mixed) eq_refl)
      as [code [Hrun [_ Hfile]]].
    rewrite Hrun,
      (Hfile ["/pkg"; "/pkg/assets"] "/pkg/assets/blocked"
         ["/pkg/assets/blocked/file"] "not a directory" eq_refl);
      [reflexivity| |reflexivity].
    intros d [<-|[<-|[]]]; reflexivity.
  - exact (proj2 (copyFilesRecursively_edges (E := Bench.externals) 0
                    "/pkg/templates/add-ons/start/assets/empty"
                    "/home/user/demo/empty" copyFile (fun _ _ => ret tt)
                    Bench.machine) eq_refl eq_refl).
Defined.

Lemma templateFile_fails_before_writing_witness :
  createTemplateFile (E := Sample.externals) "demo" Sample.plain
    "/home/user/demo" "/pkg/templates/base" "./src/App.tsx.ejs" None
    Sample.machine
  = (mkdir "/home/user/demo/src" ;;
     writeFile "/home/user/demo/src/App.tsx" "formatted const a = ;")
      Sample.machine.
Proof.
  destruct (templateFile_fails_before_writing (E := Sample.externals) "demo"
              Sample.plain "/home/user/demo" "/pkg/templates/base"
              "./src/App.tsx.ejs" None Sample.machine)
    as [[e [Hrun _]]|[template [content [text [Hread [Hrender [Htext Hrun]]]]]]].
  - vm_compute in Hrun. discriminate Hrun.
  - vm_compute in Hread. injection Hread as <-.
    vm_compute in Hrender. injection Hrender as <-.
    vm_compute in Htext. injection Htext as <-.
    exact Hrun.
Defined.

(** ** What the composers show *)

Section SilentFacts.

Lemma silent_read_only {A : Type} (m : M A) : read_only m -> silent m.
Proof. intros Hm w. now rewrite Hm. Qed.

Lemma silent_bind {A B : Type} (m : M A) (k : A -> M B) :
  silent m -> (forall a, silent (k a)) -> silent (bind m k).
Proof.
  intros Hm Hk w. unfold bind. specialize (Hm w).
  destruct (m w) as [[a|e] w1]; cbn [snd] in *.
  - now rewrite Hk.
  - exact Hm.
Qed.

Lemma silent_forEach {A : Type} (l : list A) (body : A -> M unit) :
  (forall a, silent (body a)) -> silent (forEach l body).
Proof.
  intros Hb. induction l as [|a l IH]; cbn [forEach].
  - apply silent_read_only, read_only_ret.
  - apply silent_bind; [apply Hb | intros _; exact IH].
Qed.

Lemma silent_mkdir p : silent (mkdir p).
Proof.
  intros w. rewrite mkdir_run.
  now destruct (Fs.make_dirs (fs w) (Fs.ancestors p)).
Qed.

Lemma silent_writeFile p content : silent (writeFile p content).
Proof.
  intros w. rewrite writeFile_run.
  now destruct (Fs.put_file (fs w) p content).
Qed.

Lemma silent_appendFile p content : silent (appendFile p content).
Proof.
  intros w. rewrite appendFile_run. now destruct (Fs.put_file (fs w) p _).
Qed.

Lemma silent_copyFile src dest : silent (copyFile src dest).
Proof.
  apply silent_bind; [apply silent_read_only, read_only_readFile|].
  intros content. apply silent_writeFile.
Qed.

Context {E : Externals}.

Lemma silent_createTemplateFile projectName options targetDir templateDir
  file targetFileName :
  silent
    (createTemplateFile projectName options targetDir templateDir file
       targetFileName).
Proof.
  unfold createTemplateFile.
  apply silent_bind; [apply silent_read_only, read_only_readFile|].
  intros template.
  apply silent_bind; [apply silent_read_only, read_only_lift|]. intros content.
  apply silent_bind.
  { destruct (_ || _); apply silent_read_only;
      [apply read_only_lift | apply read_only_ret]. }
  intros text. apply silent_bind; [apply silent_mkdir|].
  intros _. apply silent_writeFile.
Qed.

Lemma silent_copyFilesRecursively depth :
  forall source target cf tf,
    (forall s t, silent (cf s t)) ->
    (forall s t, silent (tf s t)) ->
    silent (copyFilesRecursively depth source target cf tf).
Proof.
  induction depth as [|depth IH]; intros source target cf tf Hcf Htf;
    cbn [copyFilesRecursively];
    [apply silent_read_only, read_only_throw|].
  apply silent_bind; [apply silent_read_only, read_only_statSync|].
  intros sourceStat. destruct (is_directory sourceStat).
  - apply silent_bind; [apply silent_read_only, read_only_readdirSync|].
    intros files. apply silent_forEach. intros file. now apply IH.
  - destruct (JsString.endsWith source ".ejs").
    + apply silent_bind; [apply silent_mkdir | intros _; apply Htf].
    + apply silent_bind; [apply silent_mkdir|]. intros _.
      destruct (JsString.endsWith source ".append"); [|apply Hcf].
      apply silent_bind; [apply silent_read_only, read_only_readFile|].
      intros content. apply silent_appendFile.
Qed.

End SilentFacts.

(** ** The loop over the chosen add-ons *)

Lemma forEach_ext {A : Type} (f g : A -> M unit) (l : list A) :
  (forall a w, f a w = g a w) ->
  forall w, forEach l f w = forEach l g w.
Proof.
  intros H. induction l as [|a l IH]; intros w; [reflexivity|].
  cbn [forEach]. unfold bind. rewrite H.
  destruct (g a w) as [[u|e] w1]; [apply IH | reflexivity].
Qed.

Lemma forEach_trace {A : Type} (body : A -> M unit) (g : A -> list event)
  (l : list A) :
  (forall a w w', body a w = (Ok tt, w') -> trace w' = (trace w ++ g a)%list) ->
  forall w w',
    forEach l body w = (Ok tt, w') ->
    trace w' = (trace w ++ flat_map g l)%list.
Proof.
  intros Hb. induction l as [|a l IH]; intros w w' H.
  - injection H as <-. cbn. now rewrite app_nil_r.
  - cbn [forEach flat_map] in *. unfold bind in H.
    destruct (body a w) as [[[]|e] w1] eqn:Ea; [|discriminate H].
    rewrite (IH _ _ H), (Hb _ _ _ Ea). now rewrite app_assoc.
Qed.

Section PhaseFacts.

Context {E : Externals}.

Variables (targetDir : string).
Variable templateFile : string -> string -> option string -> M unit.

Lemma setUpAddOn_processed (addOn : AddOn) (w : world) :
  setUpAddOn targetDir templateFile addOn w
  = processed targetDir templateFile addOn w.
Proof.
  unfold setUpAddOn, processed. unfold bind at 1. unfold emit at 1.
  fold (shows (SpinnerStart ("Setting up " ++ name addOn ++ "...")) w).
  set (w0 := shows _ w).
  assert (Hc : composeAssets targetDir templateFile addOn w0
               = composed targetDir templateFile addOn w0).
  { unfold composeAssets, composed. cbv zeta. unfold bind at 1.
    rewrite existsSync_run.
    now destruct (Fs.stat (fs w0) (resolve [directory addOn; "assets"])). }
  unfold bind at 1. rewrite Hc.
  destruct (composed targetDir templateFile addOn w0) as [[u|e] w1];
    [|reflexivity].
  assert (Hp : postCommand targetDir addOn w1 = commanded targetDir addOn w1).
  { unfold postCommand, commanded. destruct (command addOn) as [c|];
      [|reflexivity].
    fold (arguments c). unfold exec, bind, emit, get_fs, lift, put_fs, shows.
    cbn [fs trace].
    now destruct (execa (command_name c) (arguments c) targetDir (fs w1)). }
  unfold bind at 1. rewrite Hp.
  destruct (commanded targetDir addOn w1) as [[u'|e] w2]; reflexivity.
Qed.

Lemma processed_trace (addOn : AddOn) (w w' : world) :
  (forall dir file target, silent (templateFile dir file target)) ->
  processed targetDir templateFile addOn w = (Ok tt, w') ->
  trace w' = (trace w ++ shown targetDir addOn)%list.
Proof.
  intros Hs. unfold processed.
  set (w0 := shows (SpinnerStart ("Setting up " ++ name addOn ++ "...")) w).
  assert (Hc : trace (snd (composed targetDir templateFile addOn w0))
               = trace w0).
  { unfold composed.
    destruct (Fs.stat (fs w0) (resolve [directory addOn; "assets"]));
      [|reflexivity].
    apply silent_copyFilesRecursively; [apply silent_copyFile|].
    intros s t. apply Hs. }
  destruct (composed targetDir templateFile addOn w0) as [[u|e] w1];
    [|discriminate]. cbn [snd] in Hc.
  unfold commanded, shown. destruct (command addOn) as [c|].
  - destruct (execa (command_name c) (arguments c) targetDir (fs w1));
      [|discriminate].
    intros H. injection H as <-. unfold shows. cbn [trace fs].
    rewrite Hc. unfold w0, shows. cbn [trace].
    now rewrite <- !app_assoc.
  - intros H. injection H as <-. unfold shows. cbn [trace fs].
    rewrite Hc. unfold w0, shows. cbn [trace].
    now rewrite <- !app_assoc.
Qed.

(** C6.  The loop of [createApp] over the chosen add-ons processes the
    add-ons of the setup phase, then those of the add-on phase, one
    after the other.  To process an add-on is to compose its asset tree
    into the target directory, when it has one, and then to execute its
    post-command, when it has one, on the files the composition left;
    the next add-on starts on the files the command left, and a failure
    ends the loop.  An add-on of the setup phase comes before every
    add-on of the add-on phase, and two add-ons of one phase keep the
    order of the selection.  In a run that goes through, what is shown
    is, add-on by add-on in that order, the start of the spinner, the
    command of the add-on and the stop of the spinner. *)
Theorem C6_phases_in_order (chosen : list AddOn) :
  (forall w,
     composeAddOns targetDir chosen templateFile w
     = forEach (schedule chosen) (processed targetDir templateFile) w)
  /\ (forall a b,
        In a chosen -> In b chosen ->
        phase a = "setup" -> phase b = "add-on" ->
        before a b (schedule chosen))
  /\ (forall a b,
        before a b chosen -> phase a = phase b ->
        phase a = "setup" \/ phase a = "add-on" ->
        before a b (schedule chosen))
  /\ (forall w w',
        (forall dir file target, silent (templateFile dir file target)) ->
        composeAddOns targetDir chosen templateFile w = (Ok tt, w') ->
        trace w'
        = (trace w ++ flat_map (shown targetDir) (schedule chosen))%list).
Proof.
  assert (Hloop : forall w,
            composeAddOns targetDir chosen templateFile w
            = forEach (schedule chosen) (processed targetDir templateFile) w).
  { intros w. unfold composeAddOns, schedule. rewrite forEach_app.
    cbn [forEach]. fold (in_phase "setup"). fold (in_phase "add-on").
    unfold bind.
    rewrite (forEach_ext _ _ _ setUpAddOn_processed).
    destruct (forEach (filter (in_phase "setup") chosen) _ w)
      as [[u|e] w1]; [|reflexivity].
    rewrite (forEach_ext _ _ _ setUpAddOn_processed).
    destruct (forEach (filter (in_phase "add-on") chosen) _ w1)
      as [[[]|e] w2]; reflexivity. }
  split; [exact Hloop|]. split; [|split].
  - intros a b Ha Hb Hpa Hpb. unfold schedule.
    apply before_across; apply filter_In; split; try assumption;
      unfold in_phase; [rewrite Hpa | rewrite Hpb]; reflexivity.
  - intros a b Hab Hp [Hs|Hs]; unfold schedule.
    + apply before_app_left, before_filter; [exact Hab| |];
        unfold in_phase; [|rewrite <- Hp]; rewrite Hs; reflexivity.
    + apply before_app_right, before_filter; [exact Hab| |];
        unfold in_phase; [|rewrite <- Hp]; rewrite Hs; reflexivity.
  - intros w w' Hs. rewrite Hloop. apply forEach_trace.
    intros a w0 w0'. now apply processed_trace.
Qed.

End PhaseFacts.

Lemma C6_phases_in_order_witness :
  In Bench.start_init [Bench.form_add; Bench.start_init]
  /\ In Bench.form_add [Bench.form_add; Bench.start_init]
  /\ before Bench.start_init Bench.form_add
       (schedule [Bench.form_add; Bench.start_init])
  /\ composeAddOns (E := Bench.installer) "/home/user/demo"
       [Bench.form_add; Bench.start_init]
       (createTemplateFile (E := Bench.installer) "demo" Bench.typed_options
          "/home/user/demo")
       Bench.machine
     = (Ok tt,
        mkWorld
          (Fs.set (fs Bench.machine) "/home/user/demo/README.md"
             (File "# Demo## Start")
           ++ [("/home/user/demo/app.config.ts", File "export default {}");
               ("/home/user/demo/init.log", File "--yes:# Demo## Start");
               ("/home/user/demo/add.log", File ":# Demo## Start")])%list
          [SpinnerStart "Setting up Start...";
           Exec "init" ["--yes"] "/home/user/demo";
           SpinnerStop "Start setup complete";
           SpinnerStart "Setting up Form...";
           Exec "add" [] "/home/user/demo";
           SpinnerStop "Form setup complete"])
  /\ trace
       (snd (composeAddOns (E := Bench.installer) "/home/user/demo"
               [Bench.form_add; Bench.start_init]
               (createTemplateFile (E := Bench.installer) "demo"
                  Bench.typed_options "/home/user/demo")
               Bench.machine))
     = flat_map (shown "/home/user/demo") [Bench.start_init; Bench.form_add].
Proof.
  assert (Hs : In Bench.start_init [Bench.form_add; Bench.start_init])
    by (right; left; reflexivity).
  assert (Hf : In Bench.form_add [Bench.form_add; Bench.start_init])
    by (left; reflexivity).
  destruct (C6_phases_in_order (E := Bench.installer) "/home/user/demo"
              (createTemplateFile (E := Bench.installer) "demo"
                 Bench.typed_options "/home/user/demo")
              [Bench.form_add; Bench.start_init])
    as [Hloop [Hphase [_ Htrace]]].
  split; [exact Hs|]. split; [exact Hf|].
  split; [exact (Hphase _ _ Hs Hf eq_refl eq_refl)|].
  assert (Hrun : forEach (schedule [Bench.form_add; Bench.start_init])
                   (processed (E := Bench.installer) "/home/user/demo"
                      (createTemplateFile (E := Bench.installer) "demo"
                         Bench.typed_options "/home/user/demo"))
                   Bench.machine
                 = (Ok tt,
                    mkWorld
                      (Fs.set (fs Bench.machine) "/home/user/demo/README.md"
                         (File "# Demo## Start")
                       ++ [("/home/user/demo/app.config.ts",
                            File "export default {}");
                           ("/home/user/demo/init.log",
                            File "--yes:# Demo## Start");
                           ("/home/user/demo/add.log",
                            File ":# Demo## Start")])%list
                      [SpinnerStart "Setting up Start...";
                       Exec "init" ["--yes"] "/home/user/demo";
                       SpinnerStop "Start setup complete";
                       SpinnerStart "Setting up Form...";
                       Exec "add" [] "/home/user/demo";
                       SpinnerStop "Form setup complete"]))
    by (vm_compute; reflexivity).
  rewrite Hloop. split; [exact Hrun|].
  rewrite <- Hloop.
  refine (Htrace Bench.machine _ _ (eq_trans (Hloop Bench.machine) Hrun)).
  intros dir file target. apply silent_createTemplateFile.
Defined.

(** ** The qualifiers of the file names *)

Lemma get_file_stat (f : Fs.t) (p content : string) :
  Fs.get_file f p = Ok content <-> Fs.stat f p = Some (File content).
Proof.
  unfold Fs.get_file. destruct (Fs.stat f p) as [[c|]|]; split; intros H;
    try discriminate H; now (injection H as <-).
Qed.

Lemma forEach_copies (copies : list (string * string)) :
  forall w w',
    forEach copies (fun c => copyFile (fst c) (snd c)) w = (Ok tt, w') ->
    (forall c, In c copies ->
       exists text, Fs.get_file (fs w') (snd c) = Ok text)
    /\ (forall q,
          (forall c, In c copies -> q <> Fs.canon (snd c)) ->
          Fs.entry_at (fs w') q = Fs.entry_at (fs w) q).
Proof.
  induction copies as [|[src dest] copies IH]; intros w w' H.
  - injection H as <-. split; [intros c []|reflexivity].
  - cbn [forEach fst snd] in H. unfold bind in H.
    destruct (copyFile src dest w) as [[[]|e] w1] eqn:Ec; [|discriminate H].
    destruct (IH _ _ H) as [Hin Hout].
    apply copyFile_copies in Ec as [content [_ [Hdest [_ Hother]]]].
    split.
    + intros c [<-|Hc]; [|now apply Hin]. cbn [snd].
      apply get_file_stat in Hdest.
      destruct (keeps_forEach copies (fun c => copyFile (fst c) (snd c))
                  (fun c => keeps_copyFile (fst c) (snd c))
                  w1 (Fs.canon dest) (File content) Hdest)
        as [e' [He' Hkind]].
      rewrite H in He'. cbn [snd] in He'.
      destruct e' as [text|]; [|discriminate Hkind].
      exists text. now apply get_file_stat.
    + intros q Hq. rewrite Hout by (intros c Hc; apply Hq; now right).
      apply Hother. apply (Hq (src, dest)). now left.
Qed.

(** Copies that do not write over one another, nor over a file that is
    copied: each destination ends with the content its source had at the
    start. *)
Lemma forEach_copies_content (copies : list (string * string)) :
  forall w w',
    forEach copies (fun c => copyFile (fst c) (snd c)) w = (Ok tt, w') ->
    NoDup (map (fun c => Fs.canon (snd c)) copies) ->
    (forall c c', In c copies -> In c' copies ->
       Fs.canon (fst c) <> Fs.canon (snd c')) ->
    forall c, In c copies ->
      exists content,
        Fs.get_file (fs w) (fst c) = Ok content
        /\ Fs.get_file (fs w') (snd c) = Ok content.
Proof.
  induction copies as [|[src dest] copies IH]; intros w w' H Hnd Hsep c Hc;
    [destruct Hc|].
  cbn [forEach fst snd] in H. unfold bind in H.
  destruct (copyFile src dest w) as [[[]|e] w1] eqn:Ec; [|discriminate H].
  cbn [map snd] in Hnd. apply NoDup_cons_iff in Hnd as [Hfresh Hnd].
  destruct (forEach_copies _ _ _ H) as [_ Hout].
  apply copyFile_copies in Ec as [content [Hsrc [Hdest [_ Hother]]]].
  destruct Hc as [<-|Hc]; cbn [fst snd].
  - exists content. split; [exact Hsrc|].
    apply get_file_stat. apply get_file_stat in Hdest.
    unfold Fs.stat in *. rewrite Hout; [exact Hdest|].
    intros c' Hc' Heq. apply Hfresh. apply in_map_iff. now exists c'.
  - destruct (IH _ _ H Hnd
                (fun c c' Hin Hin' => Hsep c c' (or_intror Hin)
                                        (or_intror Hin')) c Hc)
      as [text [Hs Hd]].
    exists text. split; [|exact Hd].
    apply get_file_stat. apply get_file_stat in Hs. unfold Fs.stat in *.
    rewrite <- Hother; [exact Hs|].
    apply (Hsep c (src, dest)); [now right | now left].
Qed.

Lemma forEach_map {A B : Type} (g : A -> B) (body : B -> M unit)
  (l : list A) :
  forall w, forEach l (fun a => body (g a)) w = forEach (map g l) body w.
Proof.
  induction l as [|a l IH]; intros w; [reflexivity|].
  cbn [map forEach]. unfold bind.
  destruct (body (g a) w) as [[u|e] w1]; [apply IH | reflexivity].
Qed.

Section QualifierFacts.

Context {E : Externals}.

Lemma createTemplateFile_run
  (projectName : string) (options : Options)
  (targetDir templateDir file : string) (targetFileName : option string)
  (w : world) :
  let target := match targetFileName with
                | Some t => t
                | None => JsString.replace ".ejs" "" file
                end in
  createTemplateFile projectName options targetDir templateDir file
    targetFileName w
  = match Fs.get_file (fs w) (resolve [templateDir; file]) with
    | Err e => (Err e, w)
    | Ok template =>
        match render template (templateValues projectName options) with
        | Err e => (Err e, w)
        | Ok content =>
            if formatted_target target
            then match format content prettierOptions with
                 | Err e => (Err e, w)
                 | Ok text =>
                     (mkdir (dirname (resolve [targetDir; target])) ;;
                      writeFile (resolve [targetDir; target]) text) w
                 end
            else (mkdir (dirname (resolve [targetDir; target])) ;;
                  writeFile (resolve [targetDir; target]) content) w
        end
    end.
Proof.
  intros target. unfold createTemplateFile, formatted_target. fold target.
  unfold bind at 1. rewrite readFile_run.
  destruct (Fs.get_file (fs w) (resolve [templateDir; file]));
    [|reflexivity].
  unfold bind at 1.
  destruct (render _ (templateValues projectName options));
    cbn [lift ret throw]; [|reflexivity].
  unfold bind at 1.
  destruct (JsString.endsWith target ".ts"
            || JsString.endsWith target ".tsx"); [|reflexivity].
  now destruct (format _ prettierOptions).
Qed.

Lemma written_at (dir path text : string) (w w' : world) :
  (mkdir dir ;; writeFile path text) w = (Ok tt, w') ->
  Fs.get_file (fs w') path = Ok text.
Proof.
  unfold bind. rewrite mkdir_run.
  destruct (Fs.make_dirs (fs w) (Fs.ancestors dir)) as [f|e];
    [|discriminate].
  rewrite writeFile_run. cbn [fs].
  destruct (Fs.put_file f path text) as [f'|e] eqn:Ep; [|discriminate].
  intros H. injection H as <-. cbn [fs].
  apply put_file_sets in Ep as [Hset _]. now apply get_file_stat.
Qed.

(** C9, amended.  Where a qualifier is taken out of a target, it is its
    first occurrence that goes, wherever it is; but it is not taken out
    of every name that has it.  [copyFiles] takes the first styling
    qualifier out of every file name of its list: after a run that goes
    through, each file of the list is found under its name without it
    (with the content of the template file, when the copies do not write
    over one another), and no other path has changed.  The template function takes the
    first render qualifier out of the file name when it is given no
    target: the text it writes is found under that name.  The tree
    composer takes the first render qualifier out of the target path of
    a file whose name ends with it, and the first append qualifier out
    of the target path of a file whose name ends with it; a file whose
    name ends with neither is copied to its target as it is, whatever
    qualifier the name has inside.  So "network.twin.ts" is copied by
    [copyFiles] to "networkin.ts", and of two occurrences the first one
    goes, not the one at the end. *)
Theorem C9_first_occurrence_stripped :
  (forall targetDir templateDir files w w',
     createCopyFiles targetDir templateDir files w = (Ok tt, w') ->
     (forall file, In file files ->
        exists text,
          Fs.get_file (fs w')
            (resolve [targetDir; JsString.replace ".tw" "" file]) = Ok text)
     /\ (forall q,
           (forall file, In file files ->
              q <> Fs.canon
                     (resolve [targetDir; JsString.replace ".tw" "" file])) ->
           Fs.entry_at (fs w') q = Fs.entry_at (fs w) q)
     /\ (NoDup
           (map (fun file =>
                   Fs.canon
                     (resolve [targetDir; JsString.replace ".tw" "" file]))
              files) ->
         (forall file file', In file files -> In file' files ->
            Fs.canon (resolve [templateDir; file])
            <> Fs.canon
                 (resolve [targetDir; JsString.replace ".tw" "" file'])) ->
         forall file, In file files ->
           exists content,
             Fs.get_file (fs w) (resolve [templateDir; file]) = Ok content
             /\ Fs.get_file (fs w')
                  (resolve [targetDir; JsString.replace ".tw" "" file])
                = Ok content))
  /\ (forall projectName options targetDir templateDir file w w',
        createTemplateFile projectName options targetDir templateDir file
          None w = (Ok tt, w') ->
        exists template content text,
          Fs.get_file (fs w) (resolve [templateDir; file]) = Ok template
          /\ render template (templateValues projectName options)
             = Ok content
          /\ written (JsString.replace ".ejs" "" file) content text
          /\ Fs.get_file (fs w')
               (resolve [targetDir; JsString.replace ".ejs" "" file])
             = Ok text)
  /\ (forall depth source target cf tf w content,
        Fs.stat (fs w) source = Some (File content) ->
        JsString.endsWith source ".ejs" = true ->
        copyFilesRecursively (S depth) source target cf tf w
        = (mkdir (dirname (JsString.replace ".ejs" "" target)) ;;
           tf source (Some (JsString.replace ".ejs" "" target))) w)
  /\ (forall depth source target cf tf w content,
        Fs.stat (fs w) source = Some (File content) ->
        JsString.endsWith source ".append" = true ->
        copyFilesRecursively (S depth) source target cf tf w
        = (mkdir (dirname target) ;;
           text <- readFile source ;;
           appendFile (JsString.replace ".append" "" target) text) w)
  /\ (forall depth source target cf tf w content,
        Fs.stat (fs w) source = Some (File content) ->
        JsString.endsWith source ".ejs" = false ->
        JsString.endsWith source ".append" = false ->
        copyFilesRecursively (S depth) source target cf tf w
        = (mkdir (dirname target) ;; cf source target) w)
  /\ (forall qualifier s,
        JsString.includes s qualifier = true ->
        exists p q,
          s = p ++ qualifier ++ q
          /\ JsString.replace qualifier "" s = p ++ q
          /\ forall p1 p2, p = p1 ++ p2 -> p2 <> "" ->
               prefix qualifier (p2 ++ qualifier ++ q) = false)
  /\ JsString.replace ".tw" "" "network.twin.ts" = "networkin.ts"
  /\ JsString.replace ".ejs" "" "mail.ejs.html.ejs" = "mail.html.ejs"
  /\ JsString.replace ".append" "" "/home/user/my.appendix/README.md.append"
     = "/home/user/myix/README.md.append".
Proof.
  split; [|split; [|split; [|split; [|split; [|split; [|repeat split]]]]]].
  - intros targetDir templateDir files w w' H.
    assert (Hmap :
      createCopyFiles targetDir templateDir files w
      = forEach
          (map (fun file =>
                  (resolve [templateDir; file],
                   resolve [targetDir; JsString.replace ".tw" "" file]))
             files)
          (fun c => copyFile (fst c) (snd c)) w).
    { unfold createCopyFiles.
      exact (forEach_map
               (fun file =>
                  (resolve [templateDir; file],
                   resolve [targetDir; JsString.replace ".tw" "" file]))
               (fun c => copyFile (fst c) (snd c)) files w). }
    rewrite Hmap in H.
    destruct (forEach_copies _ _ _ H) as [Hin Hout]. split; [|split].
    + intros file Hf.
      apply (Hin (resolve [templateDir; file],
                  resolve [targetDir; JsString.replace ".tw" "" file])).
      apply in_map_iff. now exists file.
    + intros q Hq. apply Hout. intros c Hc.
      apply in_map_iff in Hc as [file [<- Hf]]. now apply Hq.
    + intros Hnd Hsep file Hf.
      apply (forEach_copies_content _ _ _ H) with
        (c := (resolve [templateDir; file],
               resolve [targetDir; JsString.replace ".tw" "" file])).
      * now rewrite map_map.
      * intros c c' Hc Hc'.
        apply in_map_iff in Hc as [f [<- Hin1]].
        apply in_map_iff in Hc' as [f' [<- Hin2]]. now apply Hsep.
      * apply in_map_iff. now exists file.
  - intros projectName options targetDir templateDir file w w' H.
    rewrite createTemplateFile_run in H. cbv zeta in H. unfold written.
    destruct (Fs.get_file (fs w) (resolve [templateDir; file]))
      as [template|e]; [|discriminate H].
    destruct (render template (templateValues projectName options))
      as [content|e] eqn:Er; [|discriminate H].
    exists template, content.
    destruct (formatted_target (JsString.replace ".ejs" "" file)).
    + destruct (format content prettierOptions) as [text|e] eqn:Et;
        [|discriminate H].
      exists text. split; [reflexivity|]. split; [exact Er|].
      split; [reflexivity|]. now apply written_at in H.
    + exists content. split; [reflexivity|]. split; [exact Er|].
      split; [reflexivity|]. now apply written_at in H.
  - intros depth source target cf tf w content Hs He.
    cbn [copyFilesRecursively]. unfold bind at 1.
    rewrite statSync_run, Hs. cbn [is_directory]. now rewrite He.
  - intros depth source target cf tf w content Hs Ha.
    cbn [copyFilesRecursively]. unfold bind at 1.
    rewrite statSync_run, Hs. cbn [is_directory].
    now rewrite (endsWith_append_not_ejs _ Ha), Ha.
  - intros depth source target cf tf w content Hs He Ha.
    cbn [copyFilesRecursively]. unfold bind at 1.
    rewrite statSync_run, Hs. cbn [is_directory]. now rewrite He, Ha.
  - intros qualifier s H.
    destruct (replace_first qualifier "" s H) as [p [q [Hs [Hr Hf]]]].
    exists p, q. repeat split; assumption.
Qed.

End QualifierFacts.

Lemma C9_first_occurrence_stripped_witness :
  createCopyFiles (E := Bench.externals) "/home/user/demo" "/pkg/assets"
    ["logo.tw.svg"; "network.twin.ts"] Bench.mixed
  = (Ok tt,
     mkWorld
       (fs Bench.mixed
        ++ [("/home/user/demo/logo.svg", File "<svg/>");
            ("/home/user/demo/networkin.ts", File "export {}")])%list [])
  /\ (exists content,
        Fs.get_file (fs Bench.mixed) "/pkg/assets/network.twin.ts"
        = Ok content
        /\ Fs.get_file
             (fs Bench.mixed
              ++ [("/home/user/demo/logo.svg", File "<svg/>");
                  ("/home/user/demo/networkin.ts", File "export {}")])%list
             "/home/user/demo/networkin.ts" = Ok content)
  /\ Fs.stat (fs Bench.mixed) "/pkg/assets/page.ejs.html.ejs"
     = Some (File "<html/>")
  /\ copyFilesRecursively (E := Bench.externals) 1
       "/pkg/assets/page.ejs.html.ejs" "/home/user/demo/page.ejs.html.ejs"
       copyFile
       (createTemplateFile (E := Bench.externals) "demo" Bench.typed_options
          "/home/user/demo" "/pkg/assets")
       Bench.mixed
     = (mkdir "/home/user/demo" ;;
        createTemplateFile (E := Bench.externals) "demo" Bench.typed_options
          "/home/user/demo" "/pkg/assets" "/pkg/assets/page.ejs.html.ejs"
          (Some "/home/user/demo/page.html.ejs")) Bench.mixed
  /\ copyFilesRecursively (E := Bench.externals) 1
       "/pkg/assets/view.ejs.txt" "/home/user/demo/view.ejs.txt"
       copyFile (fun _ _ => ret tt) Bench.mixed
     = (mkdir "/home/user/demo" ;;
        copyFile "/pkg/assets/view.ejs.txt" "/home/user/demo/view.ejs.txt")
         Bench.mixed.
Proof.
  destruct (C9_first_occurrence_stripped (E := Bench.externals))
    as [Hcopy [_ [Hejs [_ [Hplain _]]]]].
  assert (Hrun : createCopyFiles (E := Bench.externals) "/home/user/demo"
                   "/pkg/assets" ["logo.tw.svg"; "network.twin.ts"]
                   Bench.mixed
                 = (Ok tt,
                    mkWorld
                      (fs Bench.mixed
                       ++ [("/home/user/demo/logo.svg", File "<svg/>");
                           ("/home/user/demo/networkin.ts",
                            File "export {}")])%list []))
    by reflexivity.
  split; [exact Hrun|]. split.
  { apply (proj2 (proj2 (Hcopy _ _ _ _ _ Hrun))) with
      (file := "network.twin.ts").
    - repeat constructor; cbn; intuition discriminate.
    - intros file file' [<-|[<-|[]]] [<-|[<-|[]]]; discriminate.
    - right. now left. }
  split; [reflexivity|]. split.
  - exact (Hejs 0 "/pkg/assets/page.ejs.html.ejs"
             "/home/user/demo/page.ejs.html.ejs" copyFile _ Bench.mixed
             "<html/>" eq_refl eq_refl).
  - exact (Hplain 0 "/pkg/assets/view.ejs.txt"
             "/home/user/demo/view.ejs.txt" copyFile (fun _ _ => ret tt)
             Bench.mixed "a view" eq_refl eq_refl eq_refl).
Defined.

(** C9 as stated fails.  The asset tree holds [view.ejs.txt] and
    [notes.append.md], whose names have a qualifier inside and not at
    their end: the composer copies both under their own names, and
    neither [view.txt] nor [notes.md] is made. *)
Lemma C9_counterexample :
  ~ stripped_as_stated (E := Bench.externals) ".ejs" "/pkg/assets"
      "/home/user/demo" "view.ejs.txt" Bench.mixed
  /\ ~ stripped_as_stated (E := Bench.externals) ".append" "/pkg/assets"
         "/home/user/demo" "notes.append.md" Bench.mixed
  /\ JsString.replace ".ejs" "" "view.ejs.txt" = "view.txt"
  /\ JsString.replace ".append" "" "notes.append.md" = "notes.md"
  /\ copyFilesRecursively (E := Bench.externals) 64
       "/pkg/assets/view.ejs.txt" "/home/user/demo/view.ejs.txt" copyFile
       (fun _ _ => ret tt) Bench.mixed
     = (Ok tt,
        mkWorld
          (fs Bench.mixed
           ++ [("/home/user/demo/view.ejs.txt", File "a view")])%list [])
  /\ copyFilesRecursively (E := Bench.externals) 64
       "/pkg/assets/notes.append.md" "/home/user/demo/notes.append.md"
       copyFile (fun _ _ => ret tt) Bench.mixed
     = (Ok tt,
        mkWorld
          (fs Bench.mixed
           ++ [("/home/user/demo/notes.append.md", File "some notes")])%list
          []).
Proof.
  split; [|split; [|repeat split]].
  - intros H.
    destruct (H eq_refl (fun _ _ => ret tt)
                (mkWorld
                   (fs Bench.mixed
                    ++ [("/home/user/demo/view.ejs.txt", File "a view")])%list
                   []) eq_refl) as [text Ht].
    vm_compute in Ht. discriminate Ht.
  - intros H.
    destruct (H eq_refl (fun _ _ => ret tt)
                (mkWorld
                   (fs Bench.mixed
                    ++ [("/home/user/demo/notes.append.md",
                         File "some notes")])%list
                   []) eq_refl) as [text Ht].
    vm_compute in Ht. discriminate Ht.
Qed.
